(** * SenseVoice.cpp: the CTC decoder (sense-voice-decoder.cc)

    A shallow embedding of [ggml_mul_mat_pad],
    [sense_voice_build_graph_ctc_decoder], [ggml_graph_compute_helper] and
    [sense_voice_decode_internal], together with the part of the ggml
    interface these four functions call.

    Layout of the development:
    - [CInt]     C integer arithmetic (truncating division, wrap-around);
    - [Ggml]     tensors, graph construction and the reference semantics of
                 the operators the decoder uses;
    - [Engine]   the calls into the scheduler, the clock and stdout, as a
                 free monad whose answers are chosen by the engine;
    - [Decoder]  the four functions of the source file;
    - [Shapes], [Runs], [Traces]  the tensors the builder appends, the
                 shape of the traces of a decode call and of the loop
                 over the backends;
    - [Examples], [Scenarios]  concrete inputs;
    - [CIntFacts] ... [DecodeFacts]  the theorems, one module per function;
    - [SplitFacts], [LoopFacts], [GraphFacts], [CallFacts]  further
                 properties of the split product, the configuration loop,
                 the graph and the calls of a decode call;
    - [Instances], [MoreInstances]  the theorems at the concrete inputs. *)

From Stdlib Require Import ZArith Lia String List.
From stdpp Require Import base option list strings pretty gmap.

Local Open Scope Z_scope.

(** ** C integers *)

Module CInt.

(** [int64_t] and [size_t] values are carried as [Z]; a product that the
    source computes in 64 bits is wrapped explicitly. *)
Definition wrap_int64 (z : Z) : Z := (z + 2 ^ 63) mod 2 ^ 64 - 2 ^ 63.
Definition wrap_size_t (z : Z) : Z := z mod 2 ^ 64.

Definition INT64_MAX : Z := 2 ^ 63 - 1.
Definition INT_MAX : Z := 2 ^ 31 - 1.

(** [a / b] and [a % b] of C: truncation toward zero; a zero divisor is
    undefined behaviour, rendered as [None]. *)
Definition c_div (a b : Z) : option Z :=
  if decide (b = 0) then None else Some (Z.quot a b).
Definition c_mod (a b : Z) : option Z :=
  if decide (b = 0) then None else Some (Z.rem a b).

Definition sizeof_float : Z := 4.

End CInt.

(** ** The ggml interface used by the decoder *)

Module Ggml.
Import CInt.

(** Element types without block quantisation (block size 1): an element
    occupies [ggml_type_size] bytes. *)
Inductive ggml_type :=
| GGML_TYPE_F32 | GGML_TYPE_F16 | GGML_TYPE_BF16 | GGML_TYPE_F64
| GGML_TYPE_I8 | GGML_TYPE_I16 | GGML_TYPE_I32 | GGML_TYPE_I64.

Definition ggml_type_size (t : ggml_type) : Z :=
  match t with
  | GGML_TYPE_F32 => 4 | GGML_TYPE_F16 => 2 | GGML_TYPE_BF16 => 2
  | GGML_TYPE_F64 => 8 | GGML_TYPE_I8 => 1 | GGML_TYPE_I16 => 2
  | GGML_TYPE_I32 => 4 | GGML_TYPE_I64 => 8
  end.

Inductive ggml_op :=
| GGML_OP_NONE | GGML_OP_ADD | GGML_OP_MUL_MAT | GGML_OP_VIEW
| GGML_OP_SOFT_MAX | GGML_OP_ARGMAX.

Inductive ggml_status :=
| GGML_STATUS_ALLOC_FAILED | GGML_STATUS_FAILED
| GGML_STATUS_SUCCESS | GGML_STATUS_ABORTED.

#[global] Instance ggml_type_eq_dec : EqDecision ggml_type.
Proof. solve_decision. Defined.
#[global] Instance ggml_op_eq_dec : EqDecision ggml_op.
Proof. solve_decision. Defined.
#[global] Instance ggml_status_eq_dec : EqDecision ggml_status.
Proof. solve_decision. Defined.

(** [ne[4]] and [nb[4]] of a tensor. *)
Record dim4 := Dim4 { d0 : Z; d1 : Z; d2 : Z; d3 : Z }.

(** A tensor pointer is an index into the list of tensor objects. *)
Abbreviation tensor_ptr := nat (only parsing).

Record ggml_tensor := Tensor {
  type : ggml_type;
  ne : dim4;                       (* number of elements per dimension *)
  nb : dim4;                       (* stride in bytes per dimension *)
  op : ggml_op;
  flag_input : bool;               (* GGML_TENSOR_FLAG_INPUT *)
  flag_output : bool;              (* GGML_TENSOR_FLAG_OUTPUT *)
  src : list tensor_ptr;           (* the non-null src[i], in index order *)
  view_src : option tensor_ptr;
  view_offs : Z;
  data : Z;                        (* 0 is NULL *)
  name : string
}.

(** The tensor objects a pointer can refer to: those of the model, of the
    session, and (appended at the end) those created in the context of
    the current graph.  The capacity of the arena behind a context is not
    represented. *)
Abbreviation ggml_context := (list ggml_tensor) (only parsing).

(** Graph construction either returns a value and the extended context,
    or stops on a failed GGML_ASSERT / undefined behaviour ([None]). *)
Definition build (A : Type) : Type := ggml_context -> option (A * ggml_context).

Definition ret {A} (a : A) : build A := fun ctx => Some (a, ctx).
Definition bind {A B} (m : build A) (k : A -> build B) : build B :=
  fun ctx => match m ctx with
             | Some (a, ctx') => k a ctx'
             | None => None
             end.
Definition abort {A} : build A := fun _ => None.
Definition GGML_ASSERT (b : bool) : build unit :=
  if b then ret tt else abort.
Definition lift {A} (o : option A) : build A :=
  match o with Some a => ret a | None => abort end.
Definition deref (p : tensor_ptr) : build ggml_tensor :=
  fun ctx => match ctx !! p with Some t => Some (t, ctx) | None => None end.

Declare Scope build_scope.
Delimit Scope build_scope with build.
Notation "'let*' x ':=' m 'in' k" := (bind m (fun x => k))
  (at level 10, x name, m at level 100, k at level 200, only parsing) : build_scope.
Notation "m ';;' k" := (bind m (fun _ => k))
  (at level 100, k at level 200, right associativity, only parsing) : build_scope.
Local Open Scope build_scope.

(** *** Shape predicates (ggml.c) *)

Definition ggml_nelements (t : ggml_tensor) : Z :=
  d0 (ne t) * d1 (ne t) * d2 (ne t) * d3 (ne t).

Definition ggml_is_empty (t : ggml_tensor) : bool :=
  (d0 (ne t) =? 0) || (d1 (ne t) =? 0) || (d2 (ne t) =? 0) || (d3 (ne t) =? 0).

Definition ggml_is_matrix (t : ggml_tensor) : bool :=
  (d2 (ne t) =? 1) && (d3 (ne t) =? 1).

Definition ggml_is_transposed (t : ggml_tensor) : bool :=
  d1 (nb t) <? d0 (nb t).

Definition ggml_is_contiguous (t : ggml_tensor) : bool :=
  (d0 (nb t) =? ggml_type_size (type t))
  && (d1 (nb t) =? d0 (nb t) * d0 (ne t))
  && (d2 (nb t) =? d1 (nb t) * d1 (ne t))
  && (d3 (nb t) =? d2 (nb t) * d2 (ne t)).

Definition ggml_can_mul_mat (t0 t1 : ggml_tensor) : bool :=
  (d0 (ne t0) =? d0 (ne t1))
  && (Z.rem (d2 (ne t1)) (d2 (ne t0)) =? 0)
  && (Z.rem (d3 (ne t1)) (d3 (ne t0)) =? 0).

Definition ggml_can_repeat (t0 t1 : ggml_tensor) : bool :=
  if ggml_is_empty t0 then ggml_is_empty t1
  else (Z.rem (d0 (ne t1)) (d0 (ne t0)) =? 0)
       && (Z.rem (d1 (ne t1)) (d1 (ne t0)) =? 0)
       && (Z.rem (d2 (ne t1)) (d2 (ne t0)) =? 0)
       && (Z.rem (d3 (ne t1)) (d3 (ne t0)) =? 0).

(** *** Tensor construction (ggml.c) *)

(** [ggml_new_tensor_impl]: a view of a view refers to the base tensor
    with the accumulated offset; strides are those of a dense layout; the
    context is [no_alloc], so only a view of a tensor that has data gets
    a data pointer. *)
Definition new_tensor (ty : ggml_type) (n : dim4)
    (vs : option tensor_ptr) (vo dat : Z) : ggml_tensor :=
  let nb0 := ggml_type_size ty in
  let nb1 := nb0 * d0 n in
  let nb2 := nb1 * d1 n in
  let nb3 := nb2 * d2 n in
  {| type := ty; ne := n; nb := Dim4 nb0 nb1 nb2 nb3;
     op := GGML_OP_NONE;
     flag_input := false; flag_output := false;
     src := []; view_src := vs; view_offs := vo;
     data := if decide (dat = 0) then 0 else dat + vo;
     name := EmptyString |}.

Definition ggml_new_tensor_impl (ty : ggml_type) (n : dim4)
    (vsrc : option tensor_ptr) (voffs : Z) : build tensor_ptr :=
  let* base :=
    match vsrc with
    | None => ret (None, voffs, 0)
    | Some v =>
        let* tv := deref v in
        match view_src tv with
        | Some v' =>
            let* tv' := deref v' in
            ret (Some v', wrap_size_t (voffs + view_offs tv), data tv')
        | None => ret (Some v, voffs, data tv)
        end
    end in
  let '(vs, vo, dat) := base in
  fun ctx => Some (length ctx, ctx ++ [new_tensor ty n vs vo dat]).

Definition ggml_new_tensor_1d (ty : ggml_type) (ne0 : Z) : build tensor_ptr :=
  ggml_new_tensor_impl ty (Dim4 ne0 1 1 1) None 0.

Definition ggml_new_tensor_2d (ty : ggml_type) (ne0 ne1 : Z) : build tensor_ptr :=
  ggml_new_tensor_impl ty (Dim4 ne0 ne1 1 1) None 0.

Definition ggml_dup_tensor (t : ggml_tensor) : build tensor_ptr :=
  ggml_new_tensor_impl (type t) (ne t) None 0.

(** In-place update of a tensor object. *)
Definition modify (p : tensor_ptr) (f : ggml_tensor -> ggml_tensor) : build unit :=
  fun ctx => match ctx !! p with
             | Some t => Some (tt, <[p := f t]> ctx)
             | None => None
             end.

Definition set_op (o : ggml_op) (s : list tensor_ptr) (t : ggml_tensor) : ggml_tensor :=
  {| type := type t; ne := ne t; nb := nb t; op := o;
     flag_input := flag_input t; flag_output := flag_output t;
     src := s; view_src := view_src t; view_offs := view_offs t;
     data := data t; name := name t |}.

Definition set_nb (n : dim4) (t : ggml_tensor) : ggml_tensor :=
  {| type := type t; ne := ne t; nb := n; op := op t;
     flag_input := flag_input t; flag_output := flag_output t;
     src := src t; view_src := view_src t; view_offs := view_offs t;
     data := data t; name := name t |}.

Definition set_name (s : string) (t : ggml_tensor) : ggml_tensor :=
  {| type := type t; ne := ne t; nb := nb t; op := op t;
     flag_input := flag_input t; flag_output := flag_output t;
     src := src t; view_src := view_src t; view_offs := view_offs t;
     data := data t; name := s |}.

Definition set_input (t : ggml_tensor) : ggml_tensor :=
  {| type := type t; ne := ne t; nb := nb t; op := op t;
     flag_input := true; flag_output := flag_output t;
     src := src t; view_src := view_src t; view_offs := view_offs t;
     data := data t; name := name t |}.

Definition set_output (t : ggml_tensor) : ggml_tensor :=
  {| type := type t; ne := ne t; nb := nb t; op := op t;
     flag_input := flag_input t; flag_output := true;
     src := src t; view_src := view_src t; view_offs := view_offs t;
     data := data t; name := name t |}.

(** The name of a tensor is an array of [GGML_MAX_NAME] characters:
    [ggml_set_name] and [ggml_format_name] keep what fits before the
    terminating zero. *)
Definition GGML_MAX_NAME : nat := 64.

Definition ggml_name (s : string) : string :=
  String.substring 0 (GGML_MAX_NAME - 1) s.

Definition ggml_set_name (p : tensor_ptr) (s : string) : build unit :=
  modify p (set_name (ggml_name s)).
Definition ggml_set_input (p : tensor_ptr) : build unit := modify p set_input.
Definition ggml_set_output (p : tensor_ptr) : build unit := modify p set_output.

(** [ggml_view_3d]: the view keeps the element type of [a], takes the
    given extents, the given strides for dimensions 1 and 2, and starts
    [offset] bytes into [a]. *)
Definition ggml_view_3d (a : tensor_ptr) (ne0 ne1 ne2 nb1 nb2 offset : Z)
    : build tensor_ptr :=
  let* ta := deref a in
  let* r := ggml_new_tensor_impl (type ta) (Dim4 ne0 ne1 ne2 1) (Some a) offset in
  modify r (fun t =>
    set_nb (Dim4 (d0 (nb t)) nb1 nb2 (nb2 * ne2))
      (set_op GGML_OP_VIEW [a] (set_name (ggml_name (name ta +:+ " (view)")) t))) ;;
  ret r.

(** [ggml_mul_mat]: [a] is [k x n], [b] is [k x m], the result is the
    F32 tensor [n x m] (times the batch dimensions of [b]). *)
Definition ggml_mul_mat (a b : tensor_ptr) : build tensor_ptr :=
  let* ta := deref a in
  let* tb := deref b in
  GGML_ASSERT (ggml_can_mul_mat ta tb) ;;
  GGML_ASSERT (negb (ggml_is_transposed ta)) ;;
  let* r := ggml_new_tensor_impl GGML_TYPE_F32
              (Dim4 (d1 (ne ta)) (d1 (ne tb)) (d2 (ne tb)) (d3 (ne tb))) None 0 in
  modify r (set_op GGML_OP_MUL_MAT [a; b]) ;;
  ret r.

(** [ggml_add]: [b] is broadcast over [a]; the result has the shape and
    type of [a]. *)
Definition ggml_add (a b : tensor_ptr) : build tensor_ptr :=
  let* ta := deref a in
  let* tb := deref b in
  GGML_ASSERT (ggml_can_repeat tb ta) ;;
  let* r := ggml_dup_tensor ta in
  modify r (set_op GGML_OP_ADD [a; b]) ;;
  ret r.

Definition ggml_soft_max (a : tensor_ptr) : build tensor_ptr :=
  let* ta := deref a in
  GGML_ASSERT (ggml_is_contiguous ta) ;;
  let* r := ggml_dup_tensor ta in
  modify r (set_op GGML_OP_SOFT_MAX [a]) ;;
  ret r.

(** [ggml_argmax]: one I32 index per row of the matrix [a]. *)
Definition ggml_argmax (a : tensor_ptr) : build tensor_ptr :=
  let* ta := deref a in
  GGML_ASSERT (ggml_is_matrix ta) ;;
  let* r := ggml_new_tensor_1d GGML_TYPE_I32 (d1 (ne ta)) in
  modify r (set_op GGML_OP_ARGMAX [a]) ;;
  ret r.

(** *** Graphs (ggml.c) *)

Record ggml_cgraph := Graph {
  size : Z;                        (* capacity for nodes and for leafs *)
  nodes : list tensor_ptr;         (* in evaluation order *)
  leafs : list tensor_ptr;
  visited : list tensor_ptr
}.

Definition n_nodes (g : ggml_cgraph) : Z := Z.of_nat (length (nodes g)).
Definition n_leafs (g : ggml_cgraph) : Z := Z.of_nat (length (leafs g)).

Definition ggml_new_graph_custom (sz : Z) (grads : bool) : build ggml_cgraph :=
  ret {| size := sz; nodes := []; leafs := []; visited := [] |}.

Definition mark_visited (p : tensor_ptr) (g : ggml_cgraph) : ggml_cgraph :=
  {| size := size g; nodes := nodes g; leafs := leafs g;
     visited := p :: visited g |}.
Definition push_leaf (p : tensor_ptr) (g : ggml_cgraph) : ggml_cgraph :=
  {| size := size g; nodes := nodes g; leafs := leafs g ++ [p];
     visited := visited g |}.
Definition push_node (p : tensor_ptr) (g : ggml_cgraph) : ggml_cgraph :=
  {| size := size g; nodes := nodes g ++ [p]; leafs := leafs g;
     visited := visited g |}.

(** [if (strlen(node->name) == 0) ggml_format_name(node, fmt, k)] *)
Definition name_unnamed (nm : string) (t : ggml_tensor) : ggml_tensor :=
  if decide (name t = EmptyString) then set_name (ggml_name nm) t else t.

(** [ggml_visit_parents]: depth-first, sources before the tensor itself,
    each tensor once.  A tensor without operation is a leaf, any other is
    a node; both arrays hold at most [size] entries; a tensor that has no
    name is named after the slot it takes, "leaf_%d" or "node_%d".  The
    recursion follows [src] pointers, which point to older objects, so a
    fuel equal to the number of objects is never exhausted on a context
    built with the functions above. *)
Fixpoint ggml_visit_parents (fuel : nat) (ctx : ggml_context)
    (g : ggml_cgraph) (node : tensor_ptr)
    : option (ggml_cgraph * ggml_context) :=
  match fuel with
  | O => None
  | S fuel' =>
      if bool_decide (node ∈ visited g) then Some (g, ctx)
      else
        match ctx !! node with
        | None => None
        | Some t =>
            match foldl (fun acc s =>
                           match acc with
                           | Some (g', ctx') => ggml_visit_parents fuel' ctx' g' s
                           | None => None
                           end)
                        (Some (mark_visited node g, ctx)) (src t) with
            | None => None
            | Some (g', ctx') =>
                match ctx' !! node with
                | None => None
                | Some t' =>
                    if decide (op t' = GGML_OP_NONE) then
                      if n_leafs g' <? size g' then
                        Some (push_leaf node g',
                              <[node := name_unnamed
                                          ("leaf_" +:+ pretty (n_leafs g')) t']> ctx')
                      else None
                    else
                      if n_nodes g' <? size g' then
                        Some (push_node node g',
                              <[node := name_unnamed
                                          ("node_" +:+ pretty (n_nodes g')) t']> ctx')
                      else None
                end
            end
        end
  end.

(** [ggml_build_forward_expand]: when nodes were added, the last one is
    the tensor the expansion started from. *)
Definition ggml_build_forward_expand (g : ggml_cgraph) (t : tensor_ptr)
    : build ggml_cgraph :=
  fun ctx =>
    match ggml_visit_parents (length ctx) ctx g t with
    | None => None
    | Some (g', ctx') =>
        if (0 <? n_nodes g' - n_nodes g)
           && negb (bool_decide (last (nodes g') = Some t))
        then None
        else Some (g', ctx')
    end.

(** [ggml_graph_get_tensor]: first among the leafs, then among the nodes. *)
Definition ggml_graph_get_tensor (ctx : ggml_context) (g : ggml_cgraph)
    (nm : string) : option tensor_ptr :=
  let named p :=
    match ctx !! p with
    | Some t => bool_decide (name t = nm)
    | None => false
    end in
  match List.find named (leafs g) with
  | Some p => Some p
  | None => List.find named (nodes g)
  end.

(** *** Reference semantics of the operators, over exact arithmetic *)

(** The element stored at a byte address. *)
Definition memory := Z -> Z.

Definition index : Type := Z * Z * Z * Z.

Definition in_bounds (n : dim4) (i : index) : Prop :=
  let '(i0, i1, i2, i3) := i in
  0 <= i0 < d0 n /\ 0 <= i1 < d1 n /\ 0 <= i2 < d2 n /\ 0 <= i3 < d3 n.

Definition elem_offset (s : dim4) (i : index) : Z :=
  let '(i0, i1, i2, i3) := i in
  i0 * d0 s + i1 * d1 s + i2 * d2 s + i3 * d3 s.

Section Semantics.
(** [alloc p]: the address the graph allocator gives to a tensor
    created without data. *)
Variable alloc : tensor_ptr -> Z.
Variable mem : memory.

Definition base_addr (ctx : ggml_context) (p : tensor_ptr) : option Z :=
  match ctx !! p with
  | Some t => Some (if decide (data t = 0) then alloc p else data t)
  | None => None
  end.

(** A view starts [view_offs] bytes into its base tensor. *)
Definition tensor_addr (ctx : ggml_context) (p : tensor_ptr) (t : ggml_tensor)
    : option Z :=
  match view_src t with
  | Some v =>
      match base_addr ctx v with
      | Some a => Some (a + view_offs t)
      | None => None
      end
  | None => base_addr ctx p
  end.

Definition load (a : Z) (strides : dim4) (i : index) : Z :=
  mem (a + elem_offset strides i).

Fixpoint sum_n (n : nat) (f : Z -> Z) : Z :=
  match n with
  | O => 0
  | S n' => sum_n n' f + f (Z.of_nat n')
  end.

(** dst[i0,i1,i2,i3] = sum over k of a[k,i0,i2/r2,i3/r3] * b[k,i1,i2,i3] *)
Definition mul_mat_value (ta tb : ggml_tensor) (va vb : index -> Z) (i : index) : Z :=
  let '(i0, i1, i2, i3) := i in
  let r2 := Z.quot (d2 (ne tb)) (d2 (ne ta)) in
  let r3 := Z.quot (d3 (ne tb)) (d3 (ne ta)) in
  sum_n (Z.to_nat (d0 (ne ta)))
        (fun k => va (k, i0, Z.quot i2 r2, Z.quot i3 r3) * vb (k, i1, i2, i3)).

(** dst[i] = a[i] + b[i mod shape of b] *)
Definition add_value (tb : ggml_tensor) (va vb : index -> Z) (i : index) : Z :=
  let '(i0, i1, i2, i3) := i in
  va i + vb (Z.rem i0 (d0 (ne tb)), Z.rem i1 (d1 (ne tb)),
             Z.rem i2 (d2 (ne tb)), Z.rem i3 (d3 (ne tb))).

(** The value of a tensor: read from memory for a tensor without
    operation and for a view, computed from the sources for a product
    and a sum.  Soft-max and arg-max have no exact-arithmetic value
    here ([None]). *)
Fixpoint tensor_value (fuel : nat) (ctx : ggml_context) (p : tensor_ptr)
    : option (index -> Z) :=
  match fuel with
  | O => None
  | S fuel' =>
      match ctx !! p with
      | None => None
      | Some t =>
          match op t, src t with
          | GGML_OP_NONE, _ | GGML_OP_VIEW, _ =>
              match tensor_addr ctx p t with
              | Some a => Some (load a (nb t))
              | None => None
              end
          | GGML_OP_MUL_MAT, [a; b] =>
              match ctx !! a, ctx !! b,
                    tensor_value fuel' ctx a, tensor_value fuel' ctx b with
              | Some ta, Some tb, Some va, Some vb =>
                  Some (mul_mat_value ta tb va vb)
              | _, _, _, _ => None
              end
          | GGML_OP_ADD, [a; b] =>
              match ctx !! b,
                    tensor_value fuel' ctx a, tensor_value fuel' ctx b with
              | Some tb, Some va, Some vb => Some (add_value tb va vb)
              | _, _, _ => None
              end
          | _, _ => None
          end
      end
  end.

(** The values of [p] agree with what memory holds at its addresses:
    true of every tensor once it has been computed or loaded. *)
Definition in_memory (ctx : ggml_context) (p : tensor_ptr) (t : ggml_tensor)
    (v : index -> Z) : Prop :=
  exists a, tensor_addr ctx p t = Some a /\
            forall i, in_bounds (ne t) i -> v i = load a (nb t) i.
End Semantics.

(** [ggml_vec_argmax_f32] over an ordered carrier: the running maximum
    starts at minus infinity ([None]); an element equal to the running
    maximum takes the index.  [ltb] and [eqb] are the comparisons of the
    carrier (for floats neither need hold of a NaN). *)
Section Argmax.
Context {V : Type} (ltb eqb : V -> V -> bool).



End Argmax.

End Ggml.

(** ** Calls into the engine *)

Module Engine.
Import Ggml.

(** Scheduler and backend handles are opaque to the decoder. *)
Definition ggml_backend_sched_t := Z.
Definition ggml_backend_t := Z.

(** The functions of the engine whose outcome the decoder cannot
    determine, indexed by the type of their answer.  [host_ints t] is the
    array [(int * )t->data] as the host reads it; [undefined] is a run
    that stops on a failed assertion or on undefined behaviour. *)
Inductive call : Type -> Type :=
| ggml_time_us : call Z
| ggml_backend_sched_alloc_graph (sched : ggml_backend_sched_t)
    (gf : ggml_cgraph) : call bool
| ggml_backend_tensor_set (tensor : tensor_ptr) (data offset size : Z) : call unit
| ggml_backend_sched_get_n_backends (sched : ggml_backend_sched_t) : call Z
| ggml_backend_sched_get_backend (sched : ggml_backend_sched_t) (i : Z)
    : call ggml_backend_t
| ggml_backend_is_cpu (backend : ggml_backend_t) : call bool
| ggml_backend_cpu_set_n_threads (backend : ggml_backend_t) (n : Z) : call unit
| ggml_backend_is_blas (backend : ggml_backend_t) : call bool
| ggml_backend_blas_set_n_threads (backend : ggml_backend_t) (n : Z) : call unit
| ggml_backend_is_metal (backend : ggml_backend_t) : call bool
| ggml_backend_metal_set_n_cb (backend : ggml_backend_t) (n : Z) : call unit
| ggml_backend_sched_graph_compute (sched : ggml_backend_sched_t)
    (graph : ggml_cgraph) : call ggml_status
| ggml_backend_sched_reset (sched : ggml_backend_sched_t) : call unit
| host_ints (tensor : tensor_ptr) : call (Z -> Z)
| printf (s : string) : call unit
| undefined : call Empty_set.

(** A program is a tree of calls; each continuation receives the answer. *)
Inductive proc (R : Type) : Type :=
| Ret (r : R)
| Vis {X : Type} (e : call X) (k : X -> proc R).
Arguments Ret {R} r.
Arguments Vis {R X} e k.

Fixpoint pbind {A B} (m : proc A) (f : A -> proc B) : proc B :=
  match m with
  | Ret a => f a
  | Vis e k => Vis e (fun x => pbind (k x) f)
  end.

#[global] Instance proc_ret : MRet proc := fun _ a => Ret a.
#[global] Instance proc_bind : MBind proc := fun _ _ f m => pbind m f.

Definition do {X} (e : call X) : proc X := Vis e Ret.
Definition stop {R} : proc R :=
  Vis undefined (fun x : Empty_set => match x with end).

(** One completed call together with its answer. *)
Inductive event :=
| EvTimeUs (t : Z)
| EvSchedAllocGraph (sched : ggml_backend_sched_t) (gf : ggml_cgraph) (ok : bool)
| EvTensorSet (tensor : tensor_ptr) (data offset size : Z)
| EvGetNBackends (sched : ggml_backend_sched_t) (n : Z)
| EvGetBackend (sched : ggml_backend_sched_t) (i : Z) (backend : ggml_backend_t)
| EvIsCpu (backend : ggml_backend_t) (b : bool)
| EvCpuSetNThreads (backend : ggml_backend_t) (n : Z)
| EvIsBlas (backend : ggml_backend_t) (b : bool)
| EvBlasSetNThreads (backend : ggml_backend_t) (n : Z)
| EvIsMetal (backend : ggml_backend_t) (b : bool)
| EvMetalSetNCb (backend : ggml_backend_t) (n : Z)
| EvSchedGraphCompute (sched : ggml_backend_sched_t) (graph : ggml_cgraph)
    (status : ggml_status)
| EvSchedReset (sched : ggml_backend_sched_t)
| EvHostInts (tensor : tensor_ptr) (arr : Z -> Z)
| EvPrintf (s : string).

Definition event_of {X} (e : call X) : X -> event :=
  match e in call X return X -> event with
  | ggml_time_us => EvTimeUs
  | ggml_backend_sched_alloc_graph s g => EvSchedAllocGraph s g
  | ggml_backend_tensor_set t d o n => fun _ => EvTensorSet t d o n
  | ggml_backend_sched_get_n_backends s => EvGetNBackends s
  | ggml_backend_sched_get_backend s i => EvGetBackend s i
  | ggml_backend_is_cpu b => EvIsCpu b
  | ggml_backend_cpu_set_n_threads b n => fun _ => EvCpuSetNThreads b n
  | ggml_backend_is_blas b => EvIsBlas b
  | ggml_backend_blas_set_n_threads b n => fun _ => EvBlasSetNThreads b n
  | ggml_backend_is_metal b => EvIsMetal b
  | ggml_backend_metal_set_n_cb b n => fun _ => EvMetalSetNCb b n
  | ggml_backend_sched_graph_compute s g => EvSchedGraphCompute s g
  | ggml_backend_sched_reset s => fun _ => EvSchedReset s
  | host_ints t => EvHostInts t
  | printf s => fun _ => EvPrintf s
  | undefined => fun x : Empty_set => match x with end
  end.

(** [runs p tr r]: some choice of answers makes [p] perform exactly the
    calls of [tr], in that order, and return [r]. *)
Fixpoint runs {R} (p : proc R) (tr : list event) (r : R) : Prop :=
  match p with
  | Ret r' => tr = [] /\ r' = r
  | Vis e k => exists x tr', tr = event_of e x :: tr' /\ runs (k x) tr' r
  end.

(** An engine answers each call from its own state; [None] where the
    call does not return. *)
Definition engine (S : Type) : Type := forall X, call X -> S -> option (X * S).

Fixpoint interp {S R} (h : engine S) (p : proc R) (s : S)
    : option (R * S * list event) :=
  match p with
  | Ret r => Some (r, s, [])
  | Vis e k =>
      match h _ e s with
      | None => None
      | Some (x, s') =>
          match interp h (k x) s' with
          | None => None
          | Some (r, s'', tr) => Some (r, s'', event_of e x :: tr)
          end
      end
  end.

(** What a trace shows of the engine's answers and of the decoder's
    requests. *)
Definition alloc_answer (ev : event) : option bool :=
  match ev with EvSchedAllocGraph _ _ ok => Some ok | _ => None end.
Definition compute_answer (ev : event) : option ggml_status :=
  match ev with EvSchedGraphCompute _ _ st => Some st | _ => None end.
Definition printed (ev : event) : option string :=
  match ev with EvPrintf s => Some s | _ => None end.
Definition is_reset (ev : event) : bool :=
  match ev with EvSchedReset _ => true | _ => false end.
Definition is_compute (ev : event) : bool :=
  match ev with EvSchedGraphCompute _ _ _ => true | _ => false end.
Definition is_tensor_set (ev : event) : bool :=
  match ev with EvTensorSet _ _ _ _ => true | _ => false end.
Definition is_alloc (ev : event) : bool :=
  match ev with EvSchedAllocGraph _ _ _ => true | _ => false end.
Definition is_time (ev : event) : bool :=
  match ev with EvTimeUs _ => true | _ => false end.

(** The calls of the per-backend configuration loop. *)
Definition is_config (ev : event) : bool :=
  match ev with
  | EvGetNBackends _ _ | EvGetBackend _ _ _
  | EvIsCpu _ _ | EvCpuSetNThreads _ _
  | EvIsBlas _ _ | EvBlasSetNThreads _ _
  | EvIsMetal _ _ | EvMetalSetNCb _ _ => true
  | _ => false
  end.

(** An engine that answers every call of the interface, and whose
    backend count is an [int]. *)
Definition returns {X} (e : call X) : bool :=
  match e with undefined => false | _ => true end.

Definition responsive {S} (h : engine S) : Prop :=
  forall X (e : call X) (s : S), returns e = true -> is_Some (h X e s).

Definition int_backends {S} (h : engine S) : Prop :=
  forall sched (s s' : S) (n : Z),
    h _ (ggml_backend_sched_get_n_backends sched) s = Some (n, s') ->
    n <= CInt.INT_MAX.

(** Everything written to stdout during a trace. *)
Definition stdout (tr : list event) : string :=
  foldr String.append EmptyString (omap printed tr).

End Engine.

(** ** The decoder *)

Module Decoder.
Import CInt Ggml Engine.
Local Open Scope build_scope.

(** What the build decides: the preprocessor symbols the file tests,
    and the order in which the compiler evaluates the two products that
    are the arguments of [ggml_add] at the end of [ggml_mul_mat_pad],
    which C++ leaves unspecified. *)
Record build_config := {
  GGML_USE_METAL : bool;
  GGML_USE_BLAS : bool;
  ARGS_RIGHT_TO_LEFT : bool
}.

Definition SENSEVOICE_DECODER_MAX_NODES : Z := 8.

(** Modelled from the spec: the declarations of [sense_voice_model],
    [sense_voice_vocab], [sense_voice_context] and [sense_voice_state]
    (the headers of sense-voice-decoder.cc) are not among the sources;
    the records hold the members the decoder accesses.  The vocabulary is
    "an ordered mapping from token id to token string"; indexing it with
    an id that has no entry yields the empty string. *)
Record sense_voice_model := {
  ctc_out_linear_weight : tensor_ptr;
  ctc_out_linear_bias : tensor_ptr
}.

Record sense_voice_vocab := {
  id_to_token : gmap Z string
}.

Record sense_voice_context := {
  model : sense_voice_model;
  vocab : sense_voice_vocab
}.

Record sense_voice_state := {
  t_decode_us : Z;
  encoder_out : tensor_ptr;
  sched : ggml_backend_sched_t;        (* sched_decode.sched *)
  ids : list Z
}.

Definition newline : string := String (Ascii.ascii_of_nat 10) EmptyString.

Definition token_of (v : sense_voice_vocab) (id : Z) : string :=
  default EmptyString (id_to_token v !! id).

Section WithConfig.
Variable cfg : build_config.

(** *** ggml_mul_mat_pad *)

Definition n_pad_req : Z := 8.

Definition ggml_mul_mat_pad (x y : tensor_ptr) (pad : Z) : build tensor_ptr :=
  let* tx := deref x in
  let* ty := deref y in
  let* r := lift (c_mod (d0 (ne tx)) pad) in
  let* q := lift (c_div (d0 (ne tx)) pad) in
  if (r =? 0) || (q <? n_pad_req) then ggml_mul_mat x y
  else
    let* x_0 := ggml_view_3d x (wrap_int64 (q * pad)) (d1 (ne tx)) (d2 (ne tx))
                  (d1 (nb tx)) (d2 (nb tx)) 0 in
    let* tx_0 := deref x_0 in
    let* x_1 := ggml_view_3d x r (d1 (ne tx)) (d2 (ne tx))
                  (d1 (nb tx)) (d2 (nb tx))
                  (wrap_size_t (d0 (ne tx_0) * d0 (nb tx_0))) in
    let* qy := lift (c_div (d0 (ne ty)) pad) in
    let* y_0 := ggml_view_3d y (wrap_int64 (qy * pad)) (d1 (ne ty)) (d2 (ne ty))
                  (d1 (nb ty)) (d2 (nb ty)) 0 in
    let* ty_0 := deref y_0 in
    let* ry := lift (c_mod (d0 (ne ty)) pad) in
    let* y_1 := ggml_view_3d y ry (d1 (ne ty)) (d2 (ne ty))
                  (d1 (nb ty)) (d2 (nb ty))
                  (wrap_size_t (d0 (ne ty_0) * d0 (nb ty_0))) in
    if ARGS_RIGHT_TO_LEFT cfg then
      let* z_1 := ggml_mul_mat x_1 y_1 in
      let* z_0 := ggml_mul_mat x_0 y_0 in
      ggml_add z_0 z_1
    else
      let* z_0 := ggml_mul_mat x_0 y_0 in
      let* z_1 := ggml_mul_mat x_1 y_1 in
      ggml_add z_0 z_1.

(** After [#define ggml_mul_mat ggml_mul_mat_pad] (Metal builds) the
    name denotes the padded product with its default [pad = 32]. *)
Definition ggml_mul_mat_macro (a b : tensor_ptr) : build tensor_ptr :=
  if GGML_USE_METAL cfg then ggml_mul_mat_pad a b 32 else ggml_mul_mat a b.

(** *** sense_voice_build_graph_ctc_decoder *)

Definition sense_voice_build_graph_ctc_decoder
    (ctx : sense_voice_context) (state : sense_voice_state)
    : build ggml_cgraph :=
  let* gf := ggml_new_graph_custom SENSEVOICE_DECODER_MAX_NODES false in
  let* st_enc := deref (encoder_out state) in
  let* encoder_out := ggml_new_tensor_2d (type st_enc)
                        (d0 (ne st_enc)) (d1 (ne st_enc)) in
  ggml_set_name encoder_out "encoder_out" ;;
  ggml_set_input encoder_out ;;
  let* cur := ggml_mul_mat_macro (ctc_out_linear_weight (model ctx)) encoder_out in
  let* cur := ggml_add cur (ctc_out_linear_bias (model ctx)) in
  let* probs := ggml_soft_max cur in
  let* argmax_logit := ggml_argmax probs in
  ggml_set_output probs ;;
  ggml_set_output argmax_logit ;;
  ggml_build_forward_expand gf argmax_logit.

Local Close Scope build_scope.

(** *** ggml_graph_compute_helper *)

Definition when (b : bool) (p : proc unit) : proc unit :=
  if b then p else Ret tt.

Definition configure_backend (backend : ggml_backend_t) (n_threads : Z)
    : proc unit :=
  is_cpu ← do (ggml_backend_is_cpu backend);
  when is_cpu (do (ggml_backend_cpu_set_n_threads backend n_threads));;
  when (GGML_USE_BLAS cfg)
    (is_blas ← do (ggml_backend_is_blas backend);
     when is_blas (do (ggml_backend_blas_set_n_threads backend n_threads)));;
  when (GGML_USE_METAL cfg)
    (is_metal ← do (ggml_backend_is_metal backend);
     when is_metal (do (ggml_backend_metal_set_n_cb backend n_threads))).

(** One round of
    [for (int i = 0; i < ggml_backend_sched_get_n_backends(sched); ++i)]:
    the bound is read again before every round; [next] is the rest of
    the loop. *)
Definition configure_round (sched : ggml_backend_sched_t) (n_threads : Z)
    (next : Z -> proc unit) (i : Z) : proc unit :=
  n ← do (ggml_backend_sched_get_n_backends sched);
  if i <? n then
    backend ← do (ggml_backend_sched_get_backend sched i);
    configure_backend backend n_threads;;
    next (i + 1)
  else Ret tt.

(** [rounds p round next]: at most [p] rounds, then [next]. *)
Fixpoint rounds (p : positive) (round : (Z -> proc unit) -> Z -> proc unit)
    (next : Z -> proc unit) (i : Z) {struct p} : proc unit :=
  match p with
  | xH => round next i
  | xO p' => rounds p' round (rounds p' round next) i
  | xI p' => round (rounds p' round (rounds p' round next)) i
  end.

(** [i] is an [int]: the test [i < n] holds for at most [INT_MAX]
    values of [i], so the loop ends within [INT_MAX + 1] rounds;
    incrementing [i] beyond is undefined. *)
Definition configure_backends (sched : ggml_backend_sched_t) (n_threads : Z)
    : proc unit :=
  rounds (Z.to_pos (INT_MAX + 1)) (configure_round sched n_threads)
    (fun _ => stop) 0.

Definition ggml_graph_compute_helper (sched : ggml_backend_sched_t)
    (graph : ggml_cgraph) (n_threads : Z) : proc bool :=
  configure_backends sched n_threads;;
  status ← do (ggml_backend_sched_graph_compute sched graph);
  let t := bool_decide (status = GGML_STATUS_SUCCESS) in
  do (ggml_backend_sched_reset sched);;
  Ret t.

(** *** sense_voice_decode_internal *)

Definition set_ids (l : list Z) (s : sense_voice_state) : sense_voice_state :=
  {| t_decode_us := t_decode_us s; encoder_out := encoder_out s;
     sched := sched s; ids := l |}.

Definition add_t_decode_us (d : Z) (s : sense_voice_state) : sense_voice_state :=
  {| t_decode_us := wrap_int64 (t_decode_us s + d);
     encoder_out := encoder_out s; sched := sched s; ids := ids s |}.

(** [for (int id : state.ids) if (id != 0) printf("%s", ...)] *)
Fixpoint print_tokens (v : sense_voice_vocab) (l : list Z) : proc unit :=
  match l with
  | [] => Ret tt
  | id :: l' =>
      when (negb (id =? 0)) (do (printf (token_of v id)));;
      print_tokens v l'
  end.

(** [tensors] holds the tensor objects that [ctx] and [state] point to. *)
Definition sense_voice_decode_internal (tensors : ggml_context)
    (ctx : sense_voice_context) (state : sense_voice_state) (n_threads : Z)
    : proc (bool * sense_voice_state) :=
  t_start_us ← do ggml_time_us;
  match sense_voice_build_graph_ctc_decoder ctx state tensors with
  | None => stop
  | Some (gf, ctx0) =>
      allocated ← do (ggml_backend_sched_alloc_graph (sched state) gf);
      if negb allocated then Ret (false, state)
      else
        match ggml_graph_get_tensor ctx0 gf "encoder_out" with
        | None => stop
        | Some encoder_out_p =>
            match ctx0 !! encoder_out_p, ctx0 !! encoder_out state with
            | Some t_in, Some t_enc =>
                do (ggml_backend_tensor_set encoder_out_p (data t_enc) 0
                      (wrap_size_t (ggml_nelements t_in * sizeof_float)));;
                computed ← ggml_graph_compute_helper (sched state) gf n_threads;
                if negb computed then Ret (false, state)
                else
                  match last (nodes gf) with
                  | None => stop
                  | Some argmax_logit =>
                      match ctx0 !! argmax_logit with
                      | None => stop
                      | Some t_out =>
                          arr ← do (host_ints argmax_logit);
                          let state := set_ids (arr <$> seqZ 0 (d0 (ne t_out))) state in
                          print_tokens (vocab ctx) (ids state);;
                          do (printf newline);;
                          t_end_us ← do ggml_time_us;
                          Ret (true,
                               add_t_decode_us (wrap_int64 (t_end_us - t_start_us))
                                 state)
                      end
                  end
            | _, _ => stop
            end
        end
  end.

End WithConfig.

End Decoder.

(** ** The tensor objects the construction functions append *)

Module Shapes.
Import CInt Ggml.

Definition mul_mat_tensor (a b : tensor_ptr) (ta tb : ggml_tensor) : ggml_tensor :=
  set_op GGML_OP_MUL_MAT [a; b]
    (new_tensor GGML_TYPE_F32
       (Dim4 (d1 (ne ta)) (d1 (ne tb)) (d2 (ne tb)) (d3 (ne tb))) None 0 0).

Definition add_tensor (a b : tensor_ptr) (ta : ggml_tensor) : ggml_tensor :=
  set_op GGML_OP_ADD [a; b] (new_tensor (type ta) (ne ta) None 0 0).

Definition soft_max_tensor (a : tensor_ptr) (ta : ggml_tensor) : ggml_tensor :=
  set_op GGML_OP_SOFT_MAX [a] (new_tensor (type ta) (ne ta) None 0 0).

Definition argmax_tensor (a : tensor_ptr) (ta : ggml_tensor) : ggml_tensor :=
  set_op GGML_OP_ARGMAX [a]
    (new_tensor GGML_TYPE_I32 (Dim4 (d1 (ne ta)) 1 1 1) None 0 0).

(** Base tensor, offset and data pointer of a view of [a] at [offset]. *)
Definition view_base (ctx : ggml_context) (a : tensor_ptr) (ta : ggml_tensor)
    (offset : Z) : option (tensor_ptr * Z * Z) :=
  match view_src ta with
  | Some v' =>
      match ctx !! v' with
      | Some tv' => Some (v', wrap_size_t (offset + view_offs ta), data tv')
      | None => None
      end
  | None => Some (a, offset, data ta)
  end.

Definition view_tensor (a : tensor_ptr) (ta : ggml_tensor)
    (ne0 ne1 ne2 nb1 nb2 : Z) (vs : tensor_ptr) (vo dat : Z) : ggml_tensor :=
  let t := new_tensor (type ta) (Dim4 ne0 ne1 ne2 1) (Some vs) vo dat in
  set_nb (Dim4 (d0 (nb t)) nb1 nb2 (nb2 * ne2))
    (set_op GGML_OP_VIEW [a] (set_name (ggml_name (name ta +:+ " (view)")) t)).

(** The five tensor objects of the decoder graph, created after the [n]
    objects that exist before: the input, the projection, the bias sum,
    the soft-max and the arg-max.  [w] and [b] point to the projection
    weight and bias, [tw] is the weight and [te] the encoder output of
    the session. *)
Definition pipeline_in (te : ggml_tensor) : ggml_tensor :=
  set_input (set_name (ggml_name "encoder_out")
    (new_tensor (type te) (Dim4 (d0 (ne te)) (d1 (ne te)) 1 1) None 0 0)).
Definition pipeline_mul_mat (w n : tensor_ptr) (tw te : ggml_tensor) : ggml_tensor :=
  mul_mat_tensor w n tw (pipeline_in te).
Definition pipeline_add (w b n : tensor_ptr) (tw te : ggml_tensor) : ggml_tensor :=
  add_tensor (n + 1)%nat b (pipeline_mul_mat w n tw te).
Definition pipeline_soft_max (w b n : tensor_ptr) (tw te : ggml_tensor) : ggml_tensor :=
  set_output (soft_max_tensor (n + 2)%nat (pipeline_add w b n tw te)).
Definition pipeline_argmax (w b n : tensor_ptr) (tw te : ggml_tensor) : ggml_tensor :=
  set_output (argmax_tensor (n + 3)%nat
                (soft_max_tensor (n + 2)%nat (pipeline_add w b n tw te))).

Definition pipeline (w b n : tensor_ptr) (tw te : ggml_tensor) : list ggml_tensor :=
  [pipeline_in te; pipeline_mul_mat w n tw te; pipeline_add w b n tw te;
   pipeline_soft_max w b n tw te; pipeline_argmax w b n tw te].

(** The shapes for which the construction of the pipeline passes the
    assertions of ggml. *)
Definition pipeline_shapes_ok (w n : tensor_ptr) (tw tb te : ggml_tensor) : bool :=
  ggml_can_mul_mat tw (pipeline_in te)
  && negb (ggml_is_transposed tw)
  && ggml_can_repeat tb (pipeline_mul_mat w n tw te).

(** The test that sends [ggml_mul_mat_pad] to the direct product. *)
Definition takes_fallback (n0 pad : Z) : bool :=
  (Z.rem n0 pad =? 0) || (Z.quot n0 pad <? 8).

(** The inputs for which the builder returns a graph: the shapes fit,
    and in a Metal build the projection is not split. *)
Definition builds (cfg : Decoder.build_config) (w n : tensor_ptr)
    (tw tb te : ggml_tensor) : bool :=
  pipeline_shapes_ok w n tw tb te
  && (negb (Decoder.GGML_USE_METAL cfg) || takes_fallback (d0 (ne tw)) 32).

(** The graph of the four-stage pipeline over the weight [w] and the
    bias [b]: projection, bias sum, soft-max, arg-max, in this order,
    each computed from the one before, the last two marked as outputs. *)
Definition ctc_pipeline_graph (w b : tensor_ptr)
    (ctx0 : list ggml_tensor) (gf : ggml_cgraph) : Prop :=
  exists inp cur1 cur2 probs ids t_inp t1 t2 tp ti,
    nodes gf = [cur1; cur2; probs; ids]
    /\ ctx0 !! inp = Some t_inp /\ op t_inp = GGML_OP_NONE
    /\ name t_inp = "encoder_out" /\ flag_input t_inp = true
    /\ ctx0 !! cur1 = Some t1 /\ op t1 = GGML_OP_MUL_MAT /\ src t1 = [w; inp]
    /\ ctx0 !! cur2 = Some t2 /\ op t2 = GGML_OP_ADD /\ src t2 = [cur1; b]
    /\ ctx0 !! probs = Some tp /\ op tp = GGML_OP_SOFT_MAX /\ src tp = [cur2]
    /\ flag_output tp = true
    /\ ctx0 !! ids = Some ti /\ op ti = GGML_OP_ARGMAX /\ src ti = [probs]
    /\ flag_output ti = true.

(** The arrays that [ggml_visit_parents] fills depend on the operations
    and the sources of the tensors only: this is the same traversal
    without the names. *)
Fixpoint visit_graph (fuel : nat) (ctx : ggml_context)
    (g : ggml_cgraph) (node : tensor_ptr) : option ggml_cgraph :=
  match fuel with
  | O => None
  | S fuel' =>
      if bool_decide (node ∈ visited g) then Some g
      else
        match ctx !! node with
        | None => None
        | Some t =>
            match foldl (fun og s =>
                           match og with
                           | Some g' => visit_graph fuel' ctx g' s
                           | None => None
                           end)
                        (Some (mark_visited node g)) (src t) with
            | None => None
            | Some g' =>
                if decide (op t = GGML_OP_NONE) then
                  if n_leafs g' <? size g' then Some (push_leaf node g') else None
                else
                  if n_nodes g' <? size g' then Some (push_node node g') else None
            end
        end
  end.

(** The names graph expansion gives: "leaf_%d" and "node_%d". *)
Definition slot_name (s : string) : Prop :=
  exists k : Z, s = ggml_name ("leaf_" +:+ pretty k)
                \/ s = ggml_name ("node_" +:+ pretty k).

(** What graph expansion does to a tensor object: nothing, or it gives
    a tensor that has no name the name of a slot. *)
Definition named_by_graph (t t' : ggml_tensor) : Prop :=
  t' = t \/ (name t = EmptyString /\ exists s, slot_name s /\ t' = set_name s t).

(** A parameter tensor: it holds data and is the result of no operation. *)
Definition is_param (t : ggml_tensor) : Prop :=
  op t = GGML_OP_NONE /\ src t = [].

(** An operand of the padded product: three-dimensional, with rows of
    adjacent elements, and with extents and byte offsets that fit the
    64-bit types that carry them. *)
Definition matmul_operand (t : ggml_tensor) : Prop :=
  d3 (ne t) = 1
  /\ 0 < d2 (ne t)
  /\ d0 (nb t) = ggml_type_size (type t)
  /\ 0 <= d0 (ne t) < 2 ^ 63
  /\ 0 <= view_offs t
  /\ view_offs t + d0 (ne t) * d0 (nb t) < 2 ^ 64.

(** The split of a product, as it is found in the context once
    [ggml_mul_mat_pad] has returned. *)
Section Split.
Variable alloc : tensor_ptr -> Z.
Variable mem : memory.

(** The tensor at [p] is a view of [a] that holds the elements
    [first .. first + len - 1] of every row of [a]. *)
Definition row_view (ctx : ggml_context) (a : tensor_ptr) (ta : ggml_tensor)
    (va : index -> Z) (first len : Z)
    (p : tensor_ptr) (tp : ggml_tensor) (vp : index -> Z) : Prop :=
  ctx !! p = Some tp
  /\ op tp = GGML_OP_VIEW /\ src tp = [a]
  /\ type tp = type ta
  /\ ne tp = Dim4 len (d1 (ne ta)) (d2 (ne ta)) 1
  /\ tensor_value alloc mem (length ctx) ctx p = Some vp
  /\ forall k i1 i2,
       0 <= k < len -> 0 <= i1 < d1 (ne ta) -> 0 <= i2 < d2 (ne ta) ->
       vp (k, i1, i2, 0) = va (first + k, i1, i2, 0).

(** The tensor at [p] is the product of the tensors at [a] and [b]. *)
Definition product_of (ctx : ggml_context) (a b : tensor_ptr)
    (ta tb : ggml_tensor) (va vb : index -> Z)
    (p : tensor_ptr) (tp : ggml_tensor) : Prop :=
  ctx !! p = Some tp
  /\ op tp = GGML_OP_MUL_MAT /\ src tp = [a; b]
  /\ tensor_value alloc mem (length ctx) ctx p = Some (mul_mat_value ta tb va vb).

(** The tensor [tz] with value [vz] is the sum of two products: that of
    the first [(ne0 / pad) * pad] elements of the rows of [x] and of
    [y], and that of the [ne0 % pad] elements that remain. *)
Definition split_product (ctx : ggml_context) (x y : tensor_ptr)
    (tx ty : ggml_tensor) (vx vy : index -> Z) (pad : Z)
    (tz : ggml_tensor) (vz : index -> Z) : Prop :=
  let n0 := (Z.quot (d0 (ne tx)) pad) * pad in
  let n1 := Z.rem (d0 (ne tx)) pad in
  exists x_0 x_1 y_0 y_1 z_0 z_1 tx_0 tx_1 ty_0 ty_1 tz_0 tz_1 vx_0 vx_1 vy_0 vy_1,
    row_view ctx x tx vx 0 n0 x_0 tx_0 vx_0
    /\ row_view ctx x tx vx n0 n1 x_1 tx_1 vx_1
    /\ row_view ctx y ty vy 0 n0 y_0 ty_0 vy_0
    /\ row_view ctx y ty vy n0 n1 y_1 ty_1 vy_1
    /\ product_of ctx x_0 y_0 tx_0 ty_0 vx_0 vy_0 z_0 tz_0
    /\ product_of ctx x_1 y_1 tx_1 ty_1 vx_1 vy_1 z_1 tz_1
    /\ op tz = GGML_OP_ADD /\ src tz = [z_0; z_1]
    /\ forall i, in_bounds (ne tz) i ->
         vz i = mul_mat_value tx_0 ty_0 vx_0 vy_0 i
                + mul_mat_value tx_1 ty_1 vx_1 vy_1 i.
End Split.

End Shapes.

(** ** The runs of a decode call *)

Module Runs.
Import CInt Ggml Engine Decoder.

(** The [printf] calls of the loop over the ids. *)
Definition token_events (v : sense_voice_vocab) (l : list Z) : list event :=
  flat_map (fun id => if id =? 0 then [] else [EvPrintf (token_of v id)]) l.

(** The calls up to the end of graph execution. *)
Definition trace_until_reset (sched : ggml_backend_sched_t) (gf : ggml_cgraph)
    (t0 : Z) (dst : tensor_ptr) (data size : Z) (pre : list event)
    (status : ggml_status) : list event :=
  [EvTimeUs t0; EvSchedAllocGraph sched gf true; EvTensorSet dst data 0 size]
  ++ pre ++ [EvSchedGraphCompute sched gf status; EvSchedReset sched].

(** The three ways a decode call over the graph [gf] returns: graph
    allocation fails; graph execution fails; or both succeed, the ids
    are read, printed, and the elapsed time is accounted. *)
Inductive decode_run (ctx : sense_voice_context) (state : sense_voice_state)
    (gf : ggml_cgraph) (ctx0 : list ggml_tensor)
    : list event -> bool * sense_voice_state -> Prop :=
| run_alloc_failed t0 :
    decode_run ctx state gf ctx0
      [EvTimeUs t0; EvSchedAllocGraph (sched state) gf false]
      (false, state)
| run_compute_failed t0 dst t_in t_enc pre status :
    ggml_graph_get_tensor ctx0 gf "encoder_out" = Some dst ->
    ctx0 !! dst = Some t_in ->
    ctx0 !! encoder_out state = Some t_enc ->
    forallb is_config pre = true ->
    status <> GGML_STATUS_SUCCESS ->
    decode_run ctx state gf ctx0
      (trace_until_reset (sched state) gf t0 dst (data t_enc)
         (wrap_size_t (ggml_nelements t_in * sizeof_float)) pre status)
      (false, state)
| run_success t0 dst t_in t_enc pre argmax_logit t_out arr t1 :
    ggml_graph_get_tensor ctx0 gf "encoder_out" = Some dst ->
    ctx0 !! dst = Some t_in ->
    ctx0 !! encoder_out state = Some t_enc ->
    forallb is_config pre = true ->
    last (nodes gf) = Some argmax_logit ->
    ctx0 !! argmax_logit = Some t_out ->
    decode_run ctx state gf ctx0
      (trace_until_reset (sched state) gf t0 dst (data t_enc)
         (wrap_size_t (ggml_nelements t_in * sizeof_float)) pre
         GGML_STATUS_SUCCESS
       ++ [EvHostInts argmax_logit arr]
       ++ token_events (vocab ctx) (arr <$> seqZ 0 (d0 (ne t_out)))
       ++ [EvPrintf newline; EvTimeUs t1])
      (true,
       add_t_decode_us (wrap_int64 (t1 - t0))
         (set_ids (arr <$> seqZ 0 (d0 (ne t_out))) state)).

(** The text of a sequence of ids as the specification words it: the
    tokens of the ids other than the blank 0, in order, concatenated. *)
Definition spec_rendered_text (v : sense_voice_vocab) (l : list Z) : string :=
  foldr String.append EmptyString
    (token_of v <$> filter (fun id => id <> 0) l).




(** What a trace shows of a failed stage. *)
Definition alloc_failed (tr : list event) : Prop :=
  false ∈ omap alloc_answer tr.
Definition compute_failed (tr : list event) : Prop :=
  exists st, st ∈ omap compute_answer tr /\ st <> GGML_STATUS_SUCCESS.

Definition timer_strictly_increases (state state' : sense_voice_state) : Prop :=
  t_decode_us state < t_decode_us state'.

End Runs.

(** ** A reference engine and reference inputs *)

Module Examples.
Import CInt Ggml Engine Decoder.

(** A scripted engine: a scheduler with two backends, of which backend 0
    is the CPU and backend 1 the GPU; graph allocation and execution
    answer what the script says; executing a graph takes 5000
    microseconds. *)
Record script := {
  now : Z;
  alloc_ok : bool;
  status : ggml_status;
  out : Z -> Z
}.

Definition elapse (d : Z) (s : script) : script :=
  {| now := now s + d; alloc_ok := alloc_ok s; status := status s; out := out s |}.

Definition scripted : engine script := fun X e =>
  match e in call X return script -> option (X * script) with
  | ggml_time_us => fun s => Some (now s, s)
  | ggml_backend_sched_alloc_graph _ _ => fun s => Some (alloc_ok s, s)
  | ggml_backend_tensor_set _ _ _ _ => fun s => Some (tt, s)
  | ggml_backend_sched_get_n_backends _ => fun s => Some (2, s)
  | ggml_backend_sched_get_backend _ i => fun s => Some (i, s)
  | ggml_backend_is_cpu b => fun s => Some (b =? 0, s)
  | ggml_backend_cpu_set_n_threads _ _ => fun s => Some (tt, s)
  | ggml_backend_is_blas _ => fun s => Some (false, s)
  | ggml_backend_blas_set_n_threads _ _ => fun s => Some (tt, s)
  | ggml_backend_is_metal b => fun s => Some (b =? 1, s)
  | ggml_backend_metal_set_n_cb _ _ => fun s => Some (tt, s)
  | ggml_backend_sched_graph_compute _ _ => fun s => Some (status s, elapse 5000 s)
  | ggml_backend_sched_reset _ => fun s => Some (tt, s)
  | host_ints _ => fun s => Some (out s, s)
  | printf _ => fun s => Some (tt, s)
  | undefined => fun _ => None
  end.

Definition default_build : build_config :=
  {| GGML_USE_METAL := false; GGML_USE_BLAS := false;
     ARGS_RIGHT_TO_LEFT := false |}.
Definition metal_build : build_config :=
  {| GGML_USE_METAL := true; GGML_USE_BLAS := false;
     ARGS_RIGHT_TO_LEFT := false |}.

(** A parameter or input tensor: dense, with data at [addr]. *)
Definition leaf (ty : ggml_type) (n0 n1 : Z) (addr : Z) (nm : string) : ggml_tensor :=
  {| type := ty; ne := Dim4 n0 n1 1 1;
     nb := Dim4 (ggml_type_size ty) (ggml_type_size ty * n0)
                (ggml_type_size ty * n0 * n1) (ggml_type_size ty * n0 * n1);
     op := GGML_OP_NONE; flag_input := false; flag_output := false;
     src := []; view_src := None; view_offs := 0; data := addr; name := nm |}.

(** A model with hidden size 4 and a vocabulary of 8 ids, and a session
    holding 5 frames of encoder output. *)
Definition example_tensors : list ggml_tensor :=
  [leaf GGML_TYPE_F32 4 8 4096 "ctc.ctc_lo.weight";
   leaf GGML_TYPE_F32 8 1 8192 "ctc.ctc_lo.bias";
   leaf GGML_TYPE_F32 4 5 12288 "encoder_out_session"].

Definition example_vocab : sense_voice_vocab :=
  {| id_to_token := {[ 5 := "A"; 7 := "B" ]} |}.

Definition example_ctx : sense_voice_context :=
  {| model := {| ctc_out_linear_weight := 0%nat; ctc_out_linear_bias := 1%nat |};
     vocab := example_vocab |}.

Definition example_state : sense_voice_state :=
  {| t_decode_us := 10; encoder_out := 2%nat; sched := 7; ids := [3; 3] |}.

(** The ids of the filtering example, as the array the host reads. *)
Definition example_ids : list Z := [0; 5; 0; 7; 0].
Definition example_out (i : Z) : Z := nth (Z.to_nat i) example_ids 0.

Definition script_ok : script :=
  {| now := 100; alloc_ok := true; status := GGML_STATUS_SUCCESS;
     out := example_out |}.
Definition script_alloc_fails : script :=
  {| now := 100; alloc_ok := false; status := GGML_STATUS_SUCCESS;
     out := example_out |}.
Definition script_compute_fails : script :=
  {| now := 100; alloc_ok := true; status := GGML_STATUS_FAILED;
     out := example_out |}.

Definition example_graph : ggml_cgraph :=
  {| size := 8;
     nodes := [4; 5; 6; 7]%nat;
     leafs := [0; 3; 1]%nat;
     visited := [1; 3; 0; 4; 5; 6; 7]%nat |}.

Definition example_config : list event :=
  [EvGetNBackends 7 2; EvGetBackend 7 0 0; EvIsCpu 0 true; EvCpuSetNThreads 0 4;
   EvGetNBackends 7 2; EvGetBackend 7 1 1; EvIsCpu 1 false;
   EvGetNBackends 7 2].

Definition trace_alloc_fails : list event :=
  [EvTimeUs 100; EvSchedAllocGraph 7 example_graph false].

Definition trace_compute_fails : list event :=
  [EvTimeUs 100; EvSchedAllocGraph 7 example_graph true;
   EvTensorSet 3 12288 0 80]
  ++ example_config
  ++ [EvSchedGraphCompute 7 example_graph GGML_STATUS_FAILED; EvSchedReset 7].

Definition trace_ok : list event :=
  [EvTimeUs 100; EvSchedAllocGraph 7 example_graph true;
   EvTensorSet 3 12288 0 80]
  ++ example_config
  ++ [EvSchedGraphCompute 7 example_graph GGML_STATUS_SUCCESS; EvSchedReset 7;
      EvHostInts 7 example_out;
      EvPrintf "A"; EvPrintf "B"; EvPrintf newline; EvTimeUs 5100].

Definition state_ok : sense_voice_state :=
  {| t_decode_us := 5010; encoder_out := 2%nat; sched := 7; ids := example_ids |}.

(** Operands of a product: [x] with 300 and [y] with 300 elements per
    row (nine pads of 32 and a remainder of 12), and a pair with 64. *)
Definition split_operands : list ggml_tensor :=
  [leaf GGML_TYPE_F32 300 2 4096 "x"; leaf GGML_TYPE_F32 300 3 40960 "y"].
Definition aligned_operands : list ggml_tensor :=
  [leaf GGML_TYPE_F32 64 2 4096 "x"; leaf GGML_TYPE_F32 64 3 40960 "y"].

(** A memory in which every element holds its own address. *)
Definition example_mem : memory := fun a => a.
Definition example_alloc : tensor_ptr -> Z := fun _ => 0.


(** A vocabulary with a token for each of the 8 ids. *)
Definition full_vocab : sense_voice_vocab :=
  {| id_to_token :=
       {[ 0 := "<blank>"; 1 := "a"; 2 := "b"; 3 := "c"; 4 := "d";
          5 := "A"; 6 := "e"; 7 := "B" ]} |}.

Definition full_ctx : sense_voice_context :=
  {| model := {| ctc_out_linear_weight := 0%nat; ctc_out_linear_bias := 1%nat |};
     vocab := full_vocab |}.

End Examples.

(** ** The calls of the configuration loop *)

Module Traces.
Import Ggml Engine Decoder.

(** What one round of the loop over the backends learns from the engine:
    the backend count read before the round, the backend at the index of
    the round, and the kinds the backend reports.  [r_blas] and
    [r_metal] matter only in a build that asks. *)
Record round := {
  r_count : Z;
  r_backend : ggml_backend_t;
  r_cpu : bool;
  r_blas : bool;
  r_metal : bool
}.

(** The calls of the loop body for the backend of a round. *)
Definition backend_events (cfg : build_config) (n_threads : Z) (rd : round)
    : list event :=
  let b := r_backend rd in
  (EvIsCpu b (r_cpu rd)
   :: (if r_cpu rd then [EvCpuSetNThreads b n_threads] else []))
  ++ (if GGML_USE_BLAS cfg then
        EvIsBlas b (r_blas rd)
        :: (if r_blas rd then [EvBlasSetNThreads b n_threads] else [])
      else [])
  ++ (if GGML_USE_METAL cfg then
        EvIsMetal b (r_metal rd)
        :: (if r_metal rd then [EvMetalSetNCb b n_threads] else [])
      else []).

Definition round_events (cfg : build_config) (sched : ggml_backend_sched_t)
    (n_threads : Z) (i : Z) (rd : round) : list event :=
  EvGetNBackends sched (r_count rd) :: EvGetBackend sched i (r_backend rd)
  :: backend_events cfg n_threads rd.

(** The calls of consecutive rounds, the first at index [i]. *)
Fixpoint loop_events (cfg : build_config) (sched : ggml_backend_sched_t)
    (n_threads : Z) (i : Z) (rds : list round) : list event :=
  match rds with
  | [] => []
  | rd :: rds' =>
      round_events cfg sched n_threads i rd
      ++ loop_events cfg sched n_threads (i + 1) rds'
  end.

(** Each round ran because its index was below the count it read. *)
Fixpoint counts_ok (i : Z) (rds : list round) : Prop :=
  match rds with
  | [] => True
  | rd :: rds' => i < r_count rd /\ counts_ok (i + 1) rds'
  end.

(** The index passed to [ggml_backend_sched_get_backend], and the count
    answered by [ggml_backend_sched_get_n_backends]. *)
Definition backend_index (ev : event) : option Z :=
  match ev with EvGetBackend _ i _ => Some i | _ => None end.
Definition backend_count (ev : event) : option Z :=
  match ev with EvGetNBackends _ n => Some n | _ => None end.

(** The tensor whose data the host reads as an array of ints, with the
    array read. *)
Definition host_read (ev : event) : option (tensor_ptr * (Z -> Z)) :=
  match ev with EvHostInts p arr => Some (p, arr) | _ => None end.

End Traces.

(** ** Further reference inputs *)

Module Scenarios.
Import CInt Ggml Engine Decoder Runs Examples.

(** Operands of a product whose second operand has a fourth extent of
    2: [x] is 300 x 2, [y] is 300 x 3 x 1 x 2. *)
Definition batched_y : ggml_tensor :=
  {| type := GGML_TYPE_F32; ne := Dim4 300 3 1 2;
     nb := Dim4 4 1200 3600 3600;
     op := GGML_OP_NONE; flag_input := false; flag_output := false;
     src := []; view_src := None; view_offs := 0; data := 40960;
     name := "y" |}.

Definition batched_operands : list ggml_tensor :=
  [leaf GGML_TYPE_F32 300 2 4096 "x"; batched_y].

(** A model with hidden size 300 (nine pads of 32 and a remainder of 12)
    and a vocabulary of 8 ids, with 5 frames of encoder output. *)
Definition wide_tensors : list ggml_tensor :=
  [leaf GGML_TYPE_F32 300 8 4096 "ctc.ctc_lo.weight";
   leaf GGML_TYPE_F32 8 1 16384 "ctc.ctc_lo.bias";
   leaf GGML_TYPE_F32 300 5 20480 "encoder_out_session"].


(** A model whose projection weight carries the name of the graph
    input. *)
Definition collision_tensors : list ggml_tensor :=
  [leaf GGML_TYPE_F32 4 8 4096 "encoder_out";
   leaf GGML_TYPE_F32 8 1 8192 "ctc.ctc_lo.bias";
   leaf GGML_TYPE_F32 4 5 12288 "encoder_out_session"].

(** The calls of the compute helper in a Metal build under the scripted
    engine: backend 0 is the CPU, backend 1 the GPU. *)
Definition helper_trace_metal : list event :=
  [EvGetNBackends 7 2; EvGetBackend 7 0 0;
   EvIsCpu 0 true; EvCpuSetNThreads 0 4; EvIsMetal 0 false;
   EvGetNBackends 7 2; EvGetBackend 7 1 1;
   EvIsCpu 1 false; EvIsMetal 1 true; EvMetalSetNCb 1 4;
   EvGetNBackends 7 2;
   EvSchedGraphCompute 7 example_graph GGML_STATUS_SUCCESS; EvSchedReset 7].

(** The calls of a successful decode call on [collision_tensors]. *)
Definition trace_collision : list event :=
  [EvTimeUs 100; EvSchedAllocGraph 7 example_graph true;
   EvTensorSet 0 12288 0 128]
  ++ example_config
  ++ [EvSchedGraphCompute 7 example_graph GGML_STATUS_SUCCESS; EvSchedReset 7;
      EvHostInts 7 example_out;
      EvPrintf "A"; EvPrintf "B"; EvPrintf newline; EvTimeUs 5100].


(** A session whose encoder output holds 32-bit integers. *)
Definition int_tensors : list ggml_tensor :=
  [leaf GGML_TYPE_F32 4 8 4096 "ctc.ctc_lo.weight";
   leaf GGML_TYPE_F32 8 1 8192 "ctc.ctc_lo.bias";
   leaf GGML_TYPE_I32 4 5 12288 "encoder_out_session"].

(** A model whose projection weight and bias have no name. *)
Definition unnamed_tensors : list ggml_tensor :=
  [leaf GGML_TYPE_F32 4 8 4096 EmptyString;
   leaf GGML_TYPE_F32 8 1 8192 EmptyString;
   leaf GGML_TYPE_F32 4 5 12288 "encoder_out_session"].

(** The graph and the context the builder returns for the reference
    model and session. *)
Definition example_built : option (ggml_cgraph * list ggml_tensor) :=
  Eval vm_compute in
    sense_voice_build_graph_ctc_decoder default_build example_ctx example_state
      example_tensors.

Definition example_ctx0 : list ggml_tensor :=
  match example_built with Some (_, c) => c | None => [] end.

(** The same for the model whose weight and bias have no name. *)
Definition unnamed_built : option (ggml_cgraph * list ggml_tensor) :=
  Eval vm_compute in
    sense_voice_build_graph_ctc_decoder default_build example_ctx example_state
      unnamed_tensors.

Definition unnamed_ctx0 : list ggml_tensor :=
  match unnamed_built with Some (_, c) => c | None => [] end.








End Scenarios.

(** * Proofs *)

(** ** C integers *)

Module CIntFacts.
Import CInt.

Lemma wrap_int64_small z : - 2 ^ 63 <= z < 2 ^ 63 -> wrap_int64 z = z.
Proof.
  intros Hz. unfold wrap_int64.
  rewrite Z.mod_small by lia. lia.
Qed.

Lemma wrap_size_t_small z : 0 <= z < 2 ^ 64 -> wrap_size_t z = z.
Proof. intros Hz. unfold wrap_size_t. now rewrite Z.mod_small. Qed.

Lemma c_div_Some a b : b <> 0 -> c_div a b = Some (Z.quot a b).
Proof. intros Hb. unfold c_div. now destruct (decide (b = 0)). Qed.

Lemma c_mod_Some a b : b <> 0 -> c_mod a b = Some (Z.rem a b).
Proof. intros Hb. unfold c_mod. now destruct (decide (b = 0)). Qed.

End CIntFacts.

(** ** Tensor construction *)

Module GgmlFacts.
Import CInt Ggml Shapes.

Lemma lookup_new (ctx : ggml_context) (t : ggml_tensor) :
  (ctx ++ [t]) !! length ctx = Some t.
Proof. rewrite lookup_app_r by lia. now rewrite Nat.sub_diag. Qed.

Lemma lookup_old (ctx l : ggml_context) (p : tensor_ptr) (t : ggml_tensor) :
  ctx !! p = Some t -> (ctx ++ l) !! p = Some t.
Proof. intros H. now apply lookup_app_l_Some. Qed.

Lemma modify_new (ctx : ggml_context) (t : ggml_tensor) f :
  modify (length ctx) f (ctx ++ [t]) = Some (tt, ctx ++ [f t]).
Proof.
  unfold modify. rewrite lookup_new. do 2 f_equal.
  rewrite insert_app_r_alt by lia. now rewrite Nat.sub_diag.
Qed.

Lemma new_tensor_eq ty n ctx :
  ggml_new_tensor_impl ty n None 0 ctx
  = Some (length ctx, ctx ++ [new_tensor ty n None 0 0]).
Proof. reflexivity. Qed.

Lemma ggml_mul_mat_eq a b ctx :
  ggml_mul_mat a b ctx =
  match ctx !! a, ctx !! b with
  | Some ta, Some tb =>
      if ggml_can_mul_mat ta tb && negb (ggml_is_transposed ta)
      then Some (length ctx, ctx ++ [mul_mat_tensor a b ta tb])
      else None
  | _, _ => None
  end.
Proof.
  unfold ggml_mul_mat, bind, deref.
  destruct (ctx !! a) as [ta|]; [|reflexivity].
  destruct (ctx !! b) as [tb|]; [|reflexivity].
  destruct (ggml_can_mul_mat ta tb); [|reflexivity].
  destruct (ggml_is_transposed ta); [reflexivity|].
  cbn [GGML_ASSERT ret negb andb]. rewrite new_tensor_eq, modify_new.
  reflexivity.
Qed.

Lemma ggml_add_eq a b ctx :
  ggml_add a b ctx =
  match ctx !! a, ctx !! b with
  | Some ta, Some tb =>
      if ggml_can_repeat tb ta
      then Some (length ctx, ctx ++ [add_tensor a b ta])
      else None
  | _, _ => None
  end.
Proof.
  unfold ggml_add, bind, deref, ggml_dup_tensor.
  destruct (ctx !! a) as [ta|]; [|reflexivity].
  destruct (ctx !! b) as [tb|]; [|reflexivity].
  destruct (ggml_can_repeat tb ta); [|reflexivity].
  cbn [GGML_ASSERT ret]. rewrite new_tensor_eq, modify_new.
  reflexivity.
Qed.

Lemma ggml_soft_max_eq a ctx :
  ggml_soft_max a ctx =
  match ctx !! a with
  | Some ta =>
      if ggml_is_contiguous ta
      then Some (length ctx, ctx ++ [soft_max_tensor a ta])
      else None
  | None => None
  end.
Proof.
  unfold ggml_soft_max, bind, deref, ggml_dup_tensor.
  destruct (ctx !! a) as [ta|]; [|reflexivity].
  destruct (ggml_is_contiguous ta); [|reflexivity].
  cbn [GGML_ASSERT ret]. rewrite new_tensor_eq, modify_new.
  reflexivity.
Qed.

Lemma ggml_argmax_eq a ctx :
  ggml_argmax a ctx =
  match ctx !! a with
  | Some ta =>
      if ggml_is_matrix ta
      then Some (length ctx, ctx ++ [argmax_tensor a ta])
      else None
  | None => None
  end.
Proof.
  unfold ggml_argmax, bind, deref, ggml_new_tensor_1d.
  destruct (ctx !! a) as [ta|]; [|reflexivity].
  destruct (ggml_is_matrix ta); [|reflexivity].
  cbn [GGML_ASSERT ret]. rewrite new_tensor_eq, modify_new.
  reflexivity.
Qed.

Lemma ggml_view_3d_eq a ne0 ne1 ne2 nb1 nb2 offset ctx :
  ggml_view_3d a ne0 ne1 ne2 nb1 nb2 offset ctx =
  match ctx !! a with
  | Some ta =>
      match view_base ctx a ta offset with
      | Some (vs, vo, dat) =>
          Some (length ctx,
                ctx ++ [view_tensor a ta ne0 ne1 ne2 nb1 nb2 vs vo dat])
      | None => None
      end
  | None => None
  end.
Proof.
  unfold ggml_view_3d, ggml_new_tensor_impl, view_base, bind, deref.
  destruct (ctx !! a) as [ta|] eqn:Ha; [|reflexivity].
  rewrite Ha.
  destruct (view_src ta) as [v'|].
  - destruct (ctx !! v') as [tv'|]; [|reflexivity].
    cbn [ret]. rewrite modify_new. reflexivity.
  - cbn [ret]. rewrite modify_new. reflexivity.
Qed.

End GgmlFacts.

(** ** Operator semantics *)

Module SemanticsFacts.
Import CInt CIntFacts Ggml Shapes GgmlFacts.

Section WithMemory.
Variable alloc : tensor_ptr -> Z.
Variable mem : memory.

Lemma base_addr_extend (ctx l : ggml_context) p a :
  base_addr alloc ctx p = Some a -> base_addr alloc (ctx ++ l) p = Some a.
Proof.
  unfold base_addr. destruct (ctx !! p) as [t|] eqn:Hp; [|discriminate].
  intros H. now rewrite (lookup_old ctx l p t Hp).
Qed.

Lemma tensor_addr_extend (ctx l : ggml_context) p t a :
  ctx !! p = Some t ->
  tensor_addr alloc ctx p t = Some a ->
  tensor_addr alloc (ctx ++ l) p t = Some a.
Proof.
  unfold tensor_addr. intros Hp.
  destruct (view_src t) as [v|].
  - destruct (base_addr alloc ctx v) as [b|] eqn:Hb; [|discriminate].
    intros H. now rewrite (base_addr_extend ctx l v b Hb).
  - apply base_addr_extend.
Qed.

Lemma tensor_value_extend (f : nat) :
  forall (ctx l : ggml_context) p v f',
    (f <= f')%nat ->
    tensor_value alloc mem f ctx p = Some v ->
    tensor_value alloc mem f' (ctx ++ l) p = Some v.
Proof.
  induction f as [|f IH]; intros ctx l p v f' Hle; [discriminate|].
  destruct f' as [|f']; [lia|].
  cbn [tensor_value].
  destruct (ctx !! p) as [t|] eqn:Hp; [|discriminate].
  rewrite (lookup_old ctx l p t Hp).
  assert (Hmem : match tensor_addr alloc ctx p t with
                 | Some a => Some (load mem a (nb t))
                 | None => None
                 end = Some v ->
                 match tensor_addr alloc (ctx ++ l) p t with
                 | Some a => Some (load mem a (nb t))
                 | None => None
                 end = Some v).
  { destruct (tensor_addr alloc ctx p t) as [a|] eqn:Ha; [|discriminate].
    now rewrite (tensor_addr_extend ctx l p t a Hp Ha). }
  destruct (op t); try discriminate; try exact Hmem.
  - (* ADD *)
    destruct (src t) as [|a [|b [|]]]; try discriminate.
    destruct (ctx !! b) as [tb|] eqn:Hb; [|discriminate].
    rewrite (lookup_old ctx l b tb Hb).
    destruct (tensor_value alloc mem f ctx a) as [va|] eqn:Hva; [|discriminate].
    destruct (tensor_value alloc mem f ctx b) as [vb|] eqn:Hvb; [|discriminate].
    rewrite (IH ctx l a va f') by (assumption || lia).
    rewrite (IH ctx l b vb f') by (assumption || lia).
    trivial.
  - (* MUL_MAT *)
    destruct (src t) as [|a [|b [|]]]; try discriminate.
    destruct (ctx !! a) as [ta|] eqn:Ha; [|discriminate].
    destruct (ctx !! b) as [tb|] eqn:Hb; [|discriminate].
    rewrite (lookup_old ctx l a ta Ha), (lookup_old ctx l b tb Hb).
    destruct (tensor_value alloc mem f ctx a) as [va|] eqn:Hva; [|discriminate].
    destruct (tensor_value alloc mem f ctx b) as [vb|] eqn:Hvb; [|discriminate].
    rewrite (IH ctx l a va f') by (assumption || lia).
    rewrite (IH ctx l b vb f') by (assumption || lia).
    trivial.
Qed.

Lemma sum_n_ext n (f g : Z -> Z) :
  (forall k, 0 <= k < Z.of_nat n -> f k = g k) -> sum_n n f = sum_n n g.
Proof.
  induction n as [|n IH]; intros H; [reflexivity|].
  cbn [sum_n]. rewrite IH, (H (Z.of_nat n)) by (intros; try apply H; lia).
  reflexivity.
Qed.

Lemma sum_n_split a b (f : Z -> Z) :
  sum_n (a + b) f = sum_n a f + sum_n b (fun k => f (Z.of_nat a + k)).
Proof.
  induction b as [|b IH].
  - rewrite Nat.add_0_r. cbn [sum_n]. lia.
  - rewrite Nat.add_succ_r. cbn [sum_n]. rewrite IH.
    rewrite Nat2Z.inj_add. lia.
Qed.
End WithMemory.
End SemanticsFacts.

(** ** The padded product *)

Module MulMatPad.
Import CInt CIntFacts Ggml Shapes GgmlFacts SemanticsFacts Decoder.

Lemma pad_fallback_eq cfg (ctx : ggml_context) (x y : tensor_ptr)
    (tx : ggml_tensor) (pad : Z) :
  ctx !! x = Some tx ->
  pad <> 0 ->
  Z.rem (d0 (ne tx)) pad = 0 \/ Z.quot (d0 (ne tx)) pad < 8 ->
  ggml_mul_mat_pad cfg x y pad ctx = ggml_mul_mat x y ctx.
Proof.
  intros Hx Hpad Hcond.
  unfold ggml_mul_mat_pad, bind, deref, lift. rewrite Hx.
  destruct (ctx !! y) as [ty|] eqn:Hy.
  - rewrite c_mod_Some, c_div_Some by assumption. cbn [ret].
    replace ((Z.rem (d0 (ne tx)) pad =? 0)
             || (Z.quot (d0 (ne tx)) pad <? n_pad_req)) with true.
    + reflexivity.
    + symmetry. apply orb_true_iff. unfold n_pad_req.
      destruct Hcond as [H|H]; [left; lia | right; lia].
  - rewrite ggml_mul_mat_eq, Hx, Hy. reflexivity.
Qed.

(** C4.  When dimension 0 of [x] is a multiple of [pad], or holds fewer
    than eight pads, [ggml_mul_mat_pad] is [ggml_mul_mat]: it appends the
    single MUL_MAT tensor over [x] and [y] and no view.  So a remainder
    [ne0 % pad] of zero never reaches the second product of the split. *)
Theorem ggml_mul_mat_pad_fallback (cfg : build_config) (ctx : ggml_context)
    (x y : tensor_ptr) (tx : ggml_tensor) (pad : Z) :
  ctx !! x = Some tx ->
  pad <> 0 ->
  Z.rem (d0 (ne tx)) pad = 0 \/ Z.quot (d0 (ne tx)) pad < 8 ->
  ggml_mul_mat_pad cfg x y pad ctx = ggml_mul_mat x y ctx
  /\ forall z ctx', ggml_mul_mat_pad cfg x y pad ctx = Some (z, ctx') ->
       exists ty, ctx !! y = Some ty
                  /\ z = length ctx
                  /\ ctx' = ctx ++ [mul_mat_tensor x y tx ty].
Proof.
  intros Hx Hpad Hcond.
  pose proof (pad_fallback_eq cfg ctx x y tx pad Hx Hpad Hcond) as Heq.
  split; [exact Heq|].
  intros z ctx'. rewrite Heq, ggml_mul_mat_eq, Hx.
  destruct (ctx !! y) as [ty|]; [|discriminate].
  destruct (_ && _); [|discriminate].
  intros [= <- <-]. eauto.
Qed.

Section WithMemory.
Variable alloc : tensor_ptr -> Z.
Variable mem : memory.

Lemma type_size_pos ty : 0 < ggml_type_size ty.
Proof. destruct ty; reflexivity. Qed.

Lemma view_spec (ctx : ggml_context) a ta addr ne0 ne1 ne2 nb1 nb2 off :
  ctx !! a = Some ta ->
  tensor_addr alloc ctx a ta = Some addr ->
  0 <= off -> 0 <= view_offs ta -> off + view_offs ta < 2 ^ 64 ->
  exists tv,
    ggml_view_3d a ne0 ne1 ne2 nb1 nb2 off ctx = Some (length ctx, ctx ++ [tv])
    /\ type tv = type ta
    /\ ne tv = Dim4 ne0 ne1 ne2 1
    /\ nb tv = Dim4 (ggml_type_size (type ta)) nb1 nb2 (nb2 * ne2)
    /\ op tv = GGML_OP_VIEW
    /\ src tv = [a]
    /\ tensor_value alloc mem 1 (ctx ++ [tv]) (length ctx)
       = Some (load mem (addr + off) (nb tv)).
Proof.
  intros Ha Haddr Hoff Hvo Hlt.
  rewrite ggml_view_3d_eq, Ha.
  unfold tensor_addr in Haddr. unfold view_base.
  destruct (view_src ta) as [v'|] eqn:Hvs.
  - destruct (base_addr alloc ctx v') as [b|] eqn:Hb; [|discriminate].
    injection Haddr as <-.
    pose proof Hb as Hb'. unfold base_addr in Hb'.
    destruct (ctx !! v') as [tv'|] eqn:Hv'; [|discriminate].
    eexists. split; [reflexivity|]. repeat split.
    cbn [tensor_value]. rewrite lookup_new. cbn.
    unfold tensor_addr. cbn.
    rewrite (base_addr_extend alloc ctx _ v' b Hb).
    rewrite wrap_size_t_small by lia. do 2 f_equal. lia.
  - eexists. split; [reflexivity|]. repeat split.
    cbn [tensor_value]. rewrite lookup_new. cbn.
    unfold tensor_addr. cbn.
    rewrite (base_addr_extend alloc ctx _ a addr Haddr). reflexivity.
Qed.

Lemma mul_mat_spec (ctx : ggml_context) a b ta tb va vb f :
  ctx !! a = Some ta -> ctx !! b = Some tb ->
  ggml_can_mul_mat ta tb = true -> ggml_is_transposed ta = false ->
  tensor_value alloc mem f ctx a = Some va ->
  tensor_value alloc mem f ctx b = Some vb ->
  ggml_mul_mat a b ctx = Some (length ctx, ctx ++ [mul_mat_tensor a b ta tb])
  /\ tensor_value alloc mem (S f) (ctx ++ [mul_mat_tensor a b ta tb]) (length ctx)
     = Some (mul_mat_value ta tb va vb).
Proof.
  intros Ha Hb Hcan Htr Hva Hvb.
  rewrite ggml_mul_mat_eq, Ha, Hb, Hcan, Htr. split; [reflexivity|].
  cbn [tensor_value]. rewrite lookup_new. cbn [mul_mat_tensor set_op op src].
  rewrite (lookup_old ctx _ a ta Ha), (lookup_old ctx _ b tb Hb).
  rewrite (tensor_value_extend alloc mem f ctx _ a va f) by (assumption || lia).
  rewrite (tensor_value_extend alloc mem f ctx _ b vb f) by (assumption || lia).
  reflexivity.
Qed.

Lemma add_spec (ctx : ggml_context) a b ta tb va vb f :
  ctx !! a = Some ta -> ctx !! b = Some tb ->
  ggml_can_repeat tb ta = true ->
  tensor_value alloc mem f ctx a = Some va ->
  tensor_value alloc mem f ctx b = Some vb ->
  ggml_add a b ctx = Some (length ctx, ctx ++ [add_tensor a b ta])
  /\ tensor_value alloc mem (S f) (ctx ++ [add_tensor a b ta]) (length ctx)
     = Some (add_value tb va vb).
Proof.
  intros Ha Hb Hcan Hva Hvb.
  rewrite ggml_add_eq, Ha, Hb, Hcan. split; [reflexivity|].
  cbn [tensor_value]. rewrite lookup_new. cbn [add_tensor set_op op src].
  rewrite (lookup_old ctx _ b tb Hb).
  rewrite (tensor_value_extend alloc mem f ctx _ a va f) by (assumption || lia).
  rewrite (tensor_value_extend alloc mem f ctx _ b vb f) by (assumption || lia).
  reflexivity.
Qed.

Lemma split_arith n0 pad :
  0 <= n0 < 2 ^ 63 -> pad <> 0 ->
  Z.rem n0 pad <> 0 -> ~ Z.quot n0 pad < 8 ->
  0 < pad
  /\ 0 <= Z.quot n0 pad * pad
  /\ 0 < Z.rem n0 pad
  /\ n0 = Z.quot n0 pad * pad + Z.rem n0 pad.
Proof.
  intros Hn Hpad Hr Hq.
  assert (Hpos : 0 < pad).
  { destruct (Z_lt_le_dec 0 pad) as [|Hle]; [assumption|]. exfalso.
    assert (Hneg : 0 < - pad) by lia.
    pose proof (Z.quot_pos n0 (- pad) ltac:(lia) Hneg) as H1.
    rewrite Z.quot_opp_r in H1 by lia. lia. }
  pose proof (Z.quot_rem' n0 pad) as Hqr.
  pose proof (Z.rem_bound_pos n0 pad ltac:(lia) Hpos) as Hb.
  pose proof (Z.quot_pos n0 pad ltac:(lia) Hpos) as Hq0.
  repeat split; nia.
Qed.

Lemma quot_index_bound i a b :
  0 < a -> Z.rem b a = 0 -> 0 <= i < b ->
  0 <= Z.quot i (Z.quot b a) < a.
Proof.
  intros Ha Hrem Hi.
  pose proof (Z.quot_rem' b a) as Hqr. rewrite Hrem in Hqr.
  assert (Hq : 0 < Z.quot b a) by nia.
  rewrite Z.quot_div_nonneg by lia.
  split; [apply Z.div_pos; lia|].
  apply Z.div_lt_upper_bound; nia.
Qed.

Lemma can_repeat_same (t t' : ggml_tensor) :
  ne t = ne t' -> ggml_can_repeat t t' = true.
Proof.
  intros Hne. unfold ggml_can_repeat, ggml_is_empty. rewrite Hne.
  destruct (_ || _) eqn:He; [reflexivity|].
  apply orb_false_iff in He as [He H3].
  apply orb_false_iff in He as [He H2].
  apply orb_false_iff in He as [H0 H1].
  rewrite !Z.rem_same by lia. reflexivity.
Qed.

Lemma pad_split_eq cfg (ctx : ggml_context) x y tx ty pad :
  ctx !! x = Some tx -> ctx !! y = Some ty -> pad <> 0 ->
  Z.rem (d0 (ne tx)) pad <> 0 -> ~ Z.quot (d0 (ne tx)) pad < 8 ->
  ggml_mul_mat_pad cfg x y pad ctx =
  match ggml_view_3d x (wrap_int64 (Z.quot (d0 (ne tx)) pad * pad))
          (d1 (ne tx)) (d2 (ne tx)) (d1 (nb tx)) (d2 (nb tx)) 0 ctx with
  | Some (x_0, c1) =>
      match c1 !! x_0 with
      | Some tx_0 =>
          match ggml_view_3d x (Z.rem (d0 (ne tx)) pad)
                  (d1 (ne tx)) (d2 (ne tx)) (d1 (nb tx)) (d2 (nb tx))
                  (wrap_size_t (d0 (ne tx_0) * d0 (nb tx_0))) c1 with
          | Some (x_1, c2) =>
              match ggml_view_3d y (wrap_int64 (Z.quot (d0 (ne ty)) pad * pad))
                      (d1 (ne ty)) (d2 (ne ty)) (d1 (nb ty)) (d2 (nb ty)) 0 c2 with
              | Some (y_0, c3) =>
                  match c3 !! y_0 with
                  | Some ty_0 =>
                      match ggml_view_3d y (Z.rem (d0 (ne ty)) pad)
                              (d1 (ne ty)) (d2 (ne ty)) (d1 (nb ty)) (d2 (nb ty))
                              (wrap_size_t (d0 (ne ty_0) * d0 (nb ty_0))) c3 with
                      | Some (y_1, c4) =>
                          (if ARGS_RIGHT_TO_LEFT cfg then
                             let* z_1 := ggml_mul_mat x_1 y_1 in
                             let* z_0 := ggml_mul_mat x_0 y_0 in
                             ggml_add z_0 z_1
                           else
                             let* z_0 := ggml_mul_mat x_0 y_0 in
                             let* z_1 := ggml_mul_mat x_1 y_1 in
                             ggml_add z_0 z_1)%build c4
                      | None => None
                      end
                  | None => None
                  end
              | None => None
              end
          | None => None
          end
      | None => None
      end
  | None => None
  end.
Proof.
  intros Hx Hy Hpad Hr Hq.
  unfold ggml_mul_mat_pad, bind, deref, lift. rewrite Hx, Hy.
  rewrite !c_mod_Some, !c_div_Some by assumption. cbn [ret].
  replace ((Z.rem (d0 (ne tx)) pad =? 0)
           || (Z.quot (d0 (ne tx)) pad <? n_pad_req)) with false.
  2:{ symmetry. apply orb_false_iff. unfold n_pad_req. split; lia. }
  repeat (case_match; simplify_eq; try reflexivity).
Qed.

Lemma load_shift a s k i0 i1 i2 p :
  load mem (a + p * d0 s) s (k, i0, i1, i2) = load mem a s (p + k, i0, i1, i2).
Proof. unfold load, elem_offset. f_equal. lia. Qed.

Lemma load_3d a s s' k i0 i1 :
  d0 s = d0 s' -> d1 s = d1 s' -> d2 s = d2 s' ->
  load mem a s (k, i0, i1, 0) = load mem a s' (k, i0, i1, 0).
Proof. intros H0 H1 H2. unfold load, elem_offset. rewrite H0, H1, H2. f_equal; lia. Qed.

(** The two products and their sum, in either order of evaluation of
    the arguments of [ggml_add]. *)
Lemma sum_of_products (rtl : bool) (c : ggml_context) a0 b0 a1 b1
    ta0 tb0 ta1 tb1 va0 vb0 va1 vb1 f :
  c !! a0 = Some ta0 -> c !! b0 = Some tb0 ->
  c !! a1 = Some ta1 -> c !! b1 = Some tb1 ->
  ggml_can_mul_mat ta0 tb0 = true -> ggml_is_transposed ta0 = false ->
  ggml_can_mul_mat ta1 tb1 = true -> ggml_is_transposed ta1 = false ->
  tensor_value alloc mem f c a0 = Some va0 ->
  tensor_value alloc mem f c b0 = Some vb0 ->
  tensor_value alloc mem f c a1 = Some va1 ->
  tensor_value alloc mem f c b1 = Some vb1 ->
  (f <= length c)%nat ->
  ne (mul_mat_tensor a1 b1 ta1 tb1) = ne (mul_mat_tensor a0 b0 ta0 tb0) ->
  exists z ctx1 z_0 z_1 l,
    (if rtl then
       let* z_1 := ggml_mul_mat a1 b1 in
       let* z_0 := ggml_mul_mat a0 b0 in
       ggml_add z_0 z_1
     else
       let* z_0 := ggml_mul_mat a0 b0 in
       let* z_1 := ggml_mul_mat a1 b1 in
       ggml_add z_0 z_1)%build c = Some (z, ctx1)
    /\ ctx1 = c ++ l /\ length l = 3%nat
    /\ product_of alloc mem ctx1 a0 b0 ta0 tb0 va0 vb0 z_0
         (mul_mat_tensor a0 b0 ta0 tb0)
    /\ product_of alloc mem ctx1 a1 b1 ta1 tb1 va1 vb1 z_1
         (mul_mat_tensor a1 b1 ta1 tb1)
    /\ ctx1 !! z = Some (add_tensor z_0 z_1 (mul_mat_tensor a0 b0 ta0 tb0))
    /\ tensor_value alloc mem (length ctx1) ctx1 z
       = Some (add_value (mul_mat_tensor a1 b1 ta1 tb1)
                 (mul_mat_value ta0 tb0 va0 vb0)
                 (mul_mat_value ta1 tb1 va1 vb1)).
Proof.
  intros Ha0 Hb0 Ha1 Hb1 Hc0 Ht0 Hc1 Ht1 Hva0 Hvb0 Hva1 Hvb1 Hf HneM.
  set (M0 := mul_mat_tensor a0 b0 ta0 tb0) in *.
  set (M1 := mul_mat_tensor a1 b1 ta1 tb1) in *.
  destruct rtl; unfold bind.
  - (* the product of the remainders is created first *)
    destruct (mul_mat_spec c a1 b1 ta1 tb1 va1 vb1 f Ha1 Hb1 Hc1 Ht1 Hva1 Hvb1)
      as [E1 V1].
    rewrite E1. fold M1 in V1 |- *. set (c5 := c ++ [M1]) in *.
    destruct (mul_mat_spec c5 a0 b0 ta0 tb0 va0 vb0 f
                (lookup_old _ _ a0 ta0 Ha0) (lookup_old _ _ b0 tb0 Hb0) Hc0 Ht0
                (tensor_value_extend alloc mem f c [M1] a0 va0 f (le_n f) Hva0)
                (tensor_value_extend alloc mem f c [M1] b0 vb0 f (le_n f) Hvb0))
      as [E0 V0].
    rewrite E0. fold M0 in V0 |- *. set (c6 := c5 ++ [M0]) in *.
    destruct (add_spec c6 (length c5) (length c) M0 M1
                (mul_mat_value ta0 tb0 va0 vb0) (mul_mat_value ta1 tb1 va1 vb1)
                (S f)) as [EA VA].
    { apply lookup_new. }
    { apply lookup_old. apply lookup_new. }
    { now apply can_repeat_same. }
    { exact V0. }
    { apply (tensor_value_extend alloc mem (S f) c5 [M0]); [lia|exact V1]. }
    rewrite EA. set (A := add_tensor (length c5) (length c) M0) in *.
    assert (Hlen : length (c6 ++ [A]) = (length c + 3)%nat).
    { subst c6 c5. rewrite !length_app. cbn. lia. }
    exists (length c6), (c6 ++ [A]), (length c5), (length c), [M1; M0; A].
    split; [reflexivity|].
    split; [subst c6 c5; now rewrite <- !app_assoc|].
    split; [reflexivity|].
    split.
    { split; [apply lookup_old, lookup_new|]. do 2 (split; [reflexivity|]).
      apply (tensor_value_extend alloc mem (S f) c6 [A]); [lia|exact V0]. }
    split.
    { split; [do 2 apply lookup_old; apply lookup_new|].
      do 2 (split; [reflexivity|]).
      apply (tensor_value_extend alloc mem (S f) c6 [A]); [lia|].
      apply (tensor_value_extend alloc mem (S f) c5 [M0]); [lia|exact V1]. }
    split; [apply lookup_new|].
    rewrite <- (app_nil_r (c6 ++ [A])) at 2.
    apply (tensor_value_extend alloc mem (S (S f))); [lia|exact VA].
  - (* the product of the prefixes is created first *)
    destruct (mul_mat_spec c a0 b0 ta0 tb0 va0 vb0 f Ha0 Hb0 Hc0 Ht0 Hva0 Hvb0)
      as [E0 V0].
    rewrite E0. fold M0 in V0 |- *. set (c5 := c ++ [M0]) in *.
    destruct (mul_mat_spec c5 a1 b1 ta1 tb1 va1 vb1 f
                (lookup_old _ _ a1 ta1 Ha1) (lookup_old _ _ b1 tb1 Hb1) Hc1 Ht1
                (tensor_value_extend alloc mem f c [M0] a1 va1 f (le_n f) Hva1)
                (tensor_value_extend alloc mem f c [M0] b1 vb1 f (le_n f) Hvb1))
      as [E1 V1].
    rewrite E1. fold M1 in V1 |- *. set (c6 := c5 ++ [M1]) in *.
    destruct (add_spec c6 (length c) (length c5) M0 M1
                (mul_mat_value ta0 tb0 va0 vb0) (mul_mat_value ta1 tb1 va1 vb1)
                (S f)) as [EA VA].
    { apply lookup_old. apply lookup_new. }
    { apply lookup_new. }
    { now apply can_repeat_same. }
    { apply (tensor_value_extend alloc mem (S f) c5 [M1]); [lia|exact V0]. }
    { exact V1. }
    rewrite EA. set (A := add_tensor (length c) (length c5) M0) in *.
    assert (Hlen : length (c6 ++ [A]) = (length c + 3)%nat).
    { subst c6 c5. rewrite !length_app. cbn. lia. }
    exists (length c6), (c6 ++ [A]), (length c), (length c5), [M0; M1; A].
    split; [reflexivity|].
    split; [subst c6 c5; now rewrite <- !app_assoc|].
    split; [reflexivity|].
    split.
    { split; [do 2 apply lookup_old; apply lookup_new|].
      do 2 (split; [reflexivity|]).
      apply (tensor_value_extend alloc mem (S f) c6 [A]); [lia|].
      apply (tensor_value_extend alloc mem (S f) c5 [M1]); [lia|exact V0]. }
    split.
    { split; [apply lookup_old, lookup_new|]. do 2 (split; [reflexivity|]).
      apply (tensor_value_extend alloc mem (S f) c6 [A]); [lia|exact V1]. }
    split; [apply lookup_new|].
    rewrite <- (app_nil_r (c6 ++ [A])) at 2.
    apply (tensor_value_extend alloc mem (S (S f))); [lia|exact VA].
Qed.

(** Over exact arithmetic the product of the prefixes and the product
    of the remainders add up to the product of the whole rows. *)
Lemma split_value (tx ty tx_0 tx_1 ty_0 ty_1 : ggml_tensor)
    (vx vy vx_0 vx_1 vy_0 vy_1 : index -> Z) n0 n1 :
  0 <= n0 -> 0 <= n1 -> d0 (ne tx) = n0 + n1 ->
  d3 (ne tx) = 1 -> d3 (ne ty) = 1 -> 0 < d2 (ne tx) ->
  ggml_can_mul_mat tx ty = true ->
  ne tx_0 = Dim4 n0 (d1 (ne tx)) (d2 (ne tx)) 1 ->
  ne tx_1 = Dim4 n1 (d1 (ne tx)) (d2 (ne tx)) 1 ->
  ne ty_0 = Dim4 n0 (d1 (ne ty)) (d2 (ne ty)) 1 ->
  ne ty_1 = Dim4 n1 (d1 (ne ty)) (d2 (ne ty)) 1 ->
  (forall k i1 i2, 0 <= k < n0 -> 0 <= i1 < d1 (ne tx) -> 0 <= i2 < d2 (ne tx) ->
                   vx_0 (k, i1, i2, 0) = vx (0 + k, i1, i2, 0)) ->
  (forall k i1 i2, 0 <= k < n1 -> 0 <= i1 < d1 (ne tx) -> 0 <= i2 < d2 (ne tx) ->
                   vx_1 (k, i1, i2, 0) = vx (n0 + k, i1, i2, 0)) ->
  (forall k i1 i2, 0 <= k < n0 -> 0 <= i1 < d1 (ne ty) -> 0 <= i2 < d2 (ne ty) ->
                   vy_0 (k, i1, i2, 0) = vy (0 + k, i1, i2, 0)) ->
  (forall k i1 i2, 0 <= k < n1 -> 0 <= i1 < d1 (ne ty) -> 0 <= i2 < d2 (ne ty) ->
                   vy_1 (k, i1, i2, 0) = vy (n0 + k, i1, i2, 0)) ->
  forall i, in_bounds (Dim4 (d1 (ne tx)) (d1 (ne ty)) (d2 (ne ty)) 1) i ->
    mul_mat_value tx_0 ty_0 vx_0 vy_0 i + mul_mat_value tx_1 ty_1 vx_1 vy_1 i
    = mul_mat_value tx ty vx vy i.
Proof.
  intros Hn0 Hn1 Hsum Hx3 Hy3 Hx2 Hcan HX0 HX1 HY0 HY1 Rx0 Rx1 Ry0 Ry1.
  unfold ggml_can_mul_mat in Hcan.
  apply andb_true_iff in Hcan as [Hcan Hc3].
  apply andb_true_iff in Hcan as [Hc0 Hc2].
  apply Z.eqb_eq in Hc0, Hc2, Hc3.
  intros [[[i0 i1] i2] i3]. cbn [in_bounds d0 d1 d2 d3].
  intros (Hi0 & Hi1 & Hi2 & Hi3).
  assert (i3 = 0) as -> by lia.
  pose proof (quot_index_bound i2 (d2 (ne tx)) (d2 (ne ty)) Hx2 Hc2 Hi2) as Hi2q.
  unfold mul_mat_value.
  rewrite HX0, HX1, HY0, HY1, Hx3, Hy3, Hsum. cbn [d0 d1 d2 d3].
  change (Z.quot 1 1) with 1. change (Z.quot 0 1) with 0.
  replace (Z.to_nat (n0 + n1)) with (Z.to_nat n0 + Z.to_nat n1)%nat by lia.
  rewrite sum_n_split. rewrite Z2Nat.id by lia.
  f_equal; apply sum_n_ext; intros k Hk.
  - rewrite Rx0, Ry0 by lia. reflexivity.
  - rewrite Rx1, Ry1 by lia. reflexivity.
Qed.

(** The split path: what [ggml_mul_mat_pad] leaves in the context. *)
Lemma pad_split_spec cfg (ctx : ggml_context) x y tx ty vx vy pad :
  ctx !! x = Some tx -> ctx !! y = Some ty ->
  pad <> 0 ->
  matmul_operand tx -> matmul_operand ty ->
  ggml_can_mul_mat tx ty = true -> ggml_is_transposed tx = false ->
  in_memory alloc mem ctx x tx vx -> in_memory alloc mem ctx y ty vy ->
  Z.rem (d0 (ne tx)) pad <> 0 -> ~ Z.quot (d0 (ne tx)) pad < 8 ->
  exists z ctx1 tz vz,
    ggml_mul_mat_pad cfg x y pad ctx = Some (z, ctx1)
    /\ ctx1 !! z = Some tz
    /\ ne tz = Dim4 (d1 (ne tx)) (d1 (ne ty)) (d2 (ne ty)) 1
    /\ type tz = GGML_TYPE_F32
    /\ tensor_value alloc mem (length ctx1) ctx1 z = Some vz
    /\ split_product alloc mem ctx1 x y tx ty vx vy pad tz vz.
Proof.
  intros Hx Hy Hpad (Hx3 & Hx2 & Hxnb & Hxn & Hxvo & Hxrow)
         (Hy3 & Hy2 & Hynb & Hyn & Hyvo & Hyrow) Hcan Htr
         (ax & Hax & Hmx) (ay & Hay & Hmy) Hr Hq.
  pose proof Hcan as Hcan'. unfold ggml_can_mul_mat in Hcan'.
  apply andb_true_iff in Hcan' as [Hcan' Hc3].
  apply andb_true_iff in Hcan' as [Hc0 Hc2].
  apply Z.eqb_eq in Hc0, Hc2, Hc3.
  destruct (split_arith (d0 (ne tx)) pad Hxn Hpad Hr Hq)
    as (Hpos & Hp0 & Hr0 & Hn0).
  unfold split_product.
  set (n0 := d0 (ne tx)) in *.
  set (q := Z.quot n0 pad) in *. set (r := Z.rem n0 pad) in *.
  pose proof (type_size_pos (type tx)) as Htsx.
  pose proof (type_size_pos (type ty)) as Htsy.
  rewrite (pad_split_eq cfg ctx x y tx ty pad Hx Hy Hpad Hr Hq).
  fold n0 q r. rewrite <- Hc0. fold n0 q r.
  rewrite (wrap_int64_small (q * pad)) by lia.
  (* x_0 *)
  destruct (view_spec ctx x tx ax (q * pad) (d1 (ne tx)) (d2 (ne tx))
              (d1 (nb tx)) (d2 (nb tx)) 0 Hx Hax ltac:(lia) Hxvo ltac:(nia))
    as (X0 & -> & HX0ty & HX0ne & HX0nb & HX0op & HX0src & HX0v).
  rewrite lookup_new. rewrite HX0ne, HX0nb. cbn [d0].
  rewrite wrap_size_t_small by nia.
  set (c1 := ctx ++ [X0]) in *.
  assert (Hx1 : c1 !! x = Some tx) by (now apply lookup_old).
  assert (Hy1 : c1 !! y = Some ty) by (now apply lookup_old).
  (* x_1 *)
  destruct (view_spec c1 x tx ax r (d1 (ne tx)) (d2 (ne tx))
              (d1 (nb tx)) (d2 (nb tx)) (q * pad * ggml_type_size (type tx))
              Hx1 (tensor_addr_extend alloc ctx _ x tx ax Hx Hax)
              ltac:(nia) Hxvo ltac:(nia))
    as (X1 & -> & HX1ty & HX1ne & HX1nb & HX1op & HX1src & HX1v).
  set (c2 := c1 ++ [X1]) in *.
  assert (Hy2' : c2 !! y = Some ty) by (now apply lookup_old).
  (* y_0 *)
  destruct (view_spec c2 y ty ay (q * pad) (d1 (ne ty)) (d2 (ne ty))
              (d1 (nb ty)) (d2 (nb ty)) 0 Hy2'
              (tensor_addr_extend alloc c1 _ y ty ay Hy1
                 (tensor_addr_extend alloc ctx _ y ty ay Hy Hay))
              ltac:(lia) Hyvo ltac:(nia))
    as (Y0 & -> & HY0ty & HY0ne & HY0nb & HY0op & HY0src & HY0v).
  rewrite lookup_new. rewrite HY0ne, HY0nb. cbn [d0].
  rewrite wrap_size_t_small by nia.
  set (c3 := c2 ++ [Y0]) in *.
  assert (Hy3' : c3 !! y = Some ty) by (now apply lookup_old).
  (* y_1 *)
  destruct (view_spec c3 y ty ay r (d1 (ne ty)) (d2 (ne ty))
              (d1 (nb ty)) (d2 (nb ty)) (q * pad * ggml_type_size (type ty))
              Hy3'
              (tensor_addr_extend alloc c2 _ y ty ay Hy2'
                 (tensor_addr_extend alloc c1 _ y ty ay Hy1
                    (tensor_addr_extend alloc ctx _ y ty ay Hy Hay)))
              ltac:(nia) Hyvo ltac:(nia))
    as (Y1 & -> & HY1ty & HY1ne & HY1nb & HY1op & HY1src & HY1v).
  set (c4 := c3 ++ [Y1]) in *.
  assert (HX0c4 : c4 !! length ctx = Some X0).
  { do 3 apply lookup_old. apply lookup_new. }
  assert (HX1c4 : c4 !! length c1 = Some X1).
  { do 2 apply lookup_old. apply lookup_new. }
  assert (HY0c4 : c4 !! length c2 = Some Y0).
  { apply lookup_old. apply lookup_new. }
  assert (HY1c4 : c4 !! length c3 = Some Y1) by apply lookup_new.
  assert (Hlen4 : (1 <= length c4)%nat).
  { unfold c4. rewrite length_app. cbn. lia. }
  assert (Hntr : forall X, nb X = Dim4 (ggml_type_size (type tx)) (d1 (nb tx))
                                   (d2 (nb tx)) (d2 (nb tx) * d2 (ne tx)) ->
                           ggml_is_transposed X = false).
  { intros X HX. unfold ggml_is_transposed in *. rewrite HX. cbn.
    now rewrite <- Hxnb. }
  assert (VX0 : tensor_value alloc mem 1 c4 (length ctx)
                = Some (load mem (ax + 0) (nb X0))).
  { apply (tensor_value_extend alloc mem 1 c3 [Y1]); [lia|].
    apply (tensor_value_extend alloc mem 1 c2 [Y0]); [lia|].
    apply (tensor_value_extend alloc mem 1 c1 [X1]); [lia|]. exact HX0v. }
  assert (VX1 : tensor_value alloc mem 1 c4 (length c1)
                = Some (load mem (ax + q * pad * ggml_type_size (type tx)) (nb X1))).
  { apply (tensor_value_extend alloc mem 1 c3 [Y1]); [lia|].
    apply (tensor_value_extend alloc mem 1 c2 [Y0]); [lia|]. exact HX1v. }
  assert (VY0 : tensor_value alloc mem 1 c4 (length c2)
                = Some (load mem (ay + 0) (nb Y0))).
  { apply (tensor_value_extend alloc mem 1 c3 [Y1]); [lia|]. exact HY0v. }
  assert (VY1 : tensor_value alloc mem 1 c4 (length c3)
                = Some (load mem (ay + q * pad * ggml_type_size (type ty)) (nb Y1)))
    by exact HY1v.
  set (M0 := mul_mat_tensor (length ctx) (length c2) X0 Y0).
  set (M1 := mul_mat_tensor (length c1) (length c3) X1 Y1).
  assert (HneM0 : ne M0 = Dim4 (d1 (ne tx)) (d1 (ne ty)) (d2 (ne ty)) 1).
  { unfold M0, mul_mat_tensor. cbn. now rewrite HX0ne, HY0ne. }
  assert (HneM1 : ne M1 = Dim4 (d1 (ne tx)) (d1 (ne ty)) (d2 (ne ty)) 1).
  { unfold M1, mul_mat_tensor. cbn. now rewrite HX1ne, HY1ne. }
  assert (Hcm0 : ggml_can_mul_mat X0 Y0 = true).
  { unfold ggml_can_mul_mat. rewrite HX0ne, HY0ne. cbn.
    rewrite Hc2, Z.eqb_refl. reflexivity. }
  assert (Hcm1 : ggml_can_mul_mat X1 Y1 = true).
  { unfold ggml_can_mul_mat. rewrite HX1ne, HY1ne. cbn.
    rewrite Hc2, Z.eqb_refl. reflexivity. }
  destruct (sum_of_products (ARGS_RIGHT_TO_LEFT cfg) c4
              (length ctx) (length c2) (length c1) (length c3)
              X0 Y0 X1 Y1
              (load mem (ax + 0) (nb X0)) (load mem (ay + 0) (nb Y0))
              (load mem (ax + q * pad * ggml_type_size (type tx)) (nb X1))
              (load mem (ay + q * pad * ggml_type_size (type ty)) (nb Y1))
              1 HX0c4 HY0c4 HX1c4 HY1c4
              Hcm0 (Hntr X0 HX0nb) Hcm1 (Hntr X1 HX1nb)
              VX0 VY0 VX1 VY1 Hlen4 (eq_trans HneM1 (eq_sym HneM0)))
    as (z & ctx1 & z_0 & z_1 & l & E & Hl & Hll & P0 & P1 & Hz & Vz).
  fold M0 M1 in P0, P1, Hz, Vz.
  assert (Hlen1 : (1 <= length ctx1)%nat).
  { rewrite Hl, length_app. lia. }
  eexists z, ctx1, (add_tensor z_0 z_1 M0), _.
  split; [exact E|]. split; [exact Hz|].
  split; [exact HneM0|]. split; [reflexivity|]. split; [exact Vz|].
  exists (length ctx), (length c1), (length c2), (length c3), z_0, z_1,
    X0, X1, Y0, Y1, M0, M1,
    (load mem (ax + 0) (nb X0)),
    (load mem (ax + q * pad * ggml_type_size (type tx)) (nb X1)),
    (load mem (ay + 0) (nb Y0)),
    (load mem (ay + q * pad * ggml_type_size (type ty)) (nb Y1)).
  split.
  { split; [rewrite Hl; now apply lookup_old|].
    do 4 (split; [assumption|]).
    split; [rewrite Hl; apply (tensor_value_extend alloc mem 1 c4 l);
            [rewrite length_app; lia|assumption]|].
    intros k i1 i2 Hk Hi1 Hi2.
    rewrite Hmx by (cbn; fold n0; lia). rewrite !Z.add_0_r, Z.add_0_l.
    apply load_3d; rewrite HX0nb; cbn; congruence. }
  split.
  { split; [rewrite Hl; now apply lookup_old|].
    do 4 (split; [assumption|]).
    split; [rewrite Hl; apply (tensor_value_extend alloc mem 1 c4 l);
            [rewrite length_app; lia|assumption]|].
    intros k i1 i2 Hk Hi1 Hi2.
    rewrite Hmx by (cbn; fold n0; lia).
    replace (ggml_type_size (type tx)) with (d0 (nb X1)) by (now rewrite HX1nb).
    rewrite load_shift.
    apply load_3d; rewrite HX1nb; cbn; congruence. }
  split.
  { split; [rewrite Hl; now apply lookup_old|].
    do 4 (split; [assumption|]).
    split; [rewrite Hl; apply (tensor_value_extend alloc mem 1 c4 l);
            [rewrite length_app; lia|assumption]|].
    intros k i1 i2 Hk Hi1 Hi2.
    rewrite Hmy by (cbn; lia). rewrite !Z.add_0_r, Z.add_0_l.
    apply load_3d; rewrite HY0nb; cbn; congruence. }
  split.
  { split; [rewrite Hl; now apply lookup_old|].
    do 4 (split; [assumption|]).
    split; [rewrite Hl; apply (tensor_value_extend alloc mem 1 c4 l);
            [rewrite length_app; lia|assumption]|].
    intros k i1 i2 Hk Hi1 Hi2.
    rewrite Hmy by (cbn; lia).
    replace (ggml_type_size (type ty)) with (d0 (nb Y1)) by (now rewrite HY1nb).
    rewrite load_shift.
    apply load_3d; rewrite HY1nb; cbn; congruence. }
  split; [exact P0|]. split; [exact P1|].
  do 2 (split; [reflexivity|]).
  intros [[[i0 i1] i2] i3].
  change (ne (add_tensor z_0 z_1 M0)) with (ne M0). rewrite HneM0.
  cbn [in_bounds d0 d1 d2 d3]. intros (Hi0 & Hi1 & Hi2 & Hi3).
  unfold add_value. rewrite HneM1. cbn [d0 d1 d2 d3].
  rewrite !Z.rem_small by lia. reflexivity.
Qed.

(** C3, as amended.  For a nonzero [pad] and operands the direct product accepts,
    with a single batch in dimension 3 and rows of adjacent elements,
    [ggml_mul_mat_pad] and [ggml_mul_mat] both return a tensor; the two
    have the same shape and type, and the same value at every index,
    over exact arithmetic.  When dimension 0 is a multiple of [pad] or
    holds fewer than eight pads the two are the same MUL_MAT tensor over
    [x] and [y].  Otherwise the result of [ggml_mul_mat_pad] is the sum
    of two products: one of the views of the first [(ne0 / pad) * pad]
    elements of the rows of [x] and [y], one of the views of the
    [ne0 % pad] elements that remain. *)
Theorem ggml_mul_mat_pad_equiv (cfg : build_config) (ctx : ggml_context)
    (x y : tensor_ptr) (tx ty : ggml_tensor) (vx vy : index -> Z) (pad : Z) :
  ctx !! x = Some tx -> ctx !! y = Some ty ->
  pad <> 0 ->
  matmul_operand tx -> matmul_operand ty ->
  ggml_can_mul_mat tx ty = true -> ggml_is_transposed tx = false ->
  tensor_value alloc mem (length ctx) ctx x = Some vx ->
  tensor_value alloc mem (length ctx) ctx y = Some vy ->
  in_memory alloc mem ctx x tx vx -> in_memory alloc mem ctx y ty vy ->
  exists z ctx1 tz vz z' ctx2 tz' vz',
    ggml_mul_mat_pad cfg x y pad ctx = Some (z, ctx1)
    /\ ctx1 !! z = Some tz
    /\ tensor_value alloc mem (length ctx1) ctx1 z = Some vz
    /\ ggml_mul_mat x y ctx = Some (z', ctx2)
    /\ ctx2 !! z' = Some tz'
    /\ tensor_value alloc mem (length ctx2) ctx2 z' = Some vz'
    /\ ne tz = ne tz'
    /\ type tz = type tz'
    /\ (forall i, in_bounds (ne tz) i -> vz i = vz' i)
    /\ (if takes_fallback (d0 (ne tx)) pad
        then z = z' /\ ctx1 = ctx2
             /\ op tz = GGML_OP_MUL_MAT /\ src tz = [x; y]
        else split_product alloc mem ctx1 x y tx ty vx vy pad tz vz).
Proof.
  intros Hx Hy Hpad Hopx Hopy Hcan Htr Hvx Hvy Hmx Hmy.
  destruct (mul_mat_spec ctx x y tx ty vx vy (length ctx)
              Hx Hy Hcan Htr Hvx Hvy) as [Hdir Hdirv].
  assert (Hlen : length (ctx ++ [mul_mat_tensor x y tx ty]) = S (length ctx)).
  { rewrite length_app. cbn. lia. }
  rewrite <- Hlen in Hdirv.
  assert (Hdne : ne (mul_mat_tensor x y tx ty)
                 = Dim4 (d1 (ne tx)) (d1 (ne ty)) (d2 (ne ty)) 1).
  { destruct Hopy as (Hy3 & _). cbn. now rewrite Hy3. }
  unfold takes_fallback.
  destruct (decide (Z.rem (d0 (ne tx)) pad = 0 \/ Z.quot (d0 (ne tx)) pad < 8))
    as [Hfb|Hsplit].
  - exists (length ctx), (ctx ++ [mul_mat_tensor x y tx ty]),
           (mul_mat_tensor x y tx ty), (mul_mat_value tx ty vx vy),
           (length ctx), (ctx ++ [mul_mat_tensor x y tx ty]),
           (mul_mat_tensor x y tx ty), (mul_mat_value tx ty vx vy).
    rewrite (pad_fallback_eq cfg ctx x y tx pad Hx Hpad Hfb).
    replace ((Z.rem (d0 (ne tx)) pad =? 0) || (Z.quot (d0 (ne tx)) pad <? 8))
      with true by (symmetry; apply orb_true_iff; lia).
    repeat split; try assumption; apply lookup_new.
  - destruct (pad_split_spec cfg ctx x y tx ty vx vy pad Hx Hy Hpad Hopx Hopy
                Hcan Htr Hmx Hmy ltac:(tauto) ltac:(tauto))
      as (z & ctx1 & tz & vz & Hpadr & Hz & Hne & Hty & Hvz & Hsp).
    exists z, ctx1, tz, vz,
           (length ctx), (ctx ++ [mul_mat_tensor x y tx ty]),
           (mul_mat_tensor x y tx ty), (mul_mat_value tx ty vx vy).
    replace ((Z.rem (d0 (ne tx)) pad =? 0) || (Z.quot (d0 (ne tx)) pad <? 8))
      with false by (symmetry; apply orb_false_iff; lia).
    do 6 (split; [assumption || apply lookup_new|]).
    split; [congruence|]. split; [exact Hty|]. split; [|exact Hsp].
    destruct Hopx as (Hx3 & Hx2 & _ & Hxn & _).
    destruct Hopy as (Hy3 & _).
    destruct (split_arith (d0 (ne tx)) pad Hxn Hpad ltac:(tauto) ltac:(tauto))
      as (Hpos & Hp0 & Hr0 & Hn0).
    destruct Hsp as (x_0 & x_1 & y_0 & y_1 & z_0 & z_1 & tx_0 & tx_1 & ty_0
                     & ty_1 & tz_0 & tz_1 & vx_0 & vx_1 & vy_0 & vy_1
                     & RX0 & RX1 & RY0 & RY1 & _ & _ & _ & _ & Hsum).
    destruct RX0 as (_ & _ & _ & _ & HX0 & _ & RX0).
    destruct RX1 as (_ & _ & _ & _ & HX1 & _ & RX1).
    destruct RY0 as (_ & _ & _ & _ & HY0 & _ & RY0).
    destruct RY1 as (_ & _ & _ & _ & HY1 & _ & RY1).
    intros i Hi. rewrite (Hsum i Hi). rewrite Hne in Hi.
    apply (split_value tx ty tx_0 tx_1 ty_0 ty_1 vx vy vx_0 vx_1 vy_0 vy_1
             (Z.quot (d0 (ne tx)) pad * pad) (Z.rem (d0 (ne tx)) pad));
      try assumption; lia.
Qed.

End WithMemory.

End MulMatPad.

(** ** Programs, traces and engines *)

Module EngineFacts.
Import Ggml Engine.

Lemma runs_bind {A B} (m : proc A) (f : A -> proc B) tr r :
  runs (m ≫= f) tr r <->
  exists a tr1 tr2, tr = tr1 ++ tr2 /\ runs m tr1 a /\ runs (f a) tr2 r.
Proof.
  change (m ≫= f) with (pbind m f).
  revert tr. induction m as [a|X e k IH]; intros tr; cbn [pbind runs].
  - split.
    + intros H. exists a, [], tr. auto.
    + intros (a' & tr1 & tr2 & -> & [-> ->] & H). exact H.
  - split.
    + intros (x & tr' & -> & H). apply IH in H as (a & tr1 & tr2 & -> & H1 & H2).
      exists a, (event_of e x :: tr1), tr2. split; [reflexivity|].
      split; [|exact H2]. exists x, tr1. auto.
    + intros (a & tr1 & tr2 & -> & (x & tr' & -> & H1) & H2).
      exists x, (tr' ++ tr2). split; [reflexivity|].
      apply IH. exists a, tr', tr2. auto.
Qed.

Lemma runs_do {X} (e : call X) tr x :
  runs (do e) tr x <-> tr = [event_of e x].
Proof.
  unfold do. cbn [runs]. split.
  - intros (x' & tr' & -> & -> & ->). reflexivity.
  - intros ->. exists x, []. auto.
Qed.

Lemma runs_ret {R} (r r' : R) tr : runs (Ret r) tr r' <-> tr = [] /\ r = r'.
Proof. reflexivity. Qed.

Lemma runs_stop {R} tr (r : R) : ~ runs stop tr r.
Proof. unfold stop. cbn [runs]. intros ([] & _). Qed.

Lemma interp_bind {S A B} (h : engine S) (m : proc A) (f : A -> proc B) s :
  interp h (m ≫= f) s =
  match interp h m s with
  | Some (a, s', tr1) =>
      match interp h (f a) s' with
      | Some (r, s'', tr2) => Some (r, s'', tr1 ++ tr2)
      | None => None
      end
  | None => None
  end.
Proof.
  change (m ≫= f) with (pbind m f).
  revert s. induction m as [a|X e k IH]; intros s; cbn [pbind interp].
  - destruct (interp h (f a) s) as [[[r s''] tr2]|]; reflexivity.
  - destruct (h X e s) as [[x s']|]; [|reflexivity].
    rewrite IH. destruct (interp h (k x) s') as [[[a s''] tr1]|]; [|reflexivity].
    destruct (interp h (f a) s'') as [[[r s3] tr2]|]; reflexivity.
Qed.

Lemma interp_do {S X} (h : engine S) (e : call X) s :
  interp h (do e) s =
  match h X e s with
  | Some (x, s') => Some (x, s', [event_of e x])
  | None => None
  end.
Proof. unfold do. cbn [interp]. destruct (h X e s) as [[x s']|]; reflexivity. Qed.

(** Every run under an engine is a run. *)
Lemma interp_runs {S R} (h : engine S) (p : proc R) s r s' tr :
  interp h p s = Some (r, s', tr) -> runs p tr r.
Proof.
  revert s tr. induction p as [a|X e k IH]; intros s tr; cbn [interp runs].
  - intros [= -> _ <-]. auto.
  - destruct (h X e s) as [[x s1]|]; [|discriminate].
    destruct (interp h (k x) s1) as [[[r' s2] tr']|] eqn:Hk; [|discriminate].
    intros [= -> -> <-]. exists x, tr'. split; [reflexivity|]. eapply IH, Hk.
Qed.

End EngineFacts.

(** ** The execution driver *)

Module DriverFacts.
Import CInt Ggml Engine EngineFacts Decoder.

Ltac run_inv :=
  repeat match goal with
    | H : runs (Vis _ _) _ _ |- _ =>
        let x := fresh "x" in let tr := fresh "tr" in
        destruct H as (x & tr & -> & H)
    | H : runs (Ret _) _ _ |- _ => destruct H as [-> H]
    | H : runs stop _ _ |- _ => destruct (runs_stop _ _ H)
    end.

Lemma configure_backend_runs cfg backend n_threads tr :
  runs (configure_backend cfg backend n_threads) tr tt ->
  forallb is_config tr = true.
Proof.
  destruct cfg as [[] [] rtl]; unfold configure_backend, when; cbn;
    intros (c & tr1 & -> & H); destruct c; cbn in H;
    repeat match goal with
      | H : exists _, _ |- _ => destruct H
      | H : _ /\ _ |- _ => destruct H
      | b : bool |- _ => destruct b; cbn in *
      end; subst; reflexivity.
Qed.

Lemma configure_round_runs cfg sched n_threads next i tr :
  runs (configure_round cfg sched n_threads next i) tr tt ->
  exists pre post,
    tr = pre ++ post /\ forallb is_config pre = true
    /\ (post = [] \/ runs (next (i + 1)) post tt).
Proof.
  unfold configure_round. intros H.
  apply runs_bind in H as (n & tr1 & tr2 & -> & Hn & H).
  apply runs_do in Hn as ->.
  destruct (i <? n).
  - apply runs_bind in H as (b & tr1 & tr3 & -> & Hb & H).
    apply runs_do in Hb as ->.
    apply runs_bind in H as ([] & tr4 & tr5 & -> & Hc & H).
    apply configure_backend_runs in Hc.
    eexists (_ :: _ :: tr4), tr5. split; [reflexivity|].
    split; [exact Hc|]. now right.
  - destruct H as [-> _]. eexists [_], []. auto.
Qed.

Lemma rounds_runs cfg sched n_threads p :
  forall next i tr,
    runs (rounds p (configure_round cfg sched n_threads) next i) tr tt ->
    exists pre post,
      tr = pre ++ post /\ forallb is_config pre = true
      /\ (post = [] \/ exists j, runs (next j) post tt).
Proof.
  induction p as [p IH|p IH|]; intros next i tr H; cbn [rounds] in H.
  - apply configure_round_runs in H as (pre & post & -> & Hpre & [->|H]).
    { exists pre, []. auto. }
    apply IH in H as (pre1 & post1 & -> & Hpre1 & [->|[j H]]).
    { exists (pre ++ pre1), []. rewrite forallb_app, Hpre, Hpre1, !app_nil_r. auto. }
    apply IH in H as (pre2 & post2 & -> & Hpre2 & Hpost).
    exists (pre ++ pre1 ++ pre2), post2.
    rewrite !forallb_app, Hpre, Hpre1, Hpre2, <- !app_assoc. auto.
  - apply IH in H as (pre1 & post1 & -> & Hpre1 & [->|[j H]]).
    { exists pre1, []. auto. }
    apply IH in H as (pre2 & post2 & -> & Hpre2 & Hpost).
    exists (pre1 ++ pre2), post2.
    rewrite !forallb_app, Hpre1, Hpre2, <- !app_assoc. auto.
  - apply configure_round_runs in H as (pre & post & -> & Hpre & [->|H]).
    + exists pre, []. auto.
    + exists pre, post. eauto.
Qed.

Lemma configure_backends_runs cfg sched n_threads tr :
  runs (configure_backends cfg sched n_threads) tr tt ->
  forallb is_config tr = true.
Proof.
  unfold configure_backends. intros H.
  apply rounds_runs in H as (pre & post & -> & Hpre & [->|[j H]]).
  - now rewrite app_nil_r.
  - destruct (runs_stop _ _ H).
Qed.

(** The runs of [ggml_graph_compute_helper]: configuration calls, then
    the execution of the graph, then the reset of the scheduler. *)
Lemma helper_runs cfg sched graph n_threads tr r :
  runs (ggml_graph_compute_helper cfg sched graph n_threads) tr r ->
  exists pre status,
    tr = pre ++ [EvSchedGraphCompute sched graph status; EvSchedReset sched]
    /\ forallb is_config pre = true
    /\ r = bool_decide (status = GGML_STATUS_SUCCESS).
Proof.
  unfold ggml_graph_compute_helper. intros H.
  apply runs_bind in H as ([] & pre & tr2 & -> & Hpre & H).
  apply configure_backends_runs in Hpre.
  apply runs_bind in H as (status & tr1 & tr3 & -> & Hs & H).
  apply runs_do in Hs as ->.
  apply runs_bind in H as ([] & tr1 & tr4 & -> & Hr & H).
  apply runs_do in Hr as ->. destruct H as [-> <-].
  exists pre, status. auto.
Qed.

Lemma bind_total {S A B} (h : engine S) (m : proc A) (f : A -> proc B) s :
  is_Some (interp h m s) ->
  (forall a s', is_Some (interp h (f a) s')) ->
  is_Some (interp h (m ≫= f) s).
Proof.
  intros [[[a s'] tr] Hm] Hf. rewrite interp_bind, Hm.
  destruct (Hf a s') as [[[r s''] tr'] ->]. eauto.
Qed.

Lemma do_total {S X} (h : engine S) (e : call X) s :
  responsive h -> returns e = true -> is_Some (interp h (do e) s).
Proof.
  intros Hh He. rewrite interp_do.
  destruct (Hh X e s He) as [[x s'] ->]. eauto.
Qed.

Lemma when_total {S} (h : engine S) (b : bool) (p : proc unit) s :
  is_Some (interp h p s) -> is_Some (interp h (when b p) s).
Proof. destruct b; [trivial|]. cbn. eauto. Qed.

Lemma configure_backend_total {S} (h : engine S) cfg backend n_threads s :
  responsive h ->
  is_Some (interp h (configure_backend cfg backend n_threads) s).
Proof.
  intros Hh. unfold configure_backend.
  apply bind_total; [now apply do_total|]. intros is_cpu s1.
  apply bind_total; [apply when_total; now apply do_total|]. intros _ s2.
  apply bind_total.
  - apply when_total, bind_total; [now apply do_total|]. intros is_blas s3.
    apply when_total. now apply do_total.
  - intros _ s3.
    apply when_total, bind_total; [now apply do_total|]. intros is_metal s4.
    apply when_total. now apply do_total.
Qed.

(** The loop ends before its rounds are used up when the backend count
    is an [int]. *)
Lemma rounds_total {S} (h : engine S) cfg sched n_threads p :
  responsive h -> int_backends h ->
  forall next i,
    (i + Z.pos p <= INT_MAX -> forall s, is_Some (interp h (next (i + Z.pos p)) s)) ->
    i <= INT_MAX ->
    forall s,
      is_Some (interp h (rounds p (configure_round cfg sched n_threads) next i) s).
Proof.
  intros Hh Hint.
  assert (Hround : forall next i,
             (i + 1 <= INT_MAX -> forall s, is_Some (interp h (next (i + 1)) s)) ->
             forall s,
               is_Some (interp h (configure_round cfg sched n_threads next i) s)).
  { intros next i Hnext s. unfold configure_round.
    rewrite interp_bind, interp_do.
    destruct (Hh _ (ggml_backend_sched_get_n_backends sched) s eq_refl)
      as [[n s1] Hn]. rewrite Hn.
    pose proof (Hint _ _ _ _ Hn).
    destruct (i <? n) eqn:Hlt; [|cbn; eauto].
    apply Z.ltb_lt in Hlt.
    assert (Hs : is_Some
              (interp h (backend ← do (ggml_backend_sched_get_backend sched i);
                         configure_backend cfg backend n_threads;;
                         next (i + 1)) s1)).
    { apply bind_total; [now apply do_total|]. intros b s2.
      apply bind_total; [now apply configure_backend_total|]. intros _ s3.
      apply Hnext. lia. }
    destruct Hs as [[[[] s4] t4] ->]. eauto. }
  induction p as [p IH|p IH|]; intros next i Hnext Hi s; cbn [rounds].
  - apply Hround. intros Hi1 s1. apply IH; [|lia].
    intros Hi2 s2. apply IH; [|lia].
    intros Hi3 s3. replace (i + 1 + Z.pos p + Z.pos p) with (i + Z.pos p~1) by lia.
    apply Hnext. lia.
  - apply IH; [|lia].
    intros Hi2 s2. apply IH; [|lia].
    intros Hi3 s3. replace (i + Z.pos p + Z.pos p) with (i + Z.pos p~0) by lia.
    apply Hnext. lia.
  - apply Hround. exact Hnext.
Qed.

Lemma configure_backends_total {S} (h : engine S) cfg sched n_threads s :
  responsive h -> int_backends h ->
  is_Some (interp h (configure_backends cfg sched n_threads) s).
Proof.
  intros Hh Hint. unfold configure_backends.
  apply rounds_total; try assumption.
  - unfold INT_MAX. cbn. lia.
  - unfold INT_MAX. lia.
Qed.

Lemma helper_total {S} (h : engine S) cfg sched graph n_threads s :
  responsive h -> int_backends h ->
  is_Some (interp h (ggml_graph_compute_helper cfg sched graph n_threads) s).
Proof.
  intros Hh Hint. unfold ggml_graph_compute_helper.
  rewrite interp_bind.
  destruct (configure_backends_total h cfg sched n_threads s Hh Hint)
    as [[[[] s1] t1] ->].
  rewrite interp_bind, interp_do.
  destruct (Hh _ (ggml_backend_sched_graph_compute sched graph) s1 eq_refl)
    as [[st s2] ->].
  rewrite interp_bind, interp_do.
  destruct (Hh _ (ggml_backend_sched_reset sched) s2 eq_refl) as [[[] s3] ->].
  cbn. eauto.
Qed.

(** C6.  Under every engine that answers, [ggml_graph_compute_helper]
    returns; its last two calls are the execution of the graph and the
    reset of the scheduler, whatever the status; and it returns true
    exactly when the status is GGML_STATUS_SUCCESS. *)
Theorem ggml_graph_compute_helper_spec {S} (h : engine S) (cfg : build_config)
    (sched : ggml_backend_sched_t) (graph : ggml_cgraph) (n_threads : Z) (s : S) :
  responsive h -> int_backends h ->
  exists t s' pre status,
    interp h (ggml_graph_compute_helper cfg sched graph n_threads) s
    = Some (t, s', pre ++ [EvSchedGraphCompute sched graph status;
                           EvSchedReset sched])
    /\ forallb is_config pre = true
    /\ (t = true <-> status = GGML_STATUS_SUCCESS).
Proof.
  intros Hh Hint.
  destruct (helper_total h cfg sched graph n_threads s Hh Hint)
    as [[[t s'] tr] Hrun].
  destruct (helper_runs cfg sched graph n_threads tr t (interp_runs _ _ _ _ _ _ Hrun))
    as (pre & status & -> & Hpre & ->).
  exists (bool_decide (status = GGML_STATUS_SUCCESS)), s', pre, status.
  split; [exact Hrun|]. split; [exact Hpre|].
  apply bool_decide_eq_true.
Qed.

End DriverFacts.

(** ** The graph builder *)

Module BuilderFacts.
Import CInt CIntFacts Ggml Shapes GgmlFacts Decoder MulMatPad.

Lemma lookup_plus (l l' : ggml_context) (k : nat) :
  (l ++ l') !! (length l + k)%nat = l' !! k.
Proof. rewrite lookup_app_r by lia. f_equal. lia. Qed.

Lemma visit_unfold fuel (ctx : ggml_context) g node :
  visit_graph (S fuel) ctx g node =
  if bool_decide (node ∈ visited g) then Some g
  else
    match ctx !! node with
    | None => None
    | Some t =>
        match foldl (fun og s =>
                       match og with
                       | Some g' => visit_graph fuel ctx g' s
                       | None => None
                       end)
                    (Some (mark_visited node g)) (src t) with
        | None => None
        | Some g' =>
            if decide (op t = GGML_OP_NONE) then
              if n_leafs g' <? size g' then Some (push_leaf node g') else None
            else
              if n_nodes g' <? size g' then Some (push_node node g') else None
        end
    end.
Proof. reflexivity. Qed.

(** Visiting a parameter tensor that was not visited before. *)
Lemma visit_param fuel (ctx : ggml_context) g p t :
  ctx !! p = Some t -> op t = GGML_OP_NONE -> src t = [] ->
  p ∉ visited g -> n_leafs g < size g ->
  visit_graph (S fuel) ctx g p = Some (push_leaf p (mark_visited p g)).
Proof.
  intros Hp Hop Hsrc Hv Hn. rewrite visit_unfold.
  rewrite bool_decide_eq_false_2 by assumption.
  rewrite Hp, Hsrc. cbn [foldl]. rewrite Hop.
  destruct (decide (GGML_OP_NONE = GGML_OP_NONE)); [|congruence].
  unfold n_leafs in *. cbn [size mark_visited leafs].
  now rewrite (proj2 (Z.ltb_lt _ _) Hn).
Qed.

Lemma visit_seen fuel (ctx : ggml_context) g p :
  p ∈ visited g -> visit_graph (S fuel) ctx g p = Some g.
Proof. intros Hv. rewrite visit_unfold. now rewrite bool_decide_eq_true_2. Qed.

(** Visiting an operation with one or two sources. *)
Lemma visit_op1 fuel (ctx : ggml_context) g p t a g1 :
  ctx !! p = Some t -> op t <> GGML_OP_NONE -> src t = [a] ->
  p ∉ visited g ->
  visit_graph fuel ctx (mark_visited p g) a = Some g1 ->
  visit_graph (S fuel) ctx g p =
  if n_nodes g1 <? size g1 then Some (push_node p g1) else None.
Proof.
  intros Hp Hop Hsrc Hv H1. rewrite visit_unfold.
  rewrite bool_decide_eq_false_2 by assumption.
  rewrite Hp, Hsrc. cbn [foldl]. rewrite H1.
  destruct (decide (op t = GGML_OP_NONE)); [congruence|reflexivity].
Qed.

Lemma visit_op2 fuel (ctx : ggml_context) g p t a b g1 g2 :
  ctx !! p = Some t -> op t <> GGML_OP_NONE -> src t = [a; b] ->
  p ∉ visited g ->
  visit_graph fuel ctx (mark_visited p g) a = Some g1 ->
  visit_graph fuel ctx g1 b = Some g2 ->
  visit_graph (S fuel) ctx g p =
  if n_nodes g2 <? size g2 then Some (push_node p g2) else None.
Proof.
  intros Hp Hop Hsrc Hv H1 H2. rewrite visit_unfold.
  rewrite bool_decide_eq_false_2 by assumption.
  rewrite Hp, Hsrc. cbn [foldl]. rewrite H1, H2.
  destruct (decide (op t = GGML_OP_NONE)); [congruence|reflexivity].
Qed.

(** The traversal of the four-stage pipeline from its last tensor. *)
Lemma visit_pipeline (tensors : ggml_context) w b tw tb t_in t_mm t_add t_sm t_am :
  let n := length tensors in
  let ctx0 := tensors ++ [t_in; t_mm; t_add; t_sm; t_am] in
  tensors !! w = Some tw -> tensors !! b = Some tb ->
  is_param tw -> is_param tb ->
  op t_in = GGML_OP_NONE -> src t_in = [] ->
  op t_mm = GGML_OP_MUL_MAT -> src t_mm = [w; n] ->
  op t_add = GGML_OP_ADD -> src t_add = [(n + 1)%nat; b] ->
  op t_sm = GGML_OP_SOFT_MAX -> src t_sm = [(n + 2)%nat] ->
  op t_am = GGML_OP_ARGMAX -> src t_am = [(n + 3)%nat] ->
  exists vis,
    visit_graph (length ctx0) ctx0
      {| size := 8; nodes := []; leafs := []; visited := [] |} (n + 4)%nat
    = Some {| size := 8;
              nodes := [(n + 1)%nat; (n + 2)%nat; (n + 3)%nat; (n + 4)%nat];
              leafs := w :: n :: (if decide (b = w) then [] else [b]);
              visited := vis |}.
Proof.
  intros n ctx0 Hw Hb [Hwop Hwsrc] [Hbop Hbsrc]
         Hin_op Hin_src Hmm_op Hmm_src Hadd_op Hadd_src
         Hsm_op Hsm_src Ham_op Ham_src.
  pose proof (lookup_lt_Some _ _ _ Hw) as Hwlt.
  pose proof (lookup_lt_Some _ _ _ Hb) as Hblt.
  fold n in Hwlt, Hblt.
  assert (Hlen : length ctx0 = S (S (S (S (S n))))).
  { unfold ctx0. rewrite length_app. cbn. lia. }
  rewrite Hlen.
  assert (L0 : ctx0 !! n = Some t_in).
  { unfold ctx0, n. rewrite <- (Nat.add_0_r (length tensors)) at 1.
    now rewrite lookup_plus. }
  assert (L1 : ctx0 !! (n + 1)%nat = Some t_mm) by apply lookup_plus.
  assert (L2 : ctx0 !! (n + 2)%nat = Some t_add) by apply lookup_plus.
  assert (L3 : ctx0 !! (n + 3)%nat = Some t_sm) by apply lookup_plus.
  assert (L4 : ctx0 !! (n + 4)%nat = Some t_am) by apply lookup_plus.
  assert (Lw : ctx0 !! w = Some tw) by (now apply lookup_old).
  assert (Lb : ctx0 !! b = Some tb) by (now apply lookup_old).
  set (g0 := {| size := 8; nodes := []; leafs := []; visited := [] |}).
  set (g4 := mark_visited (n + 1)%nat (mark_visited (n + 2)%nat
               (mark_visited (n + 3)%nat (mark_visited (n + 4)%nat g0)))).
(* the product: its two sources are leafs *)
assert (Vw : visit_graph (S n) ctx0 g4 w
             = Some (push_leaf w (mark_visited w g4))).
{ apply (visit_param n ctx0 g4 w tw Lw Hwop Hwsrc); [|vm_compute; reflexivity].
  cbn. rewrite !elem_of_cons, elem_of_nil. lia. }
assert (Vin : visit_graph (S n) ctx0 (push_leaf w (mark_visited w g4)) n
              = Some (push_leaf n (mark_visited n (push_leaf w (mark_visited w g4))))).
{ apply (visit_param n ctx0 _ n t_in L0 Hin_op Hin_src); [|vm_compute; reflexivity].
  cbn. rewrite !elem_of_cons, elem_of_nil. lia. }
assert (Vmm : exists vis,
           visit_graph (S (S n)) ctx0
             (mark_visited (n + 2)%nat
                (mark_visited (n + 3)%nat (mark_visited (n + 4)%nat g0)))
             (n + 1)%nat
           = Some {| size := 8; nodes := [(n + 1)%nat]; leafs := [w; n];
                     visited := vis |}
           /\ (forall p, p ∈ vis <-> p = n \/ p = w \/ (n + 1 <= p <= n + 4)%nat)).
{ eexists. split.
  - erewrite visit_op2;
      [|exact L1|congruence|exact Hmm_src| |exact Vw|exact Vin].
    + reflexivity.
    + cbn. rewrite !elem_of_cons, elem_of_nil. lia.
  - intros p. cbn. rewrite !elem_of_cons, elem_of_nil. lia. }
destruct Vmm as (vis1 & Vmm & Hvis1).
(* the bias: a leaf, unless it is the weight tensor itself *)
assert (Vb : exists vis,
           visit_graph (S (S n)) ctx0
             {| size := 8; nodes := [(n + 1)%nat]; leafs := [w; n];
                visited := vis1 |} b
           = Some {| size := 8; nodes := [(n + 1)%nat];
                     leafs := w :: n :: (if decide (b = w) then [] else [b]);
                     visited := vis |}
           /\ (forall p, p ∈ vis -> (p < n \/ n <= p <= n + 4)%nat)).
{ destruct (decide (b = w)) as [->|Hne].
  - exists vis1. split.
    + apply visit_seen. cbn. apply Hvis1. lia.
    + intros p Hp. apply Hvis1 in Hp. lia.
  - eexists. split.
    + rewrite (visit_param (S n) ctx0 _ b tb Lb Hbop Hbsrc);
        [reflexivity| |vm_compute; reflexivity].
      cbn. rewrite Hvis1. lia.
    + intros p. cbn. rewrite elem_of_cons, Hvis1. lia. }
destruct Vb as (vis2 & Vb & Hvis2).
assert (Vadd : visit_graph (S (S (S n))) ctx0
                 (mark_visited (n + 3)%nat (mark_visited (n + 4)%nat g0))
                 (n + 2)%nat
               = Some {| size := 8; nodes := [(n + 1)%nat; (n + 2)%nat];
                         leafs := w :: n :: (if decide (b = w) then [] else [b]);
                         visited := vis2 |}).
{ erewrite visit_op2;
    [|exact L2|congruence|exact Hadd_src| |exact Vmm|exact Vb].
  - reflexivity.
  - cbn. rewrite !elem_of_cons, elem_of_nil. lia. }
assert (Vsm : visit_graph (S (S (S (S n)))) ctx0
                (mark_visited (n + 4)%nat g0) (n + 3)%nat
              = Some {| size := 8;
                        nodes := [(n + 1)%nat; (n + 2)%nat; (n + 3)%nat];
                        leafs := w :: n :: (if decide (b = w) then [] else [b]);
                        visited := vis2 |}).
{ erewrite visit_op1; [|exact L3|congruence|exact Hsm_src| |exact Vadd].
  - reflexivity.
  - cbn. rewrite !elem_of_cons, elem_of_nil. lia. }
eexists.
erewrite visit_op1; [|exact L4|congruence|exact Ham_src| |exact Vsm].
- reflexivity.
- cbn. apply not_elem_of_nil.
Qed.

(** *** The names graph expansion gives *)

Lemma visit_parents_unfold fuel (ctx : ggml_context) g node :
  ggml_visit_parents (S fuel) ctx g node =
  if bool_decide (node ∈ visited g) then Some (g, ctx)
  else
    match ctx !! node with
    | None => None
    | Some t =>
        match foldl (fun acc s =>
                       match acc with
                       | Some (g', ctx') => ggml_visit_parents fuel ctx' g' s
                       | None => None
                       end)
                    (Some (mark_visited node g, ctx)) (src t) with
        | None => None
        | Some (g', ctx') =>
            match ctx' !! node with
            | None => None
            | Some t' =>
                if decide (op t' = GGML_OP_NONE) then
                  if n_leafs g' <? size g' then
                    Some (push_leaf node g',
                          <[node := name_unnamed
                                      ("leaf_" +:+ pretty (n_leafs g')) t']> ctx')
                  else None
                else
                  if n_nodes g' <? size g' then
                    Some (push_node node g',
                          <[node := name_unnamed
                                      ("node_" +:+ pretty (n_nodes g')) t']> ctx')
                  else None
            end
        end
    end.
Proof. reflexivity. Qed.

Lemma ggml_name_cons c s :
  ggml_name (String c s) = String c (String.substring 0 62 s).
Proof. reflexivity. Qed.

Lemma slot_name_head s :
  slot_name s -> exists r, s = "l" +:+ r \/ s = "n" +:+ r.
Proof.
  intros [k [-> | ->]]; eexists; [left|right]; apply ggml_name_cons.
Qed.

Lemma slot_name_nonempty s : slot_name s -> s <> EmptyString.
Proof. intros [r [-> | ->]]%slot_name_head; discriminate. Qed.

Lemma slot_name_not_input s : slot_name s -> s <> "encoder_out".
Proof. intros [r [-> | ->]]%slot_name_head; discriminate. Qed.

(** A tensor that graph expansion names keeps every other field. *)
Lemma named_fields t t' :
  named_by_graph t t' ->
  type t' = type t /\ ne t' = ne t /\ nb t' = nb t /\ op t' = op t
  /\ flag_input t' = flag_input t /\ flag_output t' = flag_output t
  /\ src t' = src t /\ view_src t' = view_src t
  /\ view_offs t' = view_offs t /\ data t' = data t.
Proof. intros [->|(_ & s & _ & ->)]; repeat split. Qed.

Lemma named_keeps t t' :
  named_by_graph t t' -> name t <> EmptyString -> t' = t.
Proof. intros [->|(He & _)] Hn; [reflexivity|contradiction]. Qed.

Lemma named_not_input t t' :
  named_by_graph t t' ->
  (name t' = "encoder_out" <-> name t = "encoder_out").
Proof.
  intros [->|(He & s & Hs & ->)]; [reflexivity|].
  cbn [name set_name]. rewrite He. split; [|discriminate].
  intros ->. now apply slot_name_not_input in Hs.
Qed.

Lemma named_trans t t' t'' :
  named_by_graph t t' -> named_by_graph t' t'' -> named_by_graph t t''.
Proof.
  intros [->|(He & s & Hs & ->)] H2; [exact H2|].
  destruct H2 as [->|(He' & _)].
  - right. eauto.
  - cbn [name set_name] in He'. now apply slot_name_nonempty in Hs.
Qed.

Lemma name_unnamed_named nm t :
  slot_name (ggml_name nm) -> named_by_graph t (name_unnamed nm t).
Proof.
  intros Hs. unfold name_unnamed.
  destruct (decide (name t = EmptyString)) as [He|]; [|now left].
  right. eauto.
Qed.

Lemma named_ctx_refl (c : ggml_context) : Forall2 named_by_graph c c.
Proof. induction c; constructor; [now left|assumption]. Qed.

Lemma named_ctx_trans (c1 c2 c3 : ggml_context) :
  Forall2 named_by_graph c1 c2 -> Forall2 named_by_graph c2 c3 ->
  Forall2 named_by_graph c1 c3.
Proof. apply Forall2_trans. exact named_trans. Qed.

Lemma named_ctx_lookup (c c' : ggml_context) i t :
  Forall2 named_by_graph c c' -> c !! i = Some t ->
  exists t', c' !! i = Some t' /\ named_by_graph t t'.
Proof. intros H Hi. apply (Forall2_lookup_l _ _ _ _ _ H Hi). Qed.

Lemma named_ctx_lookup_r (c c' : ggml_context) i t' :
  Forall2 named_by_graph c c' -> c' !! i = Some t' ->
  exists t, c !! i = Some t /\ named_by_graph t t'.
Proof. intros H Hi. apply (Forall2_lookup_r _ _ _ _ _ H Hi). Qed.

Lemma named_ctx_insert (c c' : ggml_context) i t t'' :
  Forall2 named_by_graph c c' -> c !! i = Some t -> named_by_graph t t'' ->
  Forall2 named_by_graph c (<[i := t'']> c').
Proof.
  intros H Hi Hn. rewrite <- (list_insert_id c i t Hi).
  now apply Forall2_insert.
Qed.

Lemma foldl_None {A B} (f : option A -> B -> option A) (l : list B) :
  (forall b, f None b = None) -> foldl f None l = None.
Proof. intros Hf. induction l as [|b l IH]; [reflexivity|]. cbn. now rewrite Hf. Qed.

Lemma fold_visit_ext fuel (c c' : ggml_context) :
  (forall g node, visit_graph fuel c g node = visit_graph fuel c' g node) ->
  forall l og,
    foldl (fun og s => match og with
                       | Some g' => visit_graph fuel c g' s
                       | None => None
                       end) og l
    = foldl (fun og s => match og with
                         | Some g' => visit_graph fuel c' g' s
                         | None => None
                         end) og l.
Proof.
  intros H l. induction l as [|s l IHl]; intros og; [reflexivity|].
  cbn [foldl]. destruct og; [rewrite H|]; apply IHl.
Qed.

(** The arrays of the graph do not depend on the names. *)
Lemma visit_graph_ext fuel :
  forall (c c' : ggml_context) g node,
    Forall2 named_by_graph c c' ->
    visit_graph fuel c g node = visit_graph fuel c' g node.
Proof.
  induction fuel as [|fuel IH]; intros c c' g node H; [reflexivity|].
  rewrite !visit_unfold.
  destruct (bool_decide (node ∈ visited g)); [reflexivity|].
  destruct (c !! node) as [t|] eqn:Hn.
  - destruct (named_ctx_lookup c c' node t H Hn) as (t' & -> & Ht).
    destruct (named_fields t t' Ht) as (_ & _ & _ & Hop & _ & _ & Hsrc & _).
    rewrite Hsrc, Hop.
    rewrite (fold_visit_ext fuel c c' (fun g0 n0 => IH c c' g0 n0 H)).
    reflexivity.
  - assert (Hn' : c' !! node = None).
    { apply lookup_ge_None. apply lookup_ge_None in Hn.
      now rewrite <- (Forall2_length _ _ _ H). }
    now rewrite Hn'.
Qed.

Lemma fold_visit_names fuel :
  (forall (ctx : ggml_context) g node,
      match ggml_visit_parents fuel ctx g node with
      | Some (g', ctx') =>
          visit_graph fuel ctx g node = Some g'
          /\ Forall2 named_by_graph ctx ctx'
      | None => visit_graph fuel ctx g node = None
      end) ->
  forall l (ctx0 ctx : ggml_context) g,
    Forall2 named_by_graph ctx0 ctx ->
    match foldl (fun acc s =>
                   match acc with
                   | Some (g', ctx') => ggml_visit_parents fuel ctx' g' s
                   | None => None
                   end) (Some (g, ctx)) l with
    | Some (g', ctx') =>
        foldl (fun og s => match og with
                           | Some g' => visit_graph fuel ctx0 g' s
                           | None => None
                           end) (Some g) l = Some g'
        /\ Forall2 named_by_graph ctx0 ctx'
    | None =>
        foldl (fun og s => match og with
                           | Some g' => visit_graph fuel ctx0 g' s
                           | None => None
                           end) (Some g) l = None
    end.
Proof.
  intros IH l. induction l as [|s l IHl]; intros ctx0 ctx g H0; cbn [foldl].
  - auto.
  - specialize (IH ctx g s).
    rewrite (visit_graph_ext fuel ctx0 ctx g s H0).
    destruct (ggml_visit_parents fuel ctx g s) as [[g1 c1]|].
    + destruct IH as [-> H1]. apply IHl. eapply named_ctx_trans; eassumption.
    + rewrite IH. rewrite !foldl_None by reflexivity. reflexivity.
Qed.

(** [ggml_visit_parents] fills the graph as the traversal without names
    does, and changes nothing in the context but the names of tensors
    that had none. *)
Lemma visit_names fuel :
  forall (ctx : ggml_context) g node,
    match ggml_visit_parents fuel ctx g node with
    | Some (g', ctx') =>
        visit_graph fuel ctx g node = Some g'
        /\ Forall2 named_by_graph ctx ctx'
    | None => visit_graph fuel ctx g node = None
    end.
Proof.
  induction fuel as [|fuel IH]; intros ctx g node; [reflexivity|].
  rewrite visit_parents_unfold, visit_unfold.
  destruct (bool_decide (node ∈ visited g));
    [split; [reflexivity|apply named_ctx_refl]|].
  destruct (ctx !! node) as [t|] eqn:Hn; [|reflexivity].
  pose proof (fold_visit_names fuel IH (src t) ctx ctx (mark_visited node g)
                (named_ctx_refl ctx)) as Hf.
  destruct (foldl _ (Some (mark_visited node g, ctx)) (src t)) as [[g' ctx']|].
  - destruct Hf as [-> Hc].
    destruct (named_ctx_lookup ctx ctx' node t Hc Hn) as (t' & -> & Ht).
    destruct (named_fields t t' Ht) as (_ & _ & _ & Hop & _).
    rewrite Hop.
    destruct (decide (op t = GGML_OP_NONE)).
    + destruct (n_leafs g' <? size g'); [|reflexivity].
      split; [reflexivity|].
      apply (named_ctx_insert ctx ctx' node t); [assumption..|].
      eapply named_trans; [exact Ht|].
      apply name_unnamed_named. exists (n_leafs g'). now left.
    + destruct (n_nodes g' <? size g'); [|reflexivity].
      split; [reflexivity|].
      apply (named_ctx_insert ctx ctx' node t); [assumption..|].
      eapply named_trans; [exact Ht|].
      apply name_unnamed_named. exists (n_nodes g'). now right.
  - now rewrite Hf.
Qed.

(** Graph expansion only appends to the arrays of the graph, and
    touches no tensor outside them. *)
Lemma fold_visit_frame fuel :
  (forall (ctx : ggml_context) g node g' ctx',
      ggml_visit_parents fuel ctx g node = Some (g', ctx') ->
      (forall q, q ∈ leafs g ++ nodes g -> q ∈ leafs g' ++ nodes g')
      /\ (forall p, p ∉ leafs g' ++ nodes g' -> ctx' !! p = ctx !! p)) ->
  forall l (ctx : ggml_context) g g' ctx',
    foldl (fun acc s =>
             match acc with
             | Some (g', ctx') => ggml_visit_parents fuel ctx' g' s
             | None => None
             end) (Some (g, ctx)) l = Some (g', ctx') ->
    (forall q, q ∈ leafs g ++ nodes g -> q ∈ leafs g' ++ nodes g')
    /\ (forall p, p ∉ leafs g' ++ nodes g' -> ctx' !! p = ctx !! p).
Proof.
  intros IH l. induction l as [|s l IHl]; intros ctx g g' ctx'; cbn [foldl].
  - intros [= <- <-]. auto.
  - destruct (ggml_visit_parents fuel ctx g s) as [[g1 c1]|] eqn:Hs.
    + intros Hl. destruct (IH _ _ _ _ _ Hs) as [M1 F1].
      destruct (IHl _ _ _ _ Hl) as [M2 F2].
      split; [auto|].
      intros p Hp. rewrite F2 by assumption. apply F1. intros Hq. auto.
    + rewrite foldl_None by reflexivity. discriminate.
Qed.

Lemma visit_frame fuel :
  forall (ctx : ggml_context) g node g' ctx',
    ggml_visit_parents fuel ctx g node = Some (g', ctx') ->
    (forall q, q ∈ leafs g ++ nodes g -> q ∈ leafs g' ++ nodes g')
    /\ (forall p, p ∉ leafs g' ++ nodes g' -> ctx' !! p = ctx !! p).
Proof.
  induction fuel as [|fuel IH]; intros ctx g node g' ctx'; [discriminate|].
  rewrite visit_parents_unfold.
  destruct (bool_decide (node ∈ visited g)); [intros [= <- <-]; auto|].
  destruct (ctx !! node) as [t|]; [|discriminate].
  destruct (foldl _ (Some (mark_visited node g, ctx)) (src t))
    as [[g1 c1]|] eqn:Hf; [|discriminate].
  destruct (fold_visit_frame fuel IH _ _ _ _ _ Hf) as [M1 F1].
  cbn [mark_visited leafs nodes] in M1.
  destruct (c1 !! node) as [t'|]; [|discriminate].
  destruct (decide (op t' = GGML_OP_NONE)).
  - destruct (n_leafs g1 <? size g1); [|discriminate].
    intros [= <- <-]. cbn [push_leaf leafs nodes]. split.
    + intros q Hq. apply M1 in Hq. rewrite !elem_of_app in *. tauto.
    + intros p Hp. rewrite !elem_of_app, list_elem_of_singleton in Hp.
      rewrite list_lookup_insert_ne by (intros ->; tauto).
      apply F1. rewrite elem_of_app. tauto.
  - destruct (n_nodes g1 <? size g1); [|discriminate].
    intros [= <- <-]. cbn [push_node leafs nodes]. split.
    + intros q Hq. apply M1 in Hq. rewrite !elem_of_app in *. tauto.
    + intros p Hp. rewrite !elem_of_app, list_elem_of_singleton in Hp.
      rewrite list_lookup_insert_ne by (intros ->; tauto).
      apply F1. rewrite elem_of_app. tauto.
Qed.

Lemma forward_expand_frame (ctx : ggml_context) g t g' ctx' :
  ggml_build_forward_expand g t ctx = Some (g', ctx') ->
  forall p, p ∉ leafs g' ++ nodes g' -> ctx' !! p = ctx !! p.
Proof.
  unfold ggml_build_forward_expand.
  destruct (ggml_visit_parents (length ctx) ctx g t) as [[g1 c1]|] eqn:Hv;
    [|discriminate].
  destruct (_ && _); [discriminate|]. intros [= <- <-].
  apply (visit_frame _ _ _ _ _ _ Hv).
Qed.

Lemma forward_expand_graph (ctx : ggml_context) g t g' :
  visit_graph (length ctx) ctx g t = Some g' ->
  (0 <? n_nodes g' - n_nodes g)
  && negb (bool_decide (last (nodes g') = Some t)) = false ->
  exists ctx', ggml_build_forward_expand g t ctx = Some (g', ctx')
               /\ Forall2 named_by_graph ctx ctx'.
Proof.
  intros Hv Ha. unfold ggml_build_forward_expand.
  pose proof (visit_names (length ctx) ctx g t) as H.
  destruct (ggml_visit_parents (length ctx) ctx g t) as [[g1 c1]|].
  - destruct H as [H1 H2]. rewrite Hv in H1. injection H1 as <-.
    rewrite Ha. eauto.
  - congruence.
Qed.

Lemma forward_expand_None (ctx : ggml_context) g t :
  visit_graph (length ctx) ctx g t = None ->
  ggml_build_forward_expand g t ctx = None.
Proof.
  intros Hv. unfold ggml_build_forward_expand.
  pose proof (visit_names (length ctx) ctx g t) as H.
  destruct (ggml_visit_parents (length ctx) ctx g t) as [[g1 c1]|];
    [|reflexivity].
  destruct H as [H1 _]. congruence.
Qed.

Lemma modify_plus (l l' : ggml_context) (k : nat) (t : ggml_tensor) f :
  l' !! k = Some t ->
  modify (length l + k)%nat f (l ++ l') = Some (tt, l ++ <[k := f t]> l').
Proof.
  intros Hk. unfold modify. rewrite lookup_plus, Hk.
  now rewrite insert_app_r.
Qed.

Lemma soft_max_contiguous (ta : ggml_tensor) :
  ggml_is_contiguous (new_tensor (type ta) (ne ta) None 0 0) = true.
Proof.
  unfold ggml_is_contiguous, new_tensor. cbn. now rewrite !Z.eqb_refl.
Qed.

Lemma soft_max_is_matrix w b n tw te :
  ggml_is_matrix (soft_max_tensor (n + 2)%nat (pipeline_add w b n tw te)) = true.
Proof. reflexivity. Qed.

Lemma build_direct_eq (tensors : ggml_context) cfg ctx state tw tb te :
  let w := ctc_out_linear_weight (model ctx) in
  let b := ctc_out_linear_bias (model ctx) in
  let n := length tensors in
  tensors !! w = Some tw -> tensors !! b = Some tb ->
  tensors !! encoder_out state = Some te ->
  ggml_mul_mat_macro cfg w n (tensors ++ [pipeline_in te])
  = ggml_mul_mat w n (tensors ++ [pipeline_in te]) ->
  sense_voice_build_graph_ctc_decoder cfg ctx state tensors =
  if pipeline_shapes_ok w n tw tb te then
    ggml_build_forward_expand
      {| size := 8; nodes := []; leafs := []; visited := [] |}
      (n + 4)%nat (tensors ++ pipeline w b n tw te)
  else None.
Proof.
  intros w b n Hw Hb He Hmacro.
  unfold sense_voice_build_graph_ctc_decoder, ggml_new_graph_custom,
    ggml_new_tensor_2d, ggml_set_name, ggml_set_input, ggml_set_output,
    bind, ret, deref.
  rewrite He. rewrite new_tensor_eq. rewrite !modify_new.
  fold (pipeline_in te). fold w b. subst n. rewrite Hmacro.
  unfold pipeline_shapes_ok.
  rewrite ggml_mul_mat_eq, (lookup_old _ _ w tw Hw), lookup_new.
  destruct (ggml_can_mul_mat tw (pipeline_in te)); [|reflexivity].
  destruct (ggml_is_transposed tw); [reflexivity|]. cbn [negb andb].
  fold (pipeline_mul_mat w (length tensors) tw te).
  rewrite <- app_assoc. cbn [app].
  rewrite length_app. cbn [length].
  rewrite ggml_add_eq, lookup_plus, (lookup_old _ _ b tb Hb). cbn [lookup list_lookup].
  destruct (ggml_can_repeat tb (pipeline_mul_mat w (length tensors) tw te));
    [|reflexivity].
  fold (pipeline_add w b (length tensors) tw te).
  rewrite <- app_assoc. cbn [app].
  rewrite length_app. cbn [length].
  rewrite ggml_soft_max_eq, lookup_plus. cbn [lookup list_lookup].
  unfold pipeline_add at 1, add_tensor at 1.
  change (ggml_is_contiguous (set_op _ _ ?t)) with (ggml_is_contiguous t).
  rewrite soft_max_contiguous.
  rewrite <- app_assoc. cbn [app].
  rewrite length_app. cbn [length].
  rewrite ggml_argmax_eq, lookup_plus. cbn [lookup list_lookup].
  rewrite soft_max_is_matrix.
  rewrite <- app_assoc. cbn [app].
  rewrite length_app. cbn [length].
  erewrite (modify_plus tensors _ 3) by reflexivity. cbn [insert list_insert].
  erewrite (modify_plus tensors _ 4) by reflexivity. cbn [insert list_insert].
  fold (pipeline_soft_max w b (length tensors) tw te).
  fold (pipeline_argmax w b (length tensors) tw te).
  fold (pipeline w b (length tensors) tw te).
  reflexivity.
Qed.

(** What the builder returns when the projection is the direct product:
    the graph of the pipeline, and the context with the five tensors of
    the pipeline appended, up to the names graph expansion gives. *)
Lemma build_direct (tensors : ggml_context) cfg ctx state tw tb te :
  let w := ctc_out_linear_weight (model ctx) in
  let b := ctc_out_linear_bias (model ctx) in
  let n := length tensors in
  tensors !! w = Some tw -> tensors !! b = Some tb ->
  tensors !! encoder_out state = Some te ->
  is_param tw -> is_param tb ->
  ggml_mul_mat_macro cfg w n (tensors ++ [pipeline_in te])
  = ggml_mul_mat w n (tensors ++ [pipeline_in te]) ->
  (pipeline_shapes_ok w n tw tb te = true
   /\ exists vis ctx0,
       sense_voice_build_graph_ctc_decoder cfg ctx state tensors =
       Some ({| size := 8;
                nodes := [(n + 1)%nat; (n + 2)%nat; (n + 3)%nat; (n + 4)%nat];
                leafs := w :: n :: (if decide (b = w) then [] else [b]);
                visited := vis |}, ctx0)
       /\ Forall2 named_by_graph (tensors ++ pipeline w b n tw te) ctx0)
  \/ (pipeline_shapes_ok w n tw tb te = false
      /\ sense_voice_build_graph_ctc_decoder cfg ctx state tensors = None).
Proof.
  intros w b n Hw Hb He Hpw Hpb Hmacro.
  rewrite (build_direct_eq tensors cfg ctx state tw tb te Hw Hb He Hmacro).
  fold w b n.
  destruct (pipeline_shapes_ok w n tw tb te); [left|right; now split].
  split; [reflexivity|].
  destruct (visit_pipeline tensors w b tw tb
              (pipeline_in te) (pipeline_mul_mat w n tw te)
              (pipeline_add w b n tw te) (pipeline_soft_max w b n tw te)
              (pipeline_argmax w b n tw te) Hw Hb Hpw Hpb
              eq_refl eq_refl eq_refl eq_refl eq_refl eq_refl
              eq_refl eq_refl eq_refl eq_refl) as (vis & Hvisit).
  fold n in Hvisit. fold (pipeline w b n tw te) in Hvisit.
  destruct (forward_expand_graph _ _ _ _ Hvisit) as (ctx0 & Hexp & Hnamed).
  { cbn [nodes last]. rewrite bool_decide_eq_true_2 by reflexivity.
    apply andb_false_r. }
  exists vis, ctx0. split; assumption.
Qed.

Lemma visit_op1_none fuel (ctx : ggml_context) g p t a :
  ctx !! p = Some t -> src t = [a] ->
  p ∉ visited g ->
  visit_graph fuel ctx (mark_visited p g) a = None ->
  visit_graph (S fuel) ctx g p = None.
Proof.
  intros Hp Hsrc Hv H1. rewrite visit_unfold.
  rewrite bool_decide_eq_false_2 by assumption.
  rewrite Hp, Hsrc. cbn [foldl]. now rewrite H1.
Qed.

Ltac fresh_ptr :=
  repeat match goal with v := _ : list nat |- _ => subst v end;
  cbn; rewrite ?elem_of_cons, ?elem_of_nil; lia.

(** The traversal of the pipeline whose projection is split in two: the
    eight tensors of the split and the bias sum fill the eight node
    slots, and the soft-max finds none left. *)
Lemma visit_split (tensors : ggml_context) w b tw tb
    t_in x_0 x_1 y_0 y_1 za zb z_0 z_1 z t_add t_sm t_am p0 p1 :
  let n := length tensors in
  let ctx0 := tensors ++ [t_in; x_0; x_1; y_0; y_1; za; zb; z; t_add; t_sm; t_am] in
  (p0 = (n + 5)%nat /\ p1 = (n + 6)%nat /\ za = z_0 /\ zb = z_1)
  \/ (p0 = (n + 6)%nat /\ p1 = (n + 5)%nat /\ za = z_1 /\ zb = z_0) ->
  tensors !! w = Some tw -> tensors !! b = Some tb ->
  is_param tw -> is_param tb ->
  op t_in = GGML_OP_NONE -> src t_in = [] ->
  op x_0 = GGML_OP_VIEW -> src x_0 = [w] ->
  op x_1 = GGML_OP_VIEW -> src x_1 = [w] ->
  op y_0 = GGML_OP_VIEW -> src y_0 = [n] ->
  op y_1 = GGML_OP_VIEW -> src y_1 = [n] ->
  op z_0 = GGML_OP_MUL_MAT -> src z_0 = [(n + 1)%nat; (n + 3)%nat] ->
  op z_1 = GGML_OP_MUL_MAT -> src z_1 = [(n + 2)%nat; (n + 4)%nat] ->
  op z = GGML_OP_ADD -> src z = [p0; p1] ->
  op t_add = GGML_OP_ADD -> src t_add = [(n + 7)%nat; b] ->
  op t_sm = GGML_OP_SOFT_MAX -> src t_sm = [(n + 8)%nat] ->
  op t_am = GGML_OP_ARGMAX -> src t_am = [(n + 9)%nat] ->
  visit_graph (length ctx0) ctx0
    {| size := 8; nodes := []; leafs := []; visited := [] |} (n + 10)%nat
  = None.
Proof.
  intros n ctx0 Hord Hw Hb [Hwop Hwsrc] [Hbop Hbsrc]
         Hin_op Hin_src Hx0_op Hx0_src Hx1_op Hx1_src Hy0_op Hy0_src
         Hy1_op Hy1_src Hz0_op Hz0_src Hz1_op Hz1_src Hz_op Hz_src
         Hadd_op Hadd_src Hsm_op Hsm_src Ham_op Ham_src.
  pose proof (lookup_lt_Some _ _ _ Hw) as Hwlt.
  pose proof (lookup_lt_Some _ _ _ Hb) as Hblt.
  fold n in Hwlt, Hblt.
  assert (Hlen : length ctx0 = (11 + n)%nat).
  { unfold ctx0. rewrite length_app. cbn. lia. }
  rewrite Hlen. cbn [Nat.add].
  assert (L0 : ctx0 !! n = Some t_in).
  { unfold ctx0, n. rewrite <- (Nat.add_0_r (length tensors)) at 1.
    now rewrite lookup_plus. }
  assert (L1 : ctx0 !! (n + 1)%nat = Some x_0) by apply lookup_plus.
  assert (L2 : ctx0 !! (n + 2)%nat = Some x_1) by apply lookup_plus.
  assert (L3 : ctx0 !! (n + 3)%nat = Some y_0) by apply lookup_plus.
  assert (L4 : ctx0 !! (n + 4)%nat = Some y_1) by apply lookup_plus.
  assert (L5 : ctx0 !! p0 = Some z_0).
  { destruct Hord as [(-> & _ & -> & _)|(-> & _ & _ & ->)]; apply lookup_plus. }
  assert (L6 : ctx0 !! p1 = Some z_1).
  { destruct Hord as [(_ & -> & _ & ->)|(_ & -> & -> & _)]; apply lookup_plus. }
  assert (Hp : (p0 = (n + 5)%nat /\ p1 = (n + 6)%nat)
               \/ (p0 = (n + 6)%nat /\ p1 = (n + 5)%nat)) by tauto.
  clear Hord.
  assert (L7 : ctx0 !! (n + 7)%nat = Some z) by apply lookup_plus.
  assert (L8 : ctx0 !! (n + 8)%nat = Some t_add) by apply lookup_plus.
  assert (L9 : ctx0 !! (n + 9)%nat = Some t_sm) by apply lookup_plus.
  assert (L10 : ctx0 !! (n + 10)%nat = Some t_am) by apply lookup_plus.
  assert (Lw : ctx0 !! w = Some tw) by (now apply lookup_old).
  assert (Lb : ctx0 !! b = Some tb) by (now apply lookup_old).
  set (g0 := {| size := 8; nodes := []; leafs := []; visited := [] |}).
  set (v0 := [p0; (n + 7)%nat; (n + 8)%nat; (n + 9)%nat; (n + 10)%nat]).
  set (v2 := n :: (n + 3)%nat :: w :: (n + 1)%nat :: v0).
(* z_0 = x_0 @ y_0 *)
assert (V1 : visit_graph (S (S (S (S (S (S n)))))) ctx0
               {| size := 8; nodes := []; leafs := []; visited := v0 |}
               (n + 1)%nat
             = Some {| size := 8; nodes := [(n + 1)%nat]; leafs := [w];
                       visited := w :: (n + 1)%nat :: v0 |}).
{ erewrite visit_op1; [|exact L1|congruence|exact Hx0_src| |].
  3:{ apply (visit_param _ ctx0 _ w tw Lw Hwop Hwsrc);
        [fresh_ptr|vm_compute; reflexivity]. }
  - reflexivity.
  - fresh_ptr. }
assert (V2 : visit_graph (S (S (S (S (S (S n)))))) ctx0
               {| size := 8; nodes := [(n + 1)%nat]; leafs := [w];
                  visited := w :: (n + 1)%nat :: v0 |} (n + 3)%nat
             = Some {| size := 8; nodes := [(n + 1)%nat; (n + 3)%nat];
                       leafs := [w; n]; visited := v2 |}).
{ erewrite visit_op1; [|exact L3|congruence|exact Hy0_src| |].
  3:{ apply (visit_param _ ctx0 _ n t_in L0 Hin_op Hin_src);
        [fresh_ptr|vm_compute; reflexivity]. }
  - reflexivity.
  - fresh_ptr. }
assert (V3 : visit_graph (S (S (S (S (S (S (S n))))))) ctx0
               {| size := 8; nodes := []; leafs := [];
                  visited := [(n + 7)%nat; (n + 8)%nat; (n + 9)%nat; (n + 10)%nat] |}
               p0
             = Some {| size := 8;
                       nodes := [(n + 1)%nat; (n + 3)%nat; p0];
                       leafs := [w; n]; visited := v2 |}).
{ erewrite visit_op2; [|exact L5|congruence|exact Hz0_src| |exact V1|exact V2].
  - reflexivity.
  - fresh_ptr. }
(* z_1 = x_1 @ y_1: the weight and the input were visited already *)
assert (V4 : visit_graph (S (S (S (S (S (S n)))))) ctx0
               {| size := 8;
                  nodes := [(n + 1)%nat; (n + 3)%nat; p0];
                  leafs := [w; n]; visited := p1 :: v2 |} (n + 2)%nat
             = Some {| size := 8;
                       nodes := [(n + 1)%nat; (n + 3)%nat; p0; (n + 2)%nat];
                       leafs := [w; n];
                       visited := (n + 2)%nat :: p1 :: v2 |}).
{ erewrite visit_op1; [|exact L2|congruence|exact Hx1_src| |].
  3:{ apply visit_seen. fresh_ptr. }
  - reflexivity.
  - fresh_ptr. }
assert (V5 : visit_graph (S (S (S (S (S (S n)))))) ctx0
               {| size := 8;
                  nodes := [(n + 1)%nat; (n + 3)%nat; p0; (n + 2)%nat];
                  leafs := [w; n];
                  visited := (n + 2)%nat :: p1 :: v2 |} (n + 4)%nat
             = Some {| size := 8;
                       nodes := [(n + 1)%nat; (n + 3)%nat; p0;
                                 (n + 2)%nat; (n + 4)%nat];
                       leafs := [w; n];
                       visited := (n + 4)%nat :: (n + 2)%nat :: p1 :: v2 |}).
{ erewrite visit_op1; [|exact L4|congruence|exact Hy1_src| |].
  3:{ apply visit_seen. fresh_ptr. }
  - reflexivity.
  - fresh_ptr. }
set (v6 := (n + 4)%nat :: (n + 2)%nat :: p1 :: v2).
assert (V6 : visit_graph (S (S (S (S (S (S (S n))))))) ctx0
               {| size := 8;
                  nodes := [(n + 1)%nat; (n + 3)%nat; p0];
                  leafs := [w; n]; visited := v2 |} p1
             = Some {| size := 8;
                       nodes := [(n + 1)%nat; (n + 3)%nat; p0;
                                 (n + 2)%nat; (n + 4)%nat; p1];
                       leafs := [w; n]; visited := v6 |}).
{ erewrite visit_op2; [|exact L6|congruence|exact Hz1_src| |exact V4|exact V5].
  - reflexivity.
  - fresh_ptr. }
set (g7 := {| size := 8;
              nodes := [(n + 1)%nat; (n + 3)%nat; p0;
                        (n + 2)%nat; (n + 4)%nat; p1; (n + 7)%nat];
              leafs := [w; n]; visited := v6 |}).
assert (V7 : visit_graph (S (S (S (S (S (S (S (S n)))))))) ctx0
               (mark_visited (n + 8)%nat (mark_visited (n + 9)%nat
                  (mark_visited (n + 10)%nat g0))) (n + 7)%nat = Some g7).
{ erewrite visit_op2; [|exact L7|congruence|exact Hz_src| |exact V3|exact V6].
  - reflexivity.
  - fresh_ptr. }
(* the bias, then the bias sum: the eighth node *)
assert (V8 : exists g8,
           visit_graph (S (S (S (S (S (S (S (S n)))))))) ctx0 g7 b = Some g8
           /\ nodes g8 = nodes g7 /\ size g8 = 8).
{ destruct (decide (b = w)) as [->|Hne].
  - exists g7. split; [|split; reflexivity]. apply visit_seen. fresh_ptr.
  - eexists. split.
    + apply (visit_param _ ctx0 _ b tb Lb Hbop Hbsrc);
        [fresh_ptr|vm_compute; reflexivity].
    + split; reflexivity. }
destruct V8 as (g8 & V8 & Hn8 & Hs8).
assert (V9 : exists g9,
           visit_graph (S (S (S (S (S (S (S (S (S n))))))))) ctx0
             (mark_visited (n + 9)%nat (mark_visited (n + 10)%nat g0))
             (n + 8)%nat = Some g9
           /\ n_nodes g9 = 8 /\ size g9 = 8).
{ eexists. split.
  - erewrite visit_op2; [|exact L8|congruence|exact Hadd_src| |exact V7|exact V8].
    + unfold n_nodes. rewrite Hn8, Hs8. reflexivity.
    + fresh_ptr.
  - unfold n_nodes. cbn. rewrite Hn8, Hs8. split; reflexivity. }
destruct V9 as (g9 & V9 & Hn9 & Hs9).
(* no slot is left for the soft-max *)
assert (V10 : visit_graph (S (S (S (S (S (S (S (S (S (S n)))))))))) ctx0
                (mark_visited (n + 10)%nat g0) (n + 9)%nat = None).
{ erewrite visit_op1; [|exact L9|congruence|exact Hsm_src| |exact V9].
  - rewrite Hn9, Hs9. reflexivity.
  - fresh_ptr. }
eapply visit_op1_none; [exact L10|exact Ham_src| |exact V10].
cbn. apply not_elem_of_nil.
Qed.

Lemma build_split (tensors : ggml_context) cfg ctx state tw tb te :
  let w := ctc_out_linear_weight (model ctx) in
  let b := ctc_out_linear_bias (model ctx) in
  tensors !! w = Some tw -> tensors !! b = Some tb ->
  tensors !! encoder_out state = Some te ->
  is_param tw -> is_param tb ->
  GGML_USE_METAL cfg = true ->
  Z.rem (d0 (ne tw)) 32 <> 0 -> ~ Z.quot (d0 (ne tw)) 32 < 8 ->
  sense_voice_build_graph_ctc_decoder cfg ctx state tensors = None.
Proof.
  intros w b Hw Hb He Hpw Hpb Hmetal Hr Hq.
  unfold sense_voice_build_graph_ctc_decoder, ggml_new_graph_custom,
    ggml_new_tensor_2d, ggml_set_name, ggml_set_input, ggml_set_output,
    ggml_mul_mat_macro, bind, ret, deref.
  rewrite He, Hmetal. rewrite new_tensor_eq. rewrite !modify_new.
  fold (pipeline_in te). fold w b.
  set (t_in := pipeline_in te).
  assert (Hin : op t_in = GGML_OP_NONE /\ src t_in = []) by (split; reflexivity).
  clearbody t_in. destruct Hin as [Hin_op Hin_src].
  rewrite (pad_split_eq cfg (tensors ++ [t_in]) w (length tensors) tw t_in 32
             (lookup_old _ _ w tw Hw) (lookup_new _ _) ltac:(lia) Hr Hq).
(* x_0 *)
rewrite ggml_view_3d_eq, (lookup_old _ _ w tw Hw).
destruct (view_base _ w tw 0) as [[[vs0 vo0] dat0]|]; [|reflexivity].
rewrite lookup_new.
match goal with |- context [view_tensor w tw ?a ?b ?c ?d ?e vs0 vo0 dat0] =>
  set (x_0 := view_tensor w tw a b c d e vs0 vo0 dat0) end.
assert (Hx0 : op x_0 = GGML_OP_VIEW /\ src x_0 = [w]) by (split; reflexivity).
assert (Hx0n : d0 (ne x_0) * d0 (nb x_0)
               = wrap_int64 (Z.quot (d0 (ne tw)) 32 * 32)
                 * ggml_type_size (type tw)) by reflexivity.
rewrite Hx0n. clear Hx0n.
clearbody x_0. destruct Hx0 as [Hx0_op Hx0_src].
rewrite <- app_assoc. cbn [app].
(* x_1 *)
rewrite ggml_view_3d_eq, (lookup_old _ _ w tw Hw).
destruct (view_base _ w tw _) as [[[vs1 vo1] dat1]|]; [|reflexivity].
match goal with |- context [view_tensor w tw ?a ?b ?c ?d ?e vs1 vo1 dat1] =>
  set (x_1 := view_tensor w tw a b c d e vs1 vo1 dat1) end.
assert (Hx1 : op x_1 = GGML_OP_VIEW /\ src x_1 = [w]) by (split; reflexivity).
clearbody x_1. destruct Hx1 as [Hx1_op Hx1_src].
rewrite <- app_assoc. cbn [app].
rewrite !length_app. cbn [length].
(* y_0 *)
rewrite ggml_view_3d_eq, (list_lookup_middle tensors _ t_in _ eq_refl).
destruct (view_base _ (length tensors) t_in 0) as [[[vs2 vo2] dat2]|];
  [|reflexivity].
rewrite lookup_new.
match goal with |- context [view_tensor ?p t_in ?a ?b ?c ?d ?e vs2 vo2 dat2] =>
  set (y_0 := view_tensor p t_in a b c d e vs2 vo2 dat2) end.
assert (Hy0 : op y_0 = GGML_OP_VIEW /\ src y_0 = [length tensors])
  by (split; reflexivity).
assert (Hy0n : d0 (ne y_0) * d0 (nb y_0)
               = wrap_int64 (Z.quot (d0 (ne t_in)) 32 * 32)
                 * ggml_type_size (type t_in)) by reflexivity.
rewrite Hy0n. clear Hy0n.
clearbody y_0. destruct Hy0 as [Hy0_op Hy0_src].
rewrite <- app_assoc. cbn [app]. rewrite !length_app. cbn [length].
(* y_1 *)
rewrite ggml_view_3d_eq, (list_lookup_middle tensors _ t_in _ eq_refl).
destruct (view_base _ (length tensors) t_in _) as [[[vs3 vo3] dat3]|];
  [|reflexivity].
match goal with |- context [view_tensor ?p t_in ?a ?b ?c ?d ?e vs3 vo3 dat3] =>
  set (y_1 := view_tensor p t_in a b c d e vs3 vo3 dat3) end.
assert (Hy1 : op y_1 = GGML_OP_VIEW /\ src y_1 = [length tensors])
  by (split; reflexivity).
clearbody y_1. destruct Hy1 as [Hy1_op Hy1_src].
rewrite <- app_assoc. cbn [app]. rewrite !length_app. cbn [length].
unfold bind.
destruct (ARGS_RIGHT_TO_LEFT cfg).
{
(* z_1, the product of the remainders *)
rewrite ggml_mul_mat_eq, !lookup_plus. cbn [lookup list_lookup].
destruct (ggml_can_mul_mat x_1 y_1 && negb (ggml_is_transposed x_1));
  [|reflexivity].
set (z_1 := mul_mat_tensor _ _ x_1 y_1).
assert (Hz_1 : op z_1 = GGML_OP_MUL_MAT
              /\ src z_1 = [(length tensors + 2)%nat; (length tensors + 4)%nat])
  by (split; reflexivity).
clearbody z_1. destruct Hz_1 as [Hz_1_op Hz_1_src].
rewrite <- app_assoc. cbn [app]. rewrite !length_app. cbn [length].
(* z_0 *)
rewrite ggml_mul_mat_eq, !lookup_plus. cbn [lookup list_lookup].
destruct (ggml_can_mul_mat x_0 y_0 && negb (ggml_is_transposed x_0));
  [|reflexivity].
set (z_0 := mul_mat_tensor _ _ x_0 y_0).
assert (Hz_0 : op z_0 = GGML_OP_MUL_MAT
              /\ src z_0 = [(length tensors + 1)%nat; (length tensors + 3)%nat])
  by (split; reflexivity).
clearbody z_0. destruct Hz_0 as [Hz_0_op Hz_0_src].
rewrite <- app_assoc. cbn [app]. rewrite !length_app. cbn [length].
(* z *)
rewrite ggml_add_eq, !lookup_plus. cbn [lookup list_lookup].
destruct (ggml_can_repeat z_1 z_0); [|reflexivity].
set (z := add_tensor _ _ z_0).
assert (Hz : op z = GGML_OP_ADD
             /\ src z = [(length tensors + 6)%nat; (length tensors + 5)%nat])
  by (split; reflexivity).
clearbody z. destruct Hz as [Hz_op Hz_src].
rewrite <- app_assoc. cbn [app]. rewrite !length_app. cbn [length].
(* the bias sum, the soft-max and the arg-max *)
rewrite ggml_add_eq, lookup_plus, (lookup_old _ _ b tb Hb). cbn [lookup list_lookup].
destruct (ggml_can_repeat tb z); [|reflexivity].
set (t_add := add_tensor _ b z).
assert (Hadd : op t_add = GGML_OP_ADD /\ src t_add = [(length tensors + 7)%nat; b])
  by (split; reflexivity).
rewrite <- app_assoc. cbn [app]. rewrite !length_app. cbn [length].
rewrite ggml_soft_max_eq, lookup_plus. cbn [lookup list_lookup].
destruct (ggml_is_contiguous t_add); [|reflexivity].
set (t_sm := soft_max_tensor _ t_add).
rewrite <- app_assoc. cbn [app]. rewrite !length_app. cbn [length].
rewrite ggml_argmax_eq, lookup_plus. cbn [lookup list_lookup].
destruct (ggml_is_matrix t_sm); [|reflexivity].
set (t_am := argmax_tensor _ t_sm).
rewrite <- app_assoc. cbn [app]. rewrite !length_app. cbn [length].
erewrite (modify_plus tensors _ 9) by reflexivity. cbn [insert list_insert].
erewrite (modify_plus tensors _ 10) by reflexivity. cbn [insert list_insert].
assert (Hsm : op (set_output t_sm) = GGML_OP_SOFT_MAX
              /\ src (set_output t_sm) = [(length tensors + 8)%nat])
  by (split; reflexivity).
assert (Ham : op (set_output t_am) = GGML_OP_ARGMAX
              /\ src (set_output t_am) = [(length tensors + 9)%nat])
  by (split; reflexivity).
clearbody t_add. destruct Hadd as [Hadd_op Hadd_src].
generalize dependent (set_output t_sm). intros t_sm' [Hsm_op Hsm_src].
generalize dependent (set_output t_am). intros t_am' [Ham_op Ham_src].
unfold SENSEVOICE_DECODER_MAX_NODES.
apply forward_expand_None.
apply (visit_split tensors w b tw tb t_in x_0 x_1 y_0 y_1 z_1 z_0 z_0 z_1 z
         t_add t_sm' t_am' (length tensors + 6)%nat
         (length tensors + 5)%nat); trivial.
right; repeat split; reflexivity.
}
(* z_0, the product of the prefixes *)
rewrite ggml_mul_mat_eq, !lookup_plus. cbn [lookup list_lookup].
destruct (ggml_can_mul_mat x_0 y_0 && negb (ggml_is_transposed x_0));
  [|reflexivity].
set (z_0 := mul_mat_tensor _ _ x_0 y_0).
assert (Hz_0 : op z_0 = GGML_OP_MUL_MAT
              /\ src z_0 = [(length tensors + 1)%nat; (length tensors + 3)%nat])
  by (split; reflexivity).
clearbody z_0. destruct Hz_0 as [Hz_0_op Hz_0_src].
rewrite <- app_assoc. cbn [app]. rewrite !length_app. cbn [length].
(* z_1 *)
rewrite ggml_mul_mat_eq, !lookup_plus. cbn [lookup list_lookup].
destruct (ggml_can_mul_mat x_1 y_1 && negb (ggml_is_transposed x_1));
  [|reflexivity].
set (z_1 := mul_mat_tensor _ _ x_1 y_1).
assert (Hz_1 : op z_1 = GGML_OP_MUL_MAT
              /\ src z_1 = [(length tensors + 2)%nat; (length tensors + 4)%nat])
  by (split; reflexivity).
clearbody z_1. destruct Hz_1 as [Hz_1_op Hz_1_src].
rewrite <- app_assoc. cbn [app]. rewrite !length_app. cbn [length].
(* z *)
rewrite ggml_add_eq, !lookup_plus. cbn [lookup list_lookup].
destruct (ggml_can_repeat z_1 z_0); [|reflexivity].
set (z := add_tensor _ _ z_0).
assert (Hz : op z = GGML_OP_ADD
             /\ src z = [(length tensors + 5)%nat; (length tensors + 6)%nat])
  by (split; reflexivity).
clearbody z. destruct Hz as [Hz_op Hz_src].
rewrite <- app_assoc. cbn [app]. rewrite !length_app. cbn [length].
(* the bias sum, the soft-max and the arg-max *)
rewrite ggml_add_eq, lookup_plus, (lookup_old _ _ b tb Hb). cbn [lookup list_lookup].
destruct (ggml_can_repeat tb z); [|reflexivity].
set (t_add := add_tensor _ b z).
assert (Hadd : op t_add = GGML_OP_ADD /\ src t_add = [(length tensors + 7)%nat; b])
  by (split; reflexivity).
rewrite <- app_assoc. cbn [app]. rewrite !length_app. cbn [length].
rewrite ggml_soft_max_eq, lookup_plus. cbn [lookup list_lookup].
destruct (ggml_is_contiguous t_add); [|reflexivity].
set (t_sm := soft_max_tensor _ t_add).
rewrite <- app_assoc. cbn [app]. rewrite !length_app. cbn [length].
rewrite ggml_argmax_eq, lookup_plus. cbn [lookup list_lookup].
destruct (ggml_is_matrix t_sm); [|reflexivity].
set (t_am := argmax_tensor _ t_sm).
rewrite <- app_assoc. cbn [app]. rewrite !length_app. cbn [length].
erewrite (modify_plus tensors _ 9) by reflexivity. cbn [insert list_insert].
erewrite (modify_plus tensors _ 10) by reflexivity. cbn [insert list_insert].
assert (Hsm : op (set_output t_sm) = GGML_OP_SOFT_MAX
              /\ src (set_output t_sm) = [(length tensors + 8)%nat])
  by (split; reflexivity).
assert (Ham : op (set_output t_am) = GGML_OP_ARGMAX
              /\ src (set_output t_am) = [(length tensors + 9)%nat])
  by (split; reflexivity).
clearbody t_add. destruct Hadd as [Hadd_op Hadd_src].
generalize dependent (set_output t_sm). intros t_sm' [Hsm_op Hsm_src].
generalize dependent (set_output t_am). intros t_am' [Ham_op Ham_src].
unfold SENSEVOICE_DECODER_MAX_NODES.
apply forward_expand_None.
apply (visit_split tensors w b tw tb t_in x_0 x_1 y_0 y_1 z_0 z_1 z_0 z_1 z
         t_add t_sm' t_am' (length tensors + 5)%nat
         (length tensors + 6)%nat); trivial.
left; repeat split; reflexivity.
Qed.

(** What the builder returns, in every build configuration. *)
Lemma build_spec (tensors : ggml_context) cfg ctx state tw tb te :
  let w := ctc_out_linear_weight (model ctx) in
  let b := ctc_out_linear_bias (model ctx) in
  let n := length tensors in
  tensors !! w = Some tw -> tensors !! b = Some tb ->
  tensors !! encoder_out state = Some te ->
  is_param tw -> is_param tb ->
  (builds cfg w n tw tb te = true
   /\ exists vis ctx0,
       sense_voice_build_graph_ctc_decoder cfg ctx state tensors =
       Some ({| size := 8;
                nodes := [(n + 1)%nat; (n + 2)%nat; (n + 3)%nat; (n + 4)%nat];
                leafs := w :: n :: (if decide (b = w) then [] else [b]);
                visited := vis |}, ctx0)
       /\ Forall2 named_by_graph (tensors ++ pipeline w b n tw te) ctx0)
  \/ (builds cfg w n tw tb te = false
      /\ sense_voice_build_graph_ctc_decoder cfg ctx state tensors = None).
Proof.
  intros w b n Hw Hb He Hpw Hpb. unfold builds.
  destruct (GGML_USE_METAL cfg) eqn:Hmetal; cbn [negb orb].
  - destruct (takes_fallback (d0 (ne tw)) 32) eqn:Hfb.
    + rewrite andb_true_r.
      apply (build_direct tensors cfg ctx state tw tb te Hw Hb He Hpw Hpb).
      unfold ggml_mul_mat_macro. rewrite Hmetal.
      apply (pad_fallback_eq cfg _ w n tw 32 (lookup_old _ _ w tw Hw)); [lia|].
      unfold takes_fallback in Hfb. apply orb_true_iff in Hfb. lia.
    + rewrite andb_false_r. right. split; [reflexivity|].
      apply (build_split tensors cfg ctx state tw tb te Hw Hb He Hpw Hpb Hmetal);
        unfold takes_fallback in Hfb; apply orb_false_iff in Hfb; lia.
  - rewrite andb_true_r.
    apply (build_direct tensors cfg ctx state tw tb te Hw Hb He Hpw Hpb).
    unfold ggml_mul_mat_macro. now rewrite Hmetal.
Qed.

Lemma build_None (tensors : ggml_context) cfg ctx state :
  tensors !! encoder_out state = None ->
  sense_voice_build_graph_ctc_decoder cfg ctx state tensors = None.
Proof.
  intros He. unfold sense_voice_build_graph_ctc_decoder, ggml_new_graph_custom,
    bind, ret, deref. now rewrite He.
Qed.

(** Every graph the builder returns is the graph of the pipeline. *)
Lemma build_inv (tensors : ggml_context) cfg ctx state tw tb gf ctx0 :
  let w := ctc_out_linear_weight (model ctx) in
  let b := ctc_out_linear_bias (model ctx) in
  let n := length tensors in
  tensors !! w = Some tw -> tensors !! b = Some tb ->
  is_param tw -> is_param tb ->
  sense_voice_build_graph_ctc_decoder cfg ctx state tensors = Some (gf, ctx0) ->
  exists te,
    tensors !! encoder_out state = Some te
    /\ builds cfg w n tw tb te = true
    /\ nodes gf = [(n + 1)%nat; (n + 2)%nat; (n + 3)%nat; (n + 4)%nat]
    /\ leafs gf = w :: n :: (if decide (b = w) then [] else [b])
    /\ Forall2 named_by_graph (tensors ++ pipeline w b n tw te) ctx0.
Proof.
  intros w b n Hw Hb Hpw Hpb Hbuild.
  destruct (tensors !! encoder_out state) as [te|] eqn:He.
  2:{ rewrite (build_None tensors cfg ctx state He) in Hbuild. discriminate. }
  destruct (build_spec tensors cfg ctx state tw tb te Hw Hb He Hpw Hpb)
    as [(Hok & vis & c & Heq & Hnamed)|(_ & Heq)].
  2:{ rewrite Heq in Hbuild. discriminate. }
  rewrite Heq in Hbuild. injection Hbuild as <- <-.
  exists te. repeat split; trivial.
Qed.

(** The builder changes no tensor outside the graph it returns. *)
Lemma build_frame (tensors : ggml_context) cfg ctx state tw tb gf ctx0 :
  let w := ctc_out_linear_weight (model ctx) in
  let b := ctc_out_linear_bias (model ctx) in
  tensors !! w = Some tw -> tensors !! b = Some tb ->
  is_param tw -> is_param tb ->
  sense_voice_build_graph_ctc_decoder cfg ctx state tensors = Some (gf, ctx0) ->
  forall p t, tensors !! p = Some t -> p <> w -> p <> b -> ctx0 !! p = Some t.
Proof.
  intros w b Hw Hb Hpw Hpb Hbuild p t Hp Hnw Hnb.
  destruct (build_inv tensors cfg ctx state tw tb gf ctx0 Hw Hb Hpw Hpb Hbuild)
    as (te & He & Hok & Hnodes & Hleafs & _).
  fold w b in Hok, Hleafs.
  assert (Hmacro : ggml_mul_mat_macro cfg w (length tensors)
                     (tensors ++ [pipeline_in te])
                   = ggml_mul_mat w (length tensors) (tensors ++ [pipeline_in te])).
  { unfold ggml_mul_mat_macro. unfold builds in Hok.
    destruct (GGML_USE_METAL cfg); [|reflexivity].
    apply andb_true_iff in Hok as [_ Hfb]. cbn [negb orb] in Hfb.
    apply (pad_fallback_eq cfg _ w _ tw 32 (lookup_old _ _ w tw Hw)); [lia|].
    unfold takes_fallback in Hfb. apply orb_true_iff in Hfb. lia. }
  rewrite (build_direct_eq tensors cfg ctx state tw tb te Hw Hb He Hmacro)
    in Hbuild.
  fold w b in Hbuild.
  destruct (pipeline_shapes_ok w (length tensors) tw tb te); [|discriminate].
  rewrite (forward_expand_frame _ _ _ _ _ Hbuild p).
  - now apply lookup_old.
  - pose proof (lookup_lt_Some _ _ _ Hp) as Hlt.
    rewrite Hleafs, Hnodes. rewrite elem_of_app, !elem_of_cons.
    destruct (decide (b = w));
      rewrite ?elem_of_cons, ?elem_of_nil; lia.
Qed.

(** The tensors of the pipeline in the context the builder leaves. *)
Lemma pipeline_lookup (tensors ctx0 : ggml_context) w b tw te k t :
  Forall2 named_by_graph (tensors ++ pipeline w b (length tensors) tw te) ctx0 ->
  pipeline w b (length tensors) tw te !! k = Some t ->
  exists t', ctx0 !! (length tensors + k)%nat = Some t' /\ named_by_graph t t'.
Proof.
  intros Hnamed Hk. apply (named_ctx_lookup _ _ _ _ Hnamed).
  now rewrite lookup_plus.
Qed.

Lemma pipeline_graph (tensors ctx0 : ggml_context) w b tw te gf :
  let n := length tensors in
  Forall2 named_by_graph (tensors ++ pipeline w b n tw te) ctx0 ->
  nodes gf = [(n + 1)%nat; (n + 2)%nat; (n + 3)%nat; (n + 4)%nat] ->
  ctc_pipeline_graph w b ctx0 gf.
Proof.
  intros n Hnamed Hnodes. unfold ctc_pipeline_graph.
  destruct (pipeline_lookup tensors ctx0 w b tw te 0 _ Hnamed eq_refl)
    as (t0 & L0 & N0).
  destruct (pipeline_lookup tensors ctx0 w b tw te 1 _ Hnamed eq_refl)
    as (t1 & L1 & N1).
  destruct (pipeline_lookup tensors ctx0 w b tw te 2 _ Hnamed eq_refl)
    as (t2 & L2 & N2).
  destruct (pipeline_lookup tensors ctx0 w b tw te 3 _ Hnamed eq_refl)
    as (t3 & L3 & N3).
  destruct (pipeline_lookup tensors ctx0 w b tw te 4 _ Hnamed eq_refl)
    as (t4 & L4 & N4).
  rewrite Nat.add_0_r in L0. fold n in L0, L1, L2, L3, L4.
  apply named_keeps in N0 as ->; [|discriminate].
  apply named_fields in N1 as (_ & _ & _ & O1 & _ & _ & S1 & _).
  apply named_fields in N2 as (_ & _ & _ & O2 & _ & _ & S2 & _).
  apply named_fields in N3 as (_ & _ & _ & O3 & _ & F3 & S3 & _).
  apply named_fields in N4 as (_ & _ & _ & O4 & _ & F4 & S4 & _).
  exists n, (n + 1)%nat, (n + 2)%nat, (n + 3)%nat, (n + 4)%nat,
    (pipeline_in te), t1, t2, t3, t4.
  split; [exact Hnodes|].
  split; [exact L0|]. do 3 (split; [reflexivity|]).
  split; [exact L1|]. split; [now rewrite O1|]. split; [now rewrite S1|].
  split; [exact L2|]. split; [now rewrite O2|]. split; [now rewrite S2|].
  split; [exact L3|]. split; [now rewrite O3|]. split; [now rewrite S3|].
  split; [now rewrite F3|].
  split; [exact L4|]. split; [now rewrite O4|]. split; [now rewrite S4|].
  now rewrite F4.
Qed.

(** X20.  Whatever the model, the session and the build configuration,
    a graph returned by [sense_voice_build_graph_ctc_decoder] has exactly
    four nodes (projection, bias sum, soft-max, arg-max), within the
    ceiling of SENSEVOICE_DECODER_MAX_NODES = 8; its last node is the
    arg-max, and the soft-max and the arg-max are marked as outputs.
    The builder does return a graph whenever the shapes of the weight,
    the bias and the encoder output fit and the projection is not
    split. *)
Theorem sense_voice_build_graph_ctc_decoder_spec (tensors : ggml_context)
    (cfg : build_config) (ctx : sense_voice_context) (state : sense_voice_state)
    (tw tb : ggml_tensor) :
  let w := ctc_out_linear_weight (model ctx) in
  let b := ctc_out_linear_bias (model ctx) in
  tensors !! w = Some tw -> tensors !! b = Some tb ->
  is_param tw -> is_param tb ->
  (forall gf ctx0,
      sense_voice_build_graph_ctc_decoder cfg ctx state tensors = Some (gf, ctx0) ->
      ctc_pipeline_graph w b ctx0 gf
      /\ n_nodes gf = 4
      /\ n_nodes gf <= SENSEVOICE_DECODER_MAX_NODES
      /\ exists ids t_ids,
           last (nodes gf) = Some ids /\ ctx0 !! ids = Some t_ids
           /\ op t_ids = GGML_OP_ARGMAX)
  /\ (forall te,
        tensors !! encoder_out state = Some te ->
        builds cfg w (length tensors) tw tb te = true ->
        is_Some (sense_voice_build_graph_ctc_decoder cfg ctx state tensors)).
Proof.
  intros w b Hw Hb Hpw Hpb. split.
  - intros gf ctx0 Hbuild.
    destruct (build_inv tensors cfg ctx state tw tb gf ctx0 Hw Hb Hpw Hpb Hbuild)
      as (te & He & Hok & Hnodes & Hleafs & Hnamed).
    fold w b in Hnamed.
    split; [now apply (pipeline_graph tensors ctx0 w b tw te)|].
    split; [unfold n_nodes; now rewrite Hnodes|].
    split; [unfold n_nodes, SENSEVOICE_DECODER_MAX_NODES; rewrite Hnodes;
            cbn [length]; lia|].
    destruct (pipeline_lookup tensors ctx0 w b tw te 4 _ Hnamed eq_refl)
      as (t4 & L4 & N4).
    apply named_fields in N4 as (_ & _ & _ & O4 & _).
    exists (length tensors + 4)%nat, t4.
    split; [now rewrite Hnodes|]. split; [exact L4|now rewrite O4].
  - intros te He Hok.
    destruct (build_spec tensors cfg ctx state tw tb te Hw Hb He Hpw Hpb)
      as [(_ & vis & c & Heq & _)|(Hno & _)].
    + rewrite Heq. eauto.
    + fold w b in Hno. congruence.
Qed.

End BuilderFacts.

(** ** The decode call *)

Module DecodeFacts.
Import CInt CIntFacts Ggml Shapes GgmlFacts Engine EngineFacts Decoder
       BuilderFacts DriverFacts Runs.

Lemma print_tokens_runs v l tr :
  runs (print_tokens v l) tr tt <-> tr = token_events v l.
Proof.
  revert tr. induction l as [|id l IH]; intros tr; cbn [print_tokens token_events flat_map].
  - cbn. intuition.
  - rewrite runs_bind. split.
    + intros ([] & tr1 & tr2 & -> & H1 & H2). apply IH in H2 as ->.
      f_equal. unfold when in H1. destruct (id =? 0); cbn [negb] in H1.
      * now destruct H1 as [-> _].
      * now apply runs_do in H1.
    + intros ->. exists tt, (if id =? 0 then [] else [EvPrintf (token_of v id)]),
        (token_events v l).
      split; [reflexivity|]. split; [|now apply IH].
      unfold when. destruct (id =? 0); cbn [negb]; [now cbn|now apply runs_do].
Qed.

(** Every run of [sense_voice_decode_internal] is of one of three shapes. *)
Lemma decode_inv cfg (tensors : ggml_context) ctx state n_threads tr r :
  runs (sense_voice_decode_internal cfg tensors ctx state n_threads) tr r ->
  exists gf ctx0,
    sense_voice_build_graph_ctc_decoder cfg ctx state tensors = Some (gf, ctx0)
    /\ decode_run ctx state gf ctx0 tr r.
Proof.
  unfold sense_voice_decode_internal. intros H.
  apply runs_bind in H as (t0 & tr1 & tr2 & -> & Ht0 & H).
  apply runs_do in Ht0 as ->.
  destruct (sense_voice_build_graph_ctc_decoder cfg ctx state tensors)
    as [[gf ctx0]|]; [|destruct (runs_stop _ _ H)].
  exists gf, ctx0. split; [reflexivity|].
  apply runs_bind in H as (ok & tr1 & tr3 & -> & Hok & H).
  apply runs_do in Hok as ->.
  destruct ok; cbn [negb] in H.
  2:{ destruct H as [-> <-]. apply run_alloc_failed. }
  destruct (ggml_graph_get_tensor ctx0 gf "encoder_out") as [dst|] eqn:Hdst;
    [|destruct (runs_stop _ _ H)].
  destruct (ctx0 !! dst) as [t_in|] eqn:Hin; [|destruct (runs_stop _ _ H)].
  destruct (ctx0 !! encoder_out state) as [t_enc|] eqn:Henc;
    [|destruct (runs_stop _ _ H)].
  apply runs_bind in H as ([] & tr1 & tr4 & -> & Hset & H).
  apply runs_do in Hset as ->.
  apply runs_bind in H as (computed & tr1 & tr5 & -> & Hc & H).
  apply helper_runs in Hc as (pre & status & -> & Hpre & ->).
  destruct (bool_decide (status = GGML_STATUS_SUCCESS)) eqn:Hst; cbn [negb] in H.
  2:{ destruct H as [-> <-]. apply bool_decide_eq_false in Hst.
      rewrite app_nil_r.
      apply (run_compute_failed ctx state gf ctx0 t0 dst t_in t_enc pre status);
        assumption. }
  apply bool_decide_eq_true in Hst as ->.
  destruct (last (nodes gf)) as [am|] eqn:Hlast; [|destruct (runs_stop _ _ H)].
  destruct (ctx0 !! am) as [t_out|] eqn:Hout; [|destruct (runs_stop _ _ H)].
  apply runs_bind in H as (arr & tr1 & tr6 & -> & Harr & H).
  apply runs_do in Harr as ->.
  apply runs_bind in H as ([] & tr1 & tr7 & -> & Hp & H).
  apply print_tokens_runs in Hp as ->.
  apply runs_bind in H as ([] & tr1 & tr8 & -> & Hnl & H).
  apply runs_do in Hnl as ->.
  apply runs_bind in H as (t1 & tr1 & tr9 & -> & Ht1 & H).
  apply runs_do in Ht1 as ->. destruct H as [-> <-].
  rewrite app_nil_r.
  pose proof (run_success ctx state gf ctx0 t0 dst t_in t_enc pre am t_out arr t1
                Hdst Hin Henc Hpre Hlast Hout) as Hrun.
  unfold trace_until_reset in *. cbn [event_of app] in *.
  rewrite <- !app_assoc in Hrun. cbn [app] in Hrun. rewrite <- !app_assoc.
  exact Hrun.
Qed.

(** *** Reading traces *)

Lemma omap_config {A} (f : event -> option A) pre :
  (forall ev, is_config ev = true -> f ev = None) ->
  forallb is_config pre = true -> omap f pre = [].
Proof.
  intros Hf. induction pre as [|ev pre IH]; [reflexivity|].
  cbn [forallb]. intros [Hev Hpre]%andb_true_iff.
  cbn [omap list_omap]. now rewrite (Hf ev Hev), IH.
Qed.

Lemma omap_tokens {A} (f : event -> option A) v l :
  (forall s, f (EvPrintf s) = None) -> omap f (token_events v l) = [].
Proof.
  intros Hf. induction l as [|id l IH]; [reflexivity|].
  cbn [token_events flat_map]. fold (token_events v l).
  rewrite omap_app, IH, app_nil_r.
  destruct (id =? 0); [reflexivity|]. cbn. now rewrite Hf.
Qed.

Lemma printed_tokens v l :
  omap printed (token_events v l) = token_of v <$> filter (fun id => id <> 0) l.
Proof.
  induction l as [|id l IH]; [reflexivity|].
  cbn [token_events flat_map]. fold (token_events v l).
  rewrite omap_app, IH, filter_cons.
  destruct (Z.eqb_spec id 0) as [->|Hne].
  - now destruct (decide (0 <> 0)).
  - destruct (decide (id <> 0)); [reflexivity|contradiction].
Qed.

Lemma forallb_tokens (P : event -> bool) v l :
  (forall s, P (EvPrintf s) = true) -> forallb P (token_events v l) = true.
Proof.
  intros HP. induction l as [|id l IH]; [reflexivity|].
  cbn [token_events flat_map]. fold (token_events v l).
  rewrite forallb_app, IH, andb_true_r.
  destruct (id =? 0); [reflexivity|]. cbn. now rewrite HP.
Qed.

Lemma forallb_config (P : event -> bool) pre :
  (forall ev, is_config ev = true -> P ev = true) ->
  forallb is_config pre = true -> forallb P pre = true.
Proof.
  intros HP. induction pre as [|ev pre IH]; [reflexivity|].
  cbn [forallb]. intros [Hev Hpre]%andb_true_iff.
  now rewrite (HP ev Hev), IH.
Qed.

Lemma get_tensor_named (ctx0 : ggml_context) gf nm p :
  ggml_graph_get_tensor ctx0 gf nm = Some p ->
  exists t, ctx0 !! p = Some t /\ name t = nm.
Proof.
  unfold ggml_graph_get_tensor.
  set (named := fun q => match ctx0 !! q with
                         | Some t => bool_decide (name t = nm)
                         | None => false
                         end).
  intros H.
  assert (Hn : named p = true).
  { destruct (find named (leafs gf)) as [q|] eqn:Hl.
    - injection H as <-. now apply find_some in Hl.
    - now apply find_some in H. }
  unfold named in Hn. destruct (ctx0 !! p) as [t|]; [|discriminate].
  exists t. split; [reflexivity|]. now apply bool_decide_eq_true in Hn.
Qed.

Lemma append_empty_r (s : string) : (s +:+ EmptyString)%string = s.
Proof.
  induction s as [|c s IH]; [reflexivity|].
  change (String c (s +:+ EmptyString) = String c s). now f_equal.
Qed.

Lemma append_assoc (a b c : string) :
  (a +:+ (b +:+ c))%string = ((a +:+ b) +:+ c)%string.
Proof.
  induction a as [|x a IH]; [reflexivity|].
  change (String x (a +:+ (b +:+ c)) = String x ((a +:+ b) +:+ c)). now f_equal.
Qed.

Lemma stdout_snoc (l : list string) (s : string) :
  foldr String.append EmptyString (l ++ [s])
  = (foldr String.append EmptyString l +:+ s)%string.
Proof.
  induction l as [|a l IH]; cbn [foldr app].
  - apply append_empty_r.
  - rewrite IH. apply append_assoc.
Qed.

Ltac norm_app := repeat (rewrite <- !app_assoc; cbn [app]).

Ltac is_cfg := intros [] Hev; (discriminate Hev || reflexivity).

(** *** The claims about the decode call *)

(** C1, as amended.  A decode call that returns failure leaves the
    session, and with it [t_decode_us], as it was.  A decode call that
    returns success reads the clock at its start and at its end and adds
    the difference to [t_decode_us] (in 64-bit arithmetic); when nothing
    overflows the counter grows by exactly the elapsed time. *)
Theorem decode_timer cfg (tensors : ggml_context) ctx state n_threads tr r state' :
  runs (sense_voice_decode_internal cfg tensors ctx state n_threads) tr (r, state') ->
  (r = false -> state' = state)
  /\ (r = true ->
      exists t0 t1 mid,
        tr = EvTimeUs t0 :: mid ++ [EvTimeUs t1]
        /\ forallb (fun ev => negb (is_time ev)) mid = true
        /\ t_decode_us state'
           = wrap_int64 (t_decode_us state + wrap_int64 (t1 - t0))
        /\ (0 <= t0 <= t1 -> t1 < 2 ^ 63 ->
            0 <= t_decode_us state ->
            t_decode_us state + (t1 - t0) < 2 ^ 63 ->
            t_decode_us state' = t_decode_us state + (t1 - t0))).
Proof.
  intros H. apply decode_inv in H as (gf & ctx0 & _ & H).
  inversion H; subst; (split; [intros; congruence || reflexivity|]); try discriminate.
  intros _. exists t0, t1.
  exists ([EvSchedAllocGraph (sched state) gf true;
           EvTensorSet dst (data t_enc) 0
             (wrap_size_t (ggml_nelements t_in * sizeof_float))]
          ++ pre
          ++ [EvSchedGraphCompute (sched state) gf GGML_STATUS_SUCCESS;
              EvSchedReset (sched state); EvHostInts argmax_logit arr]
          ++ token_events (vocab ctx) (arr <$> seqZ 0 (d0 (ne t_out)))
          ++ [EvPrintf newline]).
  split; [|split; [|split]].
  - unfold trace_until_reset. norm_app. reflexivity.
  - rewrite !forallb_app.
    rewrite (forallb_config _ pre) by (is_cfg || assumption).
    rewrite forallb_tokens by reflexivity. reflexivity.
  - reflexivity.
  - intros Ht Ht1 Hd Hsum. cbn [t_decode_us add_t_decode_us set_ids].
    rewrite (wrap_int64_small (t1 - t0)) by lia.
    rewrite wrap_int64_small by lia. reflexivity.
Qed.

(** C2.  When the trace of a decode call shows a failed graph allocation
    or an execution status other than success, the call returns false
    and the session, its id buffer included, is as before the call. *)
Theorem decode_failure cfg (tensors : ggml_context) ctx state n_threads tr r state' :
  runs (sense_voice_decode_internal cfg tensors ctx state n_threads) tr (r, state') ->
  alloc_failed tr \/ compute_failed tr ->
  r = false /\ ids state' = ids state /\ state' = state.
Proof.
  intros H Hfail. apply decode_inv in H as (gf & ctx0 & _ & H).
  inversion H; subst; try (repeat split; reflexivity).
  exfalso. unfold alloc_failed, compute_failed, trace_until_reset in Hfail.
  rewrite !omap_app in Hfail.
  rewrite !(omap_config _ pre) in Hfail by (is_cfg || assumption).
  rewrite !omap_tokens in Hfail by reflexivity.
  cbn in Hfail. destruct Hfail as [Hf|(st & Hst & Hne)].
  - apply list_elem_of_singleton in Hf. discriminate.
  - apply list_elem_of_singleton in Hst. contradiction.
Qed.

Lemma filter_config (P : event -> bool) pre :
  (forall ev, is_config ev = true -> P ev = false) ->
  forallb is_config pre = true -> List.filter P pre = [].
Proof.
  intros HP. induction pre as [|ev pre IH]; [reflexivity|].
  cbn [forallb]. intros [Hev Hpre]%andb_true_iff.
  cbn [List.filter]. now rewrite (HP ev Hev), IH.
Qed.

Lemma filter_tokens (P : event -> bool) v l :
  (forall s, P (EvPrintf s) = false) -> List.filter P (token_events v l) = [].
Proof.
  intros HP. induction l as [|id l IH]; [reflexivity|].
  cbn [token_events flat_map]. fold (token_events v l).
  rewrite List.filter_app, IH, app_nil_r.
  destruct (id =? 0); [reflexivity|]. cbn. now rewrite HP.
Qed.

(** The only [ggml_backend_tensor_set] of a decode call. *)
Lemma tensor_set_of_run ctx state gf (ctx0 : ggml_context) tr r dst dat off sz :
  decode_run ctx state gf ctx0 tr r ->
  In (EvTensorSet dst dat off sz) tr ->
  exists t_in t_enc,
    ctx0 !! dst = Some t_in /\ name t_in = "encoder_out"
    /\ ctx0 !! encoder_out state = Some t_enc
    /\ dat = data t_enc /\ off = 0
    /\ sz = wrap_size_t (ggml_nelements t_in * sizeof_float).
Proof.
  intros Hrun Hin.
  assert (Hf : In (EvTensorSet dst dat off sz) (List.filter is_tensor_set tr)).
  { apply List.filter_In. auto. }
  clear Hin. inversion Hrun; subst; unfold trace_until_reset in Hf;
    rewrite ?List.filter_app in Hf;
    rewrite ?(filter_config _ pre) in Hf by (is_cfg || assumption);
    rewrite ?filter_tokens in Hf by reflexivity;
    cbn in Hf; try contradiction.
  - destruct Hf as [[= <- <- <- <-]|[]].
    match goal with
    | Hg : ggml_graph_get_tensor _ _ _ = Some _ |- _ =>
        destruct (get_tensor_named _ _ _ _ Hg) as (t & Ht & Hname)
    end.
    exists t_in, t_enc. repeat split; try assumption. congruence.
  - destruct Hf as [[= <- <- <- <-]|[]].
    match goal with
    | Hg : ggml_graph_get_tensor _ _ _ = Some _ |- _ =>
        destruct (get_tensor_named _ _ _ _ Hg) as (t & Ht & Hname)
    end.
    exists t_in, t_enc. repeat split; try assumption. congruence.
Qed.

(** X19.  In a successful decode call the data of the session's encoder
    output are copied into the graph tensor named "encoder_out"; the
    byte count is the element count times sizeof(float), which is the
    element count times the element size when that tensor is F32; the
    copy is the call that follows the successful graph allocation, and
    only the configuration of the backends lies between it and the
    execution of the graph. *)
Theorem decode_copies_input cfg (tensors : ggml_context) ctx state n_threads
    tr state' :
  runs (sense_voice_decode_internal cfg tensors ctx state n_threads) tr (true, state') ->
  exists gf ctx0 t0 dst t_in t_enc pre post,
    sense_voice_build_graph_ctc_decoder cfg ctx state tensors = Some (gf, ctx0)
    /\ ctx0 !! dst = Some t_in /\ name t_in = "encoder_out"
    /\ ctx0 !! encoder_out state = Some t_enc
    /\ tr = [EvTimeUs t0; EvSchedAllocGraph (sched state) gf true;
             EvTensorSet dst (data t_enc) 0
               (wrap_size_t (ggml_nelements t_in * sizeof_float))]
            ++ pre
            ++ EvSchedGraphCompute (sched state) gf GGML_STATUS_SUCCESS :: post
    /\ forallb is_config pre = true
    /\ forallb (fun ev => negb (is_alloc ev || is_tensor_set ev || is_compute ev))
          post = true
    /\ (type t_in = GGML_TYPE_F32 ->
        wrap_size_t (ggml_nelements t_in * sizeof_float)
        = wrap_size_t (ggml_nelements t_in * ggml_type_size (type t_in))).
Proof.
  intros H. apply decode_inv in H as (gf & ctx0 & Hbuild & H).
  inversion H; subst.
  match goal with
  | Hg : ggml_graph_get_tensor _ _ _ = Some _ |- _ =>
      destruct (get_tensor_named _ _ _ _ Hg) as (t & Ht & Hname)
  end.
  assert (t = t_in) as -> by congruence.
  exists gf, ctx0, t0, dst, t_in, t_enc, pre.
  exists ([EvSchedReset (sched state); EvHostInts argmax_logit arr]
          ++ token_events (vocab ctx) (arr <$> seqZ 0 (d0 (ne t_out)))
          ++ [EvPrintf newline; EvTimeUs t1]).
  repeat split; try assumption.
  - unfold trace_until_reset. norm_app. reflexivity.
  - rewrite !forallb_app. rewrite forallb_tokens by reflexivity. reflexivity.
  - intros ->. reflexivity.
Qed.

(** C8.  In a successful decode call the strings handed to [printf] are
    the tokens of the ids other than 0, in the order of the ids, and
    then the line terminator; so what the call writes is the text of the
    ids as the specification words it, followed by the newline.  For
    the ids 0, 5, 0, 7, 0 and the vocabulary 5 -> "A", 7 -> "B" that
    text is "AB". *)
Theorem decode_renders_tokens cfg (tensors : ggml_context) ctx state n_threads
    tr state' :
  runs (sense_voice_decode_internal cfg tensors ctx state n_threads) tr (true, state') ->
  omap printed tr
  = (token_of (vocab ctx) <$> filter (fun id => id <> 0) (ids state')) ++ [newline]
  /\ stdout tr = (spec_rendered_text (vocab ctx) (ids state') +:+ newline)%string
  /\ spec_rendered_text Examples.example_vocab [0; 5; 0; 7; 0] = "AB".
Proof.
  intros H. apply decode_inv in H as (gf & ctx0 & Hbuild & H).
  inversion H; subst.
  assert (Hp : omap printed
                 (trace_until_reset (sched state) gf t0 dst (data t_enc)
                    (wrap_size_t (ggml_nelements t_in * sizeof_float)) pre
                    GGML_STATUS_SUCCESS
                  ++ [EvHostInts argmax_logit arr]
                  ++ token_events (vocab ctx) (arr <$> seqZ 0 (d0 (ne t_out)))
                  ++ [EvPrintf newline; EvTimeUs t1])
               = (token_of (vocab ctx)
                    <$> filter (fun id => id <> 0) (arr <$> seqZ 0 (d0 (ne t_out))))
                 ++ [newline]).
  { unfold trace_until_reset. rewrite !omap_app.
    rewrite (omap_config _ pre) by (is_cfg || assumption).
    rewrite printed_tokens. reflexivity. }
  split; [exact Hp|]. split; [|vm_compute; reflexivity].
  unfold stdout. rewrite Hp. apply stdout_snoc.
Qed.

(** C10, as amended.  The byte count of the copy into the graph's input tensor is
    the element count of that tensor times sizeof(float) = 4, whatever
    its element type.  Where this product fits 64 bits it is the size
    of the tensor's data exactly when the elements are 4 bytes wide,
    which is so for F32 and for I32, or the tensor has no element. *)
Theorem decode_copy_size cfg (tensors : ggml_context) ctx state n_threads
    tr r dst dat off sz :
  runs (sense_voice_decode_internal cfg tensors ctx state n_threads) tr r ->
  In (EvTensorSet dst dat off sz) tr ->
  exists gf ctx0 t_in,
    sense_voice_build_graph_ctc_decoder cfg ctx state tensors = Some (gf, ctx0)
    /\ ctx0 !! dst = Some t_in /\ name t_in = "encoder_out"
    /\ sz = wrap_size_t (ggml_nelements t_in * 4)
    /\ (0 <= ggml_nelements t_in -> ggml_nelements t_in * 4 < 2 ^ 64 ->
        (sz = ggml_nelements t_in * ggml_type_size (type t_in)
         <-> ggml_type_size (type t_in) = 4 \/ ggml_nelements t_in = 0))
    /\ (ggml_type_size (type t_in) = 4
        <-> type t_in = GGML_TYPE_F32 \/ type t_in = GGML_TYPE_I32).
Proof.
  intros H Hin. apply decode_inv in H as (gf & ctx0 & Hbuild & H).
  destruct (tensor_set_of_run _ _ _ _ _ _ _ _ _ _ H Hin)
    as (t_in & t_enc & Ht & Hname & _ & _ & _ & ->).
  exists gf, ctx0, t_in. unfold sizeof_float.
  do 4 (split; [assumption || reflexivity|]). split.
  - intros Hpos Hfit. rewrite wrap_size_t_small by lia. split.
    + intros Heq. destruct (decide (ggml_nelements t_in = 0)); [now right|].
      left. nia.
    + intros [->| ->]; lia.
  - destruct (type t_in); cbn; split; intros; try discriminate;
      intuition (discriminate || auto).
Qed.

(** *** The arg-max ids *)





(** *** The call returns *)

Lemma print_tokens_total {S} (h : engine S) v l s :
  responsive h -> is_Some (interp h (print_tokens v l) s).
Proof.
  intros Hh. revert s. induction l as [|id l IH]; intros s; cbn [print_tokens].
  - cbn. eauto.
  - apply bind_total; [|intros _ s'; apply IH].
    apply when_total. now apply do_total.
Qed.

(** The tensor found under "encoder_out" in the graph of the pipeline:
    the leafs are searched in the order weight, input, bias. *)
Lemma get_input_tensor (tensors ctx0 : ggml_context) w b tw te gf :
  Forall2 named_by_graph (tensors ++ pipeline w b (length tensors) tw te) ctx0 ->
  tensors !! w = Some tw ->
  leafs gf = w :: length tensors :: (if decide (b = w) then [] else [b]) ->
  ggml_graph_get_tensor ctx0 gf "encoder_out"
  = Some (if bool_decide (name tw = "encoder_out") then w else length tensors).
Proof.
  intros Hnamed Hw Hleafs. unfold ggml_graph_get_tensor. rewrite Hleafs.
  cbn [find].
  destruct (named_ctx_lookup _ ctx0 w tw Hnamed (lookup_old _ _ w tw Hw))
    as (tw' & -> & Ntw).
  rewrite (bool_decide_ext _ _ (named_not_input tw tw' Ntw)).
  destruct (bool_decide (name tw = "encoder_out")); [reflexivity|].
  destruct (pipeline_lookup tensors ctx0 w b tw te 0 _ Hnamed eq_refl)
    as (t0 & L0 & N0).
  rewrite Nat.add_0_r in L0.
  apply named_keeps in N0 as ->; [|discriminate].
  rewrite L0. reflexivity.
Qed.

(** Under an engine that answers, a decode call returns whenever the
    builder returns a graph. *)
Lemma decode_returns {S} (h : engine S) cfg (tensors : ggml_context) ctx state
    n_threads tw tb te s :
  let w := ctc_out_linear_weight (model ctx) in
  let b := ctc_out_linear_bias (model ctx) in
  tensors !! w = Some tw -> tensors !! b = Some tb ->
  tensors !! encoder_out state = Some te ->
  is_param tw -> is_param tb ->
  builds cfg w (length tensors) tw tb te = true ->
  responsive h -> int_backends h ->
  is_Some (interp h (sense_voice_decode_internal cfg tensors ctx state n_threads) s).
Proof.
  intros w b Hw Hb He Hpw Hpb Hok Hh Hint.
  destruct (build_spec tensors cfg ctx state tw tb te Hw Hb He Hpw Hpb)
    as [(_ & vis & ctx0 & Hbuild & Hnamed)|(Hno & _)].
  2:{ fold w b in Hno. congruence. }
  fold w b in Hbuild, Hnamed.
  unfold sense_voice_decode_internal. rewrite Hbuild.
  apply bind_total; [now apply do_total|]. intros t0 s1.
  apply bind_total; [now apply do_total|]. intros ok s2.
  destruct ok; cbn [negb]; [|cbn; eauto].
  rewrite (get_input_tensor tensors ctx0 w b tw te
             {| size := 8;
                nodes := [(length tensors + 1)%nat; (length tensors + 2)%nat;
                          (length tensors + 3)%nat; (length tensors + 4)%nat];
                leafs := w :: length tensors
                         :: (if decide (b = w) then [] else [b]);
                visited := vis |} Hnamed Hw eq_refl).
  assert (Hdst : is_Some (ctx0 !! (if bool_decide (name tw = "encoder_out")
                                   then w else length tensors))).
  { destruct (bool_decide (name tw = "encoder_out")).
    - destruct (named_ctx_lookup _ ctx0 w tw Hnamed (lookup_old _ _ w tw Hw))
        as (tw' & -> & _). eauto.
    - destruct (pipeline_lookup tensors ctx0 w b tw te 0 _ Hnamed eq_refl)
        as (t0' & L0 & _).
      rewrite Nat.add_0_r in L0. rewrite L0. eauto. }
  destruct Hdst as [t_in ->].
  destruct (named_ctx_lookup _ ctx0 _ te Hnamed (lookup_old _ _ _ te He))
    as (te' & -> & _).
  apply bind_total; [now apply do_total|]. intros _ s3.
  apply bind_total; [now apply helper_total|]. intros computed s4.
  destruct computed; cbn [negb]; [|cbn; eauto].
  cbn [nodes last].
  destruct (pipeline_lookup tensors ctx0 w b tw te 4 _ Hnamed eq_refl)
    as (t4 & -> & _).
  apply bind_total; [now apply do_total|]. intros arr s5.
  apply bind_total; [now apply print_tokens_total|]. intros _ s6.
  apply bind_total; [now apply do_total|]. intros _ s7.
  apply bind_total; [now apply do_total|]. intros t1 s8.
  cbn. eauto.
Qed.

End DecodeFacts.

(** ** The split path of the padded product *)

Module SplitFacts.
Import CInt CIntFacts Ggml Shapes GgmlFacts Decoder MulMatPad BuilderFacts.

Lemma view_of_root (ctx : ggml_context) a ta ne0 ne1 ne2 nb1 nb2 off :
  ctx !! a = Some ta -> view_src ta = None ->
  ggml_view_3d a ne0 ne1 ne2 nb1 nb2 off ctx
  = Some (length ctx,
          ctx ++ [view_tensor a ta ne0 ne1 ne2 nb1 nb2 a off (data ta)]).
Proof.
  intros Ha Hv. rewrite ggml_view_3d_eq, Ha. unfold view_base. now rewrite Hv.
Qed.

(** The seven tensor objects of the split, for operands that are not
    views themselves.  The two products are created in the order in
    which the compiler evaluates the arguments of [ggml_add]. *)
Lemma pad_split_tensors cfg (ctx : ggml_context) x y tx ty pad :
  ctx !! x = Some tx -> ctx !! y = Some ty ->
  view_src tx = None -> view_src ty = None ->
  pad <> 0 ->
  0 <= d0 (ne tx) < 2 ^ 63 ->
  d0 (ne tx) * ggml_type_size (type tx) < 2 ^ 64 ->
  d0 (ne tx) * ggml_type_size (type ty) < 2 ^ 64 ->
  d0 (nb tx) = ggml_type_size (type tx) ->
  ggml_can_mul_mat tx ty = true -> ggml_is_transposed tx = false ->
  Z.rem (d0 (ne tx)) pad <> 0 -> ~ Z.quot (d0 (ne tx)) pad < 8 ->
  let n := length ctx in
  let q := Z.quot (d0 (ne tx)) pad in
  let r := Z.rem (d0 (ne tx)) pad in
  let X0 := view_tensor x tx (q * pad) (d1 (ne tx)) (d2 (ne tx))
              (d1 (nb tx)) (d2 (nb tx)) x 0 (data tx) in
  let X1 := view_tensor x tx r (d1 (ne tx)) (d2 (ne tx))
              (d1 (nb tx)) (d2 (nb tx)) x
              (q * pad * ggml_type_size (type tx)) (data tx) in
  let Y0 := view_tensor y ty (q * pad) (d1 (ne ty)) (d2 (ne ty))
              (d1 (nb ty)) (d2 (nb ty)) y 0 (data ty) in
  let Y1 := view_tensor y ty r (d1 (ne ty)) (d2 (ne ty))
              (d1 (nb ty)) (d2 (nb ty)) y
              (q * pad * ggml_type_size (type ty)) (data ty) in
  let M0 := mul_mat_tensor n (n + 2)%nat X0 Y0 in
  let M1 := mul_mat_tensor (n + 1)%nat (n + 3)%nat X1 Y1 in
  ggml_mul_mat_pad cfg x y pad ctx
  = Some ((n + 6)%nat,
          ctx ++ [X0; X1; Y0; Y1]
              ++ (if ARGS_RIGHT_TO_LEFT cfg
                  then [M1; M0; add_tensor (n + 5)%nat (n + 4)%nat M0]
                  else [M0; M1; add_tensor (n + 4)%nat (n + 5)%nat M0])).
Proof.
  intros Hx Hy Hvx Hvy Hpad Hn Hbx Hby Hnb Hcan Htr Hr Hq n q r X0 X1 Y0 Y1 M0 M1.
  pose proof Hcan as Hcan'. unfold ggml_can_mul_mat in Hcan'.
  apply andb_true_iff in Hcan' as [Hcan' Hc3].
  apply andb_true_iff in Hcan' as [Hc0 Hc2].
  apply Z.eqb_eq in Hc0, Hc2, Hc3.
  destruct (split_arith (d0 (ne tx)) pad Hn Hpad Hr Hq)
    as (Hpos & Hp0 & Hr0 & Hn0).
  pose proof (type_size_pos (type tx)) as Htsx.
  pose proof (type_size_pos (type ty)) as Htsy.
  rewrite (pad_split_eq cfg ctx x y tx ty pad Hx Hy Hpad Hr Hq).
  rewrite <- Hc0. fold q r.
  rewrite (wrap_int64_small (q * pad)) by (subst q; lia).
  rewrite (view_of_root ctx x tx _ _ _ _ _ _ Hx Hvx).
  rewrite lookup_new.
  fold X0.
  replace (d0 (ne X0) * d0 (nb X0)) with (q * pad * ggml_type_size (type tx))
    by reflexivity.
  rewrite wrap_size_t_small by (subst q; nia).
  rewrite (view_of_root (ctx ++ [X0]) x tx _ _ _ _ _ _
             (lookup_old _ _ x tx Hx) Hvx).
  fold X1.
  rewrite (view_of_root ((ctx ++ [X0]) ++ [X1]) y ty _ _ _ _ _ _
             (lookup_old _ _ y ty (lookup_old _ _ y ty Hy)) Hvy).
  rewrite lookup_new.
  fold Y0.
  replace (d0 (ne Y0) * d0 (nb Y0)) with (q * pad * ggml_type_size (type ty))
    by reflexivity.
  rewrite wrap_size_t_small by (subst q; nia).
  rewrite (view_of_root (((ctx ++ [X0]) ++ [X1]) ++ [Y0]) y ty _ _ _ _ _ _
             (lookup_old _ _ y ty (lookup_old _ _ y ty (lookup_old _ _ y ty Hy)))
             Hvy).
  fold Y1.
  rewrite !length_app. cbn [length]. fold n.
  repeat (rewrite <- !app_assoc; cbn [app]).
  assert (Hntr : forall X,
             nb X = Dim4 (ggml_type_size (type tx)) (d1 (nb tx))
                      (d2 (nb tx)) (d2 (nb tx) * d2 (ne tx)) ->
             ggml_is_transposed X = false).
  { intros X HX. unfold ggml_is_transposed in *. rewrite HX. cbn.
    now rewrite <- Hnb. }
  assert (Hc00 : ggml_can_mul_mat X0 Y0 = true).
  { unfold ggml_can_mul_mat. cbn. rewrite Hc2, Z.eqb_refl. reflexivity. }
  assert (Hc11 : ggml_can_mul_mat X1 Y1 = true).
  { unfold ggml_can_mul_mat. cbn. rewrite Hc2, Z.eqb_refl. reflexivity. }
  replace (n + 1 + 1)%nat with (n + 2)%nat by lia.
  replace (n + 2 + 1)%nat with (n + 3)%nat by lia.
  assert (L0 : forall l, (ctx ++ X0 :: l) !! n = Some X0).
  { intros l. apply (list_lookup_middle ctx l X0 n eq_refl). }
  unfold bind. destruct (ARGS_RIGHT_TO_LEFT cfg).
  - rewrite ggml_mul_mat_eq. subst n.
    rewrite !lookup_plus. cbn [lookup list_lookup].
    rewrite Hc11, (Hntr X1) by reflexivity. cbn [negb andb].
    fold M1.
    repeat (rewrite <- !app_assoc; cbn [app]).
    rewrite ggml_mul_mat_eq, L0.
    rewrite !lookup_plus. cbn [lookup list_lookup].
    rewrite Hc00, (Hntr X0) by reflexivity. cbn [negb andb].
    fold M0.
    repeat (rewrite <- !app_assoc; cbn [app]).
    rewrite !length_app. cbn [length].
    rewrite ggml_add_eq.
    rewrite !lookup_plus. cbn [lookup list_lookup].
    rewrite (can_repeat_same M1 M0) by reflexivity.
    repeat (rewrite <- !app_assoc; cbn [app]).
    rewrite length_app. reflexivity.
  - rewrite ggml_mul_mat_eq, L0. subst n.
    rewrite !lookup_plus. cbn [lookup list_lookup].
    rewrite Hc00, (Hntr X0) by reflexivity. cbn [negb andb].
    fold M0.
    repeat (rewrite <- !app_assoc; cbn [app]).
    rewrite ggml_mul_mat_eq.
    rewrite !lookup_plus. cbn [lookup list_lookup].
    rewrite Hc11, (Hntr X1) by reflexivity. cbn [negb andb].
    fold M1.
    repeat (rewrite <- !app_assoc; cbn [app]).
    rewrite !length_app. cbn [length].
    rewrite ggml_add_eq.
    rewrite !lookup_plus. cbn [lookup list_lookup].
    rewrite (can_repeat_same M1 M0) by reflexivity.
    repeat (rewrite <- !app_assoc; cbn [app]).
    rewrite length_app. reflexivity.
Qed.


(** X2.  The views of the split are three-dimensional, so the sum that
    the split path returns has 1 as its fourth extent, whereas the
    direct product keeps the fourth extent of [y]: for operands that
    take the split path, the two results have the same shape exactly
    when [y] has a fourth extent of 1. *)
Theorem ggml_mul_mat_pad_drops_dim3 (cfg : build_config) (ctx : ggml_context)
    (x y : tensor_ptr) (tx ty : ggml_tensor) (pad : Z) :
  ctx !! x = Some tx -> ctx !! y = Some ty ->
  view_src tx = None -> view_src ty = None ->
  pad <> 0 ->
  0 <= d0 (ne tx) < 2 ^ 63 ->
  d0 (ne tx) * ggml_type_size (type tx) < 2 ^ 64 ->
  d0 (ne tx) * ggml_type_size (type ty) < 2 ^ 64 ->
  d0 (nb tx) = ggml_type_size (type tx) ->
  ggml_can_mul_mat tx ty = true -> ggml_is_transposed tx = false ->
  Z.rem (d0 (ne tx)) pad <> 0 -> ~ Z.quot (d0 (ne tx)) pad < 8 ->
  exists z ctx1 tz z' ctx2 tz',
    ggml_mul_mat_pad cfg x y pad ctx = Some (z, ctx1) /\ ctx1 !! z = Some tz
    /\ ggml_mul_mat x y ctx = Some (z', ctx2) /\ ctx2 !! z' = Some tz'
    /\ ne tz = Dim4 (d1 (ne tx)) (d1 (ne ty)) (d2 (ne ty)) 1
    /\ ne tz' = Dim4 (d1 (ne tx)) (d1 (ne ty)) (d2 (ne ty)) (d3 (ne ty))
    /\ (ne tz = ne tz' <-> d3 (ne ty) = 1).
Proof.
  intros Hx Hy Hvx Hvy Hpad Hn Hbx Hby Hnb Hcan Htr Hr Hq.
  pose proof (pad_split_tensors cfg ctx x y tx ty pad Hx Hy Hvx Hvy Hpad Hn
                Hbx Hby Hnb Hcan Htr Hr Hq) as Heq.
  cbv zeta in Heq.
  destruct (ARGS_RIGHT_TO_LEFT cfg);
    (eexists _, _, _, _, _, _; split; [exact Heq|];
     split; [rewrite (lookup_plus ctx _ 6); reflexivity|];
     split; [rewrite ggml_mul_mat_eq, Hx, Hy, Hcan, Htr; reflexivity|];
     split; [apply lookup_new|];
     split; [reflexivity|]; split; [reflexivity|];
     cbn; split; [intros [= <-]; reflexivity | intros ->; reflexivity]).
Qed.

End SplitFacts.

(** ** The configuration loop of the compute helper *)

Module LoopFacts.
Import CInt CIntFacts Ggml Engine EngineFacts Decoder DriverFacts Traces.

Ltac pick_answers :=
  first [ exists true, true, true; reflexivity
        | exists true, true, false; reflexivity
        | exists true, false, true; reflexivity
        | exists true, false, false; reflexivity
        | exists false, true, true; reflexivity
        | exists false, true, false; reflexivity
        | exists false, false, true; reflexivity
        | exists false, false, false; reflexivity ].

Lemma configure_backend_events cfg backend n_threads tr m :
  runs (configure_backend cfg backend n_threads) tr tt ->
  exists c bl mt,
    tr = backend_events cfg n_threads
           {| r_count := m; r_backend := backend;
              r_cpu := c; r_blas := bl; r_metal := mt |}.
Proof.
  destruct cfg as [[] [] rtl]; unfold configure_backend, backend_events, when; cbn;
    intros (c & tr1 & -> & H); destruct c; cbn in H;
    repeat match goal with
      | H : exists _, _ |- _ => destruct H
      | H : _ /\ _ |- _ => destruct H
      | b : bool |- _ => destruct b; cbn in *
      end; subst; pick_answers.
Qed.

Lemma configure_round_events cfg sched n_threads next i tr :
  runs (configure_round cfg sched n_threads next i) tr tt ->
  (exists m, tr = [EvGetNBackends sched m] /\ m <= i)
  \/ (exists rd post,
        tr = round_events cfg sched n_threads i rd ++ post
        /\ i < r_count rd /\ runs (next (i + 1)) post tt).
Proof.
  unfold configure_round. intros H.
  apply runs_bind in H as (n & tr1 & tr2 & -> & Hn & H).
  apply runs_do in Hn as ->.
  destruct (Z.ltb_spec i n) as [Hlt|Hge].
  - apply runs_bind in H as (b & tr1 & tr3 & -> & Hb & H).
    apply runs_do in Hb as ->.
    apply runs_bind in H as ([] & tr4 & tr5 & -> & Hc & H).
    apply (configure_backend_events _ _ _ _ n) in Hc as (c & bl & mt & ->).
    right.
    exists {| r_count := n; r_backend := b;
              r_cpu := c; r_blas := bl; r_metal := mt |}, tr5.
    split; [reflexivity|]. split; [exact Hlt|exact H].
  - destruct H as [-> _]. left. exists n. split; [reflexivity|lia].
Qed.

Lemma loop_events_app cfg sched n_threads rds1 rds2 i :
  loop_events cfg sched n_threads i (rds1 ++ rds2)
  = loop_events cfg sched n_threads i rds1
    ++ loop_events cfg sched n_threads (i + Z.of_nat (length rds1)) rds2.
Proof.
  revert i. induction rds1 as [|rd rds1 IH]; intros i; cbn [loop_events app length].
  - now rewrite Z.add_0_r.
  - rewrite IH, <- app_assoc. do 3 f_equal. lia.
Qed.

Lemma counts_ok_app rds1 rds2 i :
  counts_ok i rds1 -> counts_ok (i + Z.of_nat (length rds1)) rds2 ->
  counts_ok i (rds1 ++ rds2).
Proof.
  revert i. induction rds1 as [|rd rds1 IH]; intros i; cbn [counts_ok app length].
  - now rewrite Z.add_0_r.
  - intros [Hlt H1] H2. split; [exact Hlt|]. apply IH; [exact H1|].
    replace (i + 1 + Z.of_nat (length rds1)) with (i + Z.of_nat (S (length rds1)))
      by lia.
    exact H2.
Qed.

(** The runs of [p] rounds: either the loop ends within them, on a count
    that is not above the index reached, or all [p] rounds run and the
    rest of the loop follows. *)
Lemma rounds_events cfg sched n_threads p :
  forall next i tr,
    runs (rounds p (configure_round cfg sched n_threads) next i) tr tt ->
    exists rds,
      counts_ok i rds
      /\ ((exists m,
             tr = loop_events cfg sched n_threads i rds ++ [EvGetNBackends sched m]
             /\ m <= i + Z.of_nat (length rds))
          \/ (exists post,
                tr = loop_events cfg sched n_threads i rds ++ post
                /\ Z.of_nat (length rds) = Z.pos p
                /\ runs (next (i + Z.pos p)) post tt)).
Proof.
  assert (Hone : forall next i tr,
             runs (configure_round cfg sched n_threads next i) tr tt ->
             exists rds,
               counts_ok i rds
               /\ ((exists m,
                      tr = loop_events cfg sched n_threads i rds
                           ++ [EvGetNBackends sched m]
                      /\ m <= i + Z.of_nat (length rds))
                   \/ (exists post,
                         tr = loop_events cfg sched n_threads i rds ++ post
                         /\ Z.of_nat (length rds) = 1
                         /\ runs (next (i + 1)) post tt))).
  { intros next i tr H.
    apply configure_round_events in H as [(m & -> & Hm)|(rd & post & -> & Hlt & H)].
    - exists []. split; [exact I|]. left. exists m. split; [reflexivity|cbn; lia].
    - exists [rd]. split; [cbn; auto|]. right. exists post.
      cbn [loop_events length]. rewrite app_nil_r. auto. }
  assert (Hseq : forall (k1 k2 : Z) (next1 next2 : Z -> proc unit) i tr,
             (forall i tr, runs (next1 i) tr tt -> exists rds,
                 counts_ok i rds
                 /\ ((exists m,
                        tr = loop_events cfg sched n_threads i rds
                             ++ [EvGetNBackends sched m]
                        /\ m <= i + Z.of_nat (length rds))
                     \/ (exists post,
                           tr = loop_events cfg sched n_threads i rds ++ post
                           /\ Z.of_nat (length rds) = k2
                           /\ runs (next2 (i + k2)) post tt))) ->
             (exists rds,
                 counts_ok i rds
                 /\ ((exists m,
                        tr = loop_events cfg sched n_threads i rds
                             ++ [EvGetNBackends sched m]
                        /\ m <= i + Z.of_nat (length rds))
                     \/ (exists post,
                           tr = loop_events cfg sched n_threads i rds ++ post
                           /\ Z.of_nat (length rds) = k1
                           /\ runs (next1 (i + k1)) post tt))) ->
             exists rds,
               counts_ok i rds
               /\ ((exists m,
                      tr = loop_events cfg sched n_threads i rds
                           ++ [EvGetNBackends sched m]
                      /\ m <= i + Z.of_nat (length rds))
                   \/ (exists post,
                         tr = loop_events cfg sched n_threads i rds ++ post
                         /\ Z.of_nat (length rds) = k1 + k2
                         /\ runs (next2 (i + (k1 + k2))) post tt))).
  { intros k1 k2 next1 next2 i tr H2 (rds1 & Hok1 & [H1|(post & -> & Hlen1 & H1)]).
    { exists rds1. split; [exact Hok1|]. now left. }
    apply H2 in H1 as (rds2 & Hok2 & H1).
    exists (rds1 ++ rds2). rewrite <- Hlen1 in Hok2.
    split; [now apply counts_ok_app|].
    rewrite loop_events_app, length_app, Nat2Z.inj_add, Hlen1.
    destruct H1 as [(m & -> & Hm)|(post2 & -> & Hlen2 & H1)].
    - left. exists m. rewrite <- app_assoc. split; [reflexivity|lia].
    - right. exists post2. rewrite <- app_assoc, Z.add_assoc.
      split; [reflexivity|]. split; [lia|exact H1]. }
  induction p as [p IH|p IH|]; intros next i tr H; cbn [rounds] in H.
  - replace (Z.pos p~1) with (1 + (Z.pos p + Z.pos p)) by lia.
    apply (Hseq 1 (Z.pos p + Z.pos p)
             (rounds p (configure_round cfg sched n_threads)
                (rounds p (configure_round cfg sched n_threads) next)) next).
    + intros i' tr' H'.
      apply (Hseq (Z.pos p) (Z.pos p)
               (rounds p (configure_round cfg sched n_threads) next) next).
      * intros i'' tr'' H''. now apply IH.
      * now apply IH.
    + now apply Hone.
  - replace (Z.pos p~0) with (Z.pos p + Z.pos p) by lia.
    apply (Hseq (Z.pos p) (Z.pos p)
             (rounds p (configure_round cfg sched n_threads) next) next).
    + intros i' tr' H'. now apply IH.
    + now apply IH.
  - now apply Hone.
Qed.

Lemma configure_backends_events cfg sched n_threads tr :
  runs (configure_backends cfg sched n_threads) tr tt ->
  exists rds m,
    tr = loop_events cfg sched n_threads 0 rds ++ [EvGetNBackends sched m]
    /\ counts_ok 0 rds /\ m <= Z.of_nat (length rds).
Proof.
  unfold configure_backends. intros H.
  apply rounds_events in H as (rds & Hok & [(m & -> & Hm)|(post & _ & _ & H)]).
  - exists rds, m. split; [reflexivity|]. split; [exact Hok|lia].
  - destruct (runs_stop _ _ H).
Qed.

(** Every run of [ggml_graph_compute_helper]: the rounds of the loop, the
    count that ends it, the execution of the graph, the reset. *)
Lemma helper_events cfg sched graph n_threads tr r :
  runs (ggml_graph_compute_helper cfg sched graph n_threads) tr r ->
  exists rds m status,
    tr = loop_events cfg sched n_threads 0 rds
         ++ [EvGetNBackends sched m; EvSchedGraphCompute sched graph status;
             EvSchedReset sched]
    /\ counts_ok 0 rds /\ m <= Z.of_nat (length rds)
    /\ r = bool_decide (status = GGML_STATUS_SUCCESS).
Proof.
  unfold ggml_graph_compute_helper. intros H.
  apply runs_bind in H as ([] & pre & tr2 & -> & Hpre & H).
  apply configure_backends_events in Hpre as (rds & m & -> & Hok & Hm).
  apply runs_bind in H as (status & tr1 & tr3 & -> & Hs & H).
  apply runs_do in Hs as ->.
  apply runs_bind in H as ([] & tr1 & tr4 & -> & Hr & H).
  apply runs_do in Hr as ->. destruct H as [-> <-].
  exists rds, m, status. rewrite <- app_assoc.
  split; [reflexivity|]. split; [exact Hok|]. split; [exact Hm|reflexivity].
Qed.

(** *** Reading the calls of the loop *)

Lemma index_backend_events cfg n_threads rd :
  omap backend_index (backend_events cfg n_threads rd) = []
  /\ omap backend_count (backend_events cfg n_threads rd) = [].
Proof. destruct cfg as [[] [] rtl], rd as [m b [] [] []]; split; reflexivity. Qed.

Lemma index_loop_events cfg sched n_threads rds :
  forall i,
    omap backend_index (loop_events cfg sched n_threads i rds)
    = seqZ i (Z.of_nat (length rds)).
Proof.
  induction rds as [|rd rds IH]; intros i; [reflexivity|].
  cbn [loop_events length].
  change (round_events cfg sched n_threads i rd)
    with ([EvGetNBackends sched (r_count rd); EvGetBackend sched i (r_backend rd)]
          ++ backend_events cfg n_threads rd).
  rewrite !omap_app.
  rewrite (proj1 (index_backend_events cfg n_threads rd)), IH.
  change (omap backend_index
            [EvGetNBackends sched (r_count rd); EvGetBackend sched i (r_backend rd)])
    with [i].
  rewrite (seqZ_cons i) by lia. cbn [app]. do 2 f_equal; lia.
Qed.

Lemma count_loop_events cfg sched n_threads rds :
  forall i,
    omap backend_count (loop_events cfg sched n_threads i rds) = r_count <$> rds.
Proof.
  induction rds as [|rd rds IH]; intros i; [reflexivity|].
  cbn [loop_events].
  change (round_events cfg sched n_threads i rd)
    with ([EvGetNBackends sched (r_count rd); EvGetBackend sched i (r_backend rd)]
          ++ backend_events cfg n_threads rd).
  rewrite !omap_app.
  rewrite (proj2 (index_backend_events cfg n_threads rd)), IH. reflexivity.
Qed.

(** With the same count [n] read before every round, the last round ran
    at an index below [n]. *)
Lemma counts_ok_const n rds :
  forall i,
    counts_ok i rds -> Forall (fun m => m = n) (r_count <$> rds) ->
    rds <> [] -> i + Z.of_nat (length rds) - 1 < n.
Proof.
  induction rds as [|rd rds IH]; intros i Hok Hall Hne; [contradiction|].
  cbn [counts_ok] in Hok. destruct Hok as [Hlt Hok].
  rewrite fmap_cons in Hall. apply Forall_cons in Hall as [Hrd Hall].
  destruct rds as [|rd' rds].
  - cbn. lia.
  - specialize (IH (i + 1) Hok Hall ltac:(discriminate)).
    cbn [length] in *. lia.
Qed.

Ltac in_round H :=
  cbn in H;
  repeat match type of H with
    | _ \/ _ => destruct H as [H|H]
    end;
  try discriminate H; try contradiction H.

Ltac cut_at :=
  first [ eexists [_; _], _; cbn; reflexivity
        | eexists [_; _; _], _; cbn; reflexivity
        | eexists [_; _; _; _], _; cbn; reflexivity
        | eexists [_; _; _; _; _], _; cbn; reflexivity
        | eexists [_; _; _; _; _; _], _; cbn; reflexivity ].

Ltac adjacent_in_loop :=
  let rd := fresh "rd" in
  let rds := fresh "rds" in
  let IH := fresh "IH" in
  let H := fresh "H" in
  let i := fresh "i" in
  intros rds; induction rds as [|rd rds IH]; intros i H; [destruct H|];
  cbn [loop_events] in H; apply in_app_or in H as [H|H];
  [ destruct rd as [m b0 [] [] []];
    match goal with cfg : build_config |- _ => destruct cfg as [[] [] rtl] end;
    in_round H; injection H as <- <-; (split; [reflexivity|]);
    cbn [loop_events]; cut_at
  | destruct (IH _ H) as (-> & l1 & l2 & Heq);
    split; [reflexivity|];
    cbn [loop_events]; rewrite Heq; eexists (_ ++ l1), l2;
    rewrite <- app_assoc; reflexivity ].

Lemma loop_cpu_set cfg sched n_threads b n :
  forall rds i,
    In (EvCpuSetNThreads b n) (loop_events cfg sched n_threads i rds) ->
    n = n_threads
    /\ exists l1 l2,
         loop_events cfg sched n_threads i rds
         = l1 ++ EvIsCpu b true :: EvCpuSetNThreads b n :: l2.
Proof. adjacent_in_loop. Qed.

Lemma loop_blas_set cfg sched n_threads b n :
  forall rds i,
    In (EvBlasSetNThreads b n) (loop_events cfg sched n_threads i rds) ->
    n = n_threads
    /\ exists l1 l2,
         loop_events cfg sched n_threads i rds
         = l1 ++ EvIsBlas b true :: EvBlasSetNThreads b n :: l2.
Proof. adjacent_in_loop. Qed.

Lemma loop_metal_set cfg sched n_threads b n :
  forall rds i,
    In (EvMetalSetNCb b n) (loop_events cfg sched n_threads i rds) ->
    n = n_threads
    /\ exists l1 l2,
         loop_events cfg sched n_threads i rds
         = l1 ++ EvIsMetal b true :: EvMetalSetNCb b n :: l2.
Proof. adjacent_in_loop. Qed.

Lemma loop_asks_blas cfg sched n_threads b a :
  forall rds i,
    In (EvIsBlas b a) (loop_events cfg sched n_threads i rds) ->
    GGML_USE_BLAS cfg = true.
Proof.
  intros rds. induction rds as [|rd rds IH]; intros i H; [destruct H|].
  cbn [loop_events] in H. apply in_app_or in H as [H|H]; [|now apply (IH _ H)].
  destruct rd as [m b0 [] [] []], cfg as [[] [] rtl]; in_round H; reflexivity.
Qed.

Lemma loop_asks_metal cfg sched n_threads b a :
  forall rds i,
    In (EvIsMetal b a) (loop_events cfg sched n_threads i rds) ->
    GGML_USE_METAL cfg = true.
Proof.
  intros rds. induction rds as [|rd rds IH]; intros i H; [destruct H|].
  cbn [loop_events] in H. apply in_app_or in H as [H|H]; [|now apply (IH _ H)].
  destruct rd as [m b0 [] [] []], cfg as [[] [] rtl]; in_round H; reflexivity.
Qed.

Lemma loop_events_config cfg sched n_threads ev :
  forall rds i,
    In ev (loop_events cfg sched n_threads i rds) -> is_config ev = true.
Proof.
  intros rds. induction rds as [|rd rds IH]; intros i Hev; [destruct Hev|].
  cbn [loop_events] in Hev. apply in_app_or in Hev as [Hev|Hev];
    [|exact (IH _ Hev)].
  destruct rd as [c b0 [] [] []], cfg as [[] [] rtl]; cbn in Hev;
    repeat (destruct Hev as [<-|Hev]; [reflexivity|]); destruct Hev.
Qed.

Ltac in_loop H :=
  apply in_app_or in H as [H|H];
  [|cbn in H; repeat (destruct H as [H|H]; [discriminate H|]); destruct H].

(** X3.  In every run of [ggml_graph_compute_helper], each call that
    sets a thread count (CPU, BLAS) or a command-buffer count (Metal)
    passes the [n_threads] the helper was given, and is the call that
    follows the backend's own answer that it is of that kind; and a
    backend is asked whether it is a BLAS or a Metal backend only in a
    build with GGML_USE_BLAS or GGML_USE_METAL. *)
Theorem helper_configures_backends (cfg : build_config)
    (sched : ggml_backend_sched_t) (graph : ggml_cgraph) (n_threads : Z)
    (tr : list event) (r : bool) :
  runs (ggml_graph_compute_helper cfg sched graph n_threads) tr r ->
  (forall b n, In (EvCpuSetNThreads b n) tr ->
     n = n_threads
     /\ exists l1 l2, tr = l1 ++ EvIsCpu b true :: EvCpuSetNThreads b n :: l2)
  /\ (forall b n, In (EvBlasSetNThreads b n) tr ->
        n = n_threads
        /\ exists l1 l2,
             tr = l1 ++ EvIsBlas b true :: EvBlasSetNThreads b n :: l2)
  /\ (forall b n, In (EvMetalSetNCb b n) tr ->
        n = n_threads
        /\ exists l1 l2,
             tr = l1 ++ EvIsMetal b true :: EvMetalSetNCb b n :: l2)
  /\ (forall b a, In (EvIsBlas b a) tr -> GGML_USE_BLAS cfg = true)
  /\ (forall b a, In (EvIsMetal b a) tr -> GGML_USE_METAL cfg = true).
Proof.
  intros H. apply helper_events in H as (rds & m & status & -> & _ & _ & _).
  split; [|split; [|split; [|split]]]; intros b n Hin; in_loop Hin.
  - destruct (loop_cpu_set _ _ _ _ _ _ _ Hin) as (-> & l1 & l2 & ->).
    split; [reflexivity|]. eexists l1, _. rewrite <- app_assoc. reflexivity.
  - destruct (loop_blas_set _ _ _ _ _ _ _ Hin) as (-> & l1 & l2 & ->).
    split; [reflexivity|]. eexists l1, _. rewrite <- app_assoc. reflexivity.
  - destruct (loop_metal_set _ _ _ _ _ _ _ Hin) as (-> & l1 & l2 & ->).
    split; [reflexivity|]. eexists l1, _. rewrite <- app_assoc. reflexivity.
  - exact (loop_asks_blas _ _ _ _ _ _ _ Hin).
  - exact (loop_asks_metal _ _ _ _ _ _ _ Hin).
Qed.

(** X4.  In every run of [ggml_graph_compute_helper] the loop asks the
    scheduler for the backends at the indices 0, 1, ..., k - 1, in this
    order and each once, and reads the backend count k + 1 times (once
    before every round and once to end the loop); when every reading of
    the count gives the same [n], k is [n] (and 0 for a count that is
    not positive). *)
Theorem helper_visits_backends_in_order (cfg : build_config)
    (sched : ggml_backend_sched_t) (graph : ggml_cgraph) (n_threads : Z)
    (tr : list event) (r : bool) :
  runs (ggml_graph_compute_helper cfg sched graph n_threads) tr r ->
  exists k : nat,
    omap backend_index tr = seqZ 0 (Z.of_nat k)
    /\ length (omap backend_count tr) = S k
    /\ forall n, Forall (fun m => m = n) (omap backend_count tr) ->
                 Z.of_nat k = Z.max 0 n.
Proof.
  intros H. apply helper_events in H as (rds & m & status & -> & Hok & Hm & _).
  exists (length rds). rewrite !omap_app, index_loop_events, count_loop_events.
  cbn [omap list_omap backend_index backend_count].
  split; [now rewrite app_nil_r|].
  split; [rewrite length_app, length_fmap; cbn; lia|].
  intros n Hall. apply Forall_app in Hall as [Hall Hlast].
  apply Forall_cons in Hlast as [-> _].
  destruct rds as [|rd rds]; [cbn in *; lia|].
  pose proof (counts_ok_const n (rd :: rds) 0 Hok Hall ltac:(discriminate)).
  lia.
Qed.

End LoopFacts.

(** ** The graph of the decoder *)

Module GraphFacts.
Import CInt CIntFacts Ggml Shapes GgmlFacts Engine EngineFacts Decoder
       MulMatPad BuilderFacts.

(** The builder depends on the build configuration only through the
    product it expands [ggml_mul_mat] to. *)
Lemma build_macro_congr (tensors : ggml_context) cfg cfg' ctx state te :
  tensors !! encoder_out state = Some te ->
  ggml_mul_mat_macro cfg (ctc_out_linear_weight (model ctx)) (length tensors)
    (tensors ++ [pipeline_in te])
  = ggml_mul_mat_macro cfg' (ctc_out_linear_weight (model ctx)) (length tensors)
      (tensors ++ [pipeline_in te]) ->
  sense_voice_build_graph_ctc_decoder cfg ctx state tensors
  = sense_voice_build_graph_ctc_decoder cfg' ctx state tensors.
Proof.
  intros He Hmacro.
  unfold sense_voice_build_graph_ctc_decoder, ggml_new_graph_custom,
    ggml_new_tensor_2d, ggml_set_name, ggml_set_input, bind, ret, deref.
  rewrite He. rewrite new_tensor_eq. rewrite !modify_new.
  fold (pipeline_in te). now rewrite Hmacro.
Qed.


Lemma macro_direct cfg (ctx : ggml_context) w y tw :
  ctx !! w = Some tw ->
  Z.rem (d0 (ne tw)) 32 = 0 \/ Z.quot (d0 (ne tw)) 32 < 8 ->
  ggml_mul_mat_macro cfg w y ctx = ggml_mul_mat w y ctx.
Proof.
  intros Hw Hfb. unfold ggml_mul_mat_macro.
  destruct (GGML_USE_METAL cfg); [|reflexivity].
  apply (pad_fallback_eq cfg ctx w y tw 32 Hw); [lia|exact Hfb].
Qed.

(** X5.  A graph returned by [sense_voice_build_graph_ctc_decoder] comes
    with the tensor objects that existed before followed by exactly five
    new ones.  Of the objects that existed before, all but the
    projection weight and bias are unchanged, and so are the weight and
    the bias when they have a name; one that has no name is unchanged or
    has been given the name of a graph slot ("leaf_%d" or "node_%d"),
    all its other fields being as before.  The first new object is the input of
    the graph: a tensor without operation and without data, named
    "encoder_out" and flagged as input, with the element type and the
    first two extents of the session's encoder output and 1 for the
    other two.  None of the other four is flagged as input, and the
    projection and the bias sum are not flagged as output. *)
Theorem builder_appends_five_tensors (tensors : ggml_context)
    (cfg : build_config) (ctx : sense_voice_context) (state : sense_voice_state)
    (tw tb te : ggml_tensor) (gf : ggml_cgraph) (ctx0 : ggml_context) :
  tensors !! ctc_out_linear_weight (model ctx) = Some tw ->
  tensors !! ctc_out_linear_bias (model ctx) = Some tb ->
  is_param tw -> is_param tb ->
  tensors !! encoder_out state = Some te ->
  sense_voice_build_graph_ctc_decoder cfg ctx state tensors = Some (gf, ctx0) ->
  exists kept t_in t_mm t_add t_probs t_ids,
    ctx0 = kept ++ [t_in; t_mm; t_add; t_probs; t_ids]
    /\ Forall2 named_by_graph tensors kept
    /\ (forall i t, tensors !! i = Some t -> name t <> EmptyString ->
                    ctx0 !! i = Some t)
    /\ (forall i t, tensors !! i = Some t ->
                    i <> ctc_out_linear_weight (model ctx) ->
                    i <> ctc_out_linear_bias (model ctx) ->
                    ctx0 !! i = Some t)
    /\ (op t_in = GGML_OP_NONE /\ src t_in = [] /\ view_src t_in = None
        /\ data t_in = 0 /\ name t_in = "encoder_out"
        /\ flag_input t_in = true /\ flag_output t_in = false)
    /\ (type t_in = type te /\ ne t_in = Dim4 (d0 (ne te)) (d1 (ne te)) 1 1)
    /\ Forall (fun t => flag_input t = false) [t_mm; t_add; t_probs; t_ids]
    /\ Forall (fun t => flag_output t = false) [t_mm; t_add].
Proof.
  intros Hw Hb Hpw Hpb He Hbuild.
  pose proof (build_frame tensors cfg ctx state tw tb gf ctx0 Hw Hb Hpw Hpb Hbuild)
    as Hframe.
  destruct (build_inv tensors cfg ctx state tw tb gf ctx0 Hw Hb Hpw Hpb Hbuild)
    as (te' & He' & _ & _ & _ & Hnamed).
  assert (te' = te) as -> by congruence.
  pose proof Hnamed as Hsplit.
  apply Forall2_app_inv_l in Hsplit as (kept & five & Hkept & Hfive & ->).
  unfold pipeline in Hfive.
  apply Forall2_cons_inv_l in Hfive as (t_in & l1 & N0 & Hfive & ->).
  apply Forall2_cons_inv_l in Hfive as (t_mm & l2 & N1 & Hfive & ->).
  apply Forall2_cons_inv_l in Hfive as (t_add & l3 & N2 & Hfive & ->).
  apply Forall2_cons_inv_l in Hfive as (t_probs & l4 & N3 & Hfive & ->).
  apply Forall2_cons_inv_l in Hfive as (t_ids & l5 & N4 & Hfive & ->).
  apply Forall2_nil_inv_l in Hfive as ->.
  apply named_keeps in N0 as ->; [|discriminate].
  apply named_fields in N1 as (_ & _ & _ & _ & I1 & F1 & _).
  apply named_fields in N2 as (_ & _ & _ & _ & I2 & F2 & _).
  apply named_fields in N3 as (_ & _ & _ & _ & I3 & _).
  apply named_fields in N4 as (_ & _ & _ & _ & I4 & _).
  exists kept, (pipeline_in te), t_mm, t_add, t_probs, t_ids.
  split; [reflexivity|]. split; [exact Hkept|].
  split.
  { intros i t Hi Hname.
    destruct (named_ctx_lookup _ _ i t Hnamed (lookup_old _ _ i t Hi))
      as (t' & Hi' & Ht').
    now apply named_keeps in Ht' as ->. }
  split; [exact Hframe|].
  split; [repeat split|]. split; [split; reflexivity|].
  split; repeat constructor; assumption.
Qed.

(** X6.  In a graph returned by the builder the projection, the bias
    sum and the soft-max are F32 tensors of [ne[1]] of the weight (the
    vocabulary size) by [ne[1]] of the session's encoder output (the
    number of frames), and the arg-max, the last node, is an I32 tensor
    with one entry per frame. *)
Theorem builder_output_shapes (tensors : ggml_context)
    (cfg : build_config) (ctx : sense_voice_context) (state : sense_voice_state)
    (tw tb te : ggml_tensor) (gf : ggml_cgraph) (ctx0 : ggml_context) :
  tensors !! ctc_out_linear_weight (model ctx) = Some tw ->
  tensors !! ctc_out_linear_bias (model ctx) = Some tb ->
  is_param tw -> is_param tb ->
  tensors !! encoder_out state = Some te ->
  sense_voice_build_graph_ctc_decoder cfg ctx state tensors = Some (gf, ctx0) ->
  exists cur1 cur2 probs ids t1 t2 tp ti,
    nodes gf = [cur1; cur2; probs; ids]
    /\ ctx0 !! cur1 = Some t1 /\ ctx0 !! cur2 = Some t2
    /\ ctx0 !! probs = Some tp /\ ctx0 !! ids = Some ti
    /\ Forall (fun t => type t = GGML_TYPE_F32
                        /\ ne t = Dim4 (d1 (ne tw)) (d1 (ne te)) 1 1)
         [t1; t2; tp]
    /\ type ti = GGML_TYPE_I32 /\ ne ti = Dim4 (d1 (ne te)) 1 1 1
    /\ ggml_nelements ti = d1 (ne te).
Proof.
  intros Hw Hb Hpw Hpb He Hbuild.
  destruct (build_inv tensors cfg ctx state tw tb gf ctx0 Hw Hb Hpw Hpb Hbuild)
    as (te' & He' & _ & Hnodes & _ & Hnamed).
  assert (te' = te) as -> by congruence.
  destruct (pipeline_lookup tensors ctx0 _ _ tw te 1 _ Hnamed eq_refl)
    as (t1 & L1 & N1).
  destruct (pipeline_lookup tensors ctx0 _ _ tw te 2 _ Hnamed eq_refl)
    as (t2 & L2 & N2).
  destruct (pipeline_lookup tensors ctx0 _ _ tw te 3 _ Hnamed eq_refl)
    as (t3 & L3 & N3).
  destruct (pipeline_lookup tensors ctx0 _ _ tw te 4 _ Hnamed eq_refl)
    as (t4 & L4 & N4).
  apply named_fields in N1 as (T1 & E1 & _).
  apply named_fields in N2 as (T2 & E2 & _).
  apply named_fields in N3 as (T3 & E3 & _).
  apply named_fields in N4 as (T4 & E4 & _).
  exists (length tensors + 1)%nat, (length tensors + 2)%nat,
    (length tensors + 3)%nat, (length tensors + 4)%nat, t1, t2, t3, t4.
  split; [exact Hnodes|].
  do 4 (split; [assumption|]).
  split.
  { repeat constructor; try (rewrite ?T1, ?T2, ?T3; reflexivity);
      rewrite ?E1, ?E2, ?E3; reflexivity. }
  split; [now rewrite T4|]. split; [now rewrite E4|].
  unfold ggml_nelements. rewrite E4. cbn. lia.
Qed.

(** X7.  When the hidden size, dimension 0 of the projection weight, is a
    multiple of 32 or below 256, the builder returns the same result in
    every build configuration: the [ggml_mul_mat] of a Metal build is
    then the direct product. *)
Theorem builder_same_graph_when_aligned (tensors : ggml_context)
    (cfg cfg' : build_config) (ctx : sense_voice_context)
    (state : sense_voice_state) (tw : ggml_tensor) :
  tensors !! ctc_out_linear_weight (model ctx) = Some tw ->
  Z.rem (d0 (ne tw)) 32 = 0 \/ Z.quot (d0 (ne tw)) 32 < 8 ->
  sense_voice_build_graph_ctc_decoder cfg ctx state tensors
  = sense_voice_build_graph_ctc_decoder cfg' ctx state tensors.
Proof.
  intros Hw Hfb.
  destruct (tensors !! encoder_out state) as [te|] eqn:He.
  - apply (build_macro_congr tensors cfg cfg' ctx state te He).
    rewrite !(macro_direct _ _ _ _ tw) by (trivial; now apply lookup_old).
    reflexivity.
  - now rewrite !build_None.
Qed.



End GraphFacts.

(** ** The calls of a decode call *)

Module CallFacts.
Import CInt CIntFacts Ggml Shapes GgmlFacts Engine EngineFacts Decoder
       BuilderFacts DriverFacts Runs DecodeFacts Traces LoopFacts.

(** The destination of the only [ggml_backend_tensor_set] of a decode
    call is what [ggml_graph_get_tensor] finds under "encoder_out". *)
Lemma tensor_set_target ctx state gf (ctx0 : ggml_context) tr r dst dat off sz :
  decode_run ctx state gf ctx0 tr r ->
  In (EvTensorSet dst dat off sz) tr ->
  exists t_in t_enc,
    ggml_graph_get_tensor ctx0 gf "encoder_out" = Some dst
    /\ ctx0 !! dst = Some t_in
    /\ ctx0 !! encoder_out state = Some t_enc
    /\ dat = data t_enc /\ off = 0
    /\ sz = wrap_size_t (ggml_nelements t_in * sizeof_float).
Proof.
  intros Hrun Hin.
  assert (Hf : In (EvTensorSet dst dat off sz) (List.filter is_tensor_set tr)).
  { apply List.filter_In. auto. }
  clear Hin. inversion Hrun; subst; unfold trace_until_reset in Hf;
    rewrite ?List.filter_app in Hf;
    rewrite ?(filter_config _ pre) in Hf by (is_cfg || assumption);
    rewrite ?filter_tokens in Hf by reflexivity;
    cbn in Hf; try contradiction;
    destruct Hf as [[= <- <- <- <-]|[]];
    exists t_in, t_enc; repeat split; assumption.
Qed.

(** X10.  When the projection weight is not itself named "encoder_out",
    the only copy a decode call issues has as its destination the input
    tensor the builder has just created (never a tensor that existed
    before the call); its source is the data of the session's encoder
    output, its offset is 0, and its byte count is [ne[0] * ne[1] * 4]
    of the session's encoder output. *)
Theorem decode_copies_into_fresh_input (cfg : build_config)
    (tensors : ggml_context) (ctx : sense_voice_context)
    (state : sense_voice_state) (n_threads : Z) (tw tb te : ggml_tensor)
    (tr : list event) (r : bool * sense_voice_state) (dst : tensor_ptr)
    (dat off sz : Z) :
  tensors !! ctc_out_linear_weight (model ctx) = Some tw ->
  tensors !! ctc_out_linear_bias (model ctx) = Some tb ->
  is_param tw -> is_param tb ->
  tensors !! encoder_out state = Some te ->
  name tw <> "encoder_out" ->
  runs (sense_voice_decode_internal cfg tensors ctx state n_threads) tr r ->
  In (EvTensorSet dst dat off sz) tr ->
  dst = length tensors /\ tensors !! dst = None
  /\ dat = data te /\ off = 0
  /\ sz = wrap_size_t (d0 (ne te) * d1 (ne te) * 4).
Proof.
  intros Hw Hb Hpw Hpb He Hname Hrun Hin.
  apply decode_inv in Hrun as (gf & ctx0 & Hbuild & Hrun).
  destruct (build_inv tensors cfg ctx state tw tb gf ctx0 Hw Hb Hpw Hpb Hbuild)
    as (te' & He' & _ & _ & Hleafs & Hnamed).
  assert (te' = te) as -> by congruence.
  destruct (tensor_set_target _ _ _ _ _ _ _ _ _ _ Hrun Hin)
    as (t_in & t_enc & Hget & Hdst & Henc & -> & -> & ->).
  rewrite (get_input_tensor tensors ctx0 _ _ tw te gf Hnamed Hw Hleafs) in Hget.
  rewrite bool_decide_eq_false_2 in Hget by assumption.
  injection Hget as <-.
  destruct (pipeline_lookup tensors ctx0 _ _ tw te 0 _ Hnamed eq_refl)
    as (t0 & L0 & N0).
  rewrite Nat.add_0_r in L0. apply named_keeps in N0 as ->; [|discriminate].
  rewrite L0 in Hdst. injection Hdst as <-.
  destruct (named_ctx_lookup _ ctx0 _ te Hnamed (lookup_old _ _ _ te He))
    as (te' & Le & Ne).
  rewrite Le in Henc. injection Henc as <-.
  apply named_fields in Ne as (_ & _ & _ & _ & _ & _ & _ & _ & _ & Hdat).
  split; [reflexivity|]. split; [apply lookup_ge_None_2; lia|].
  split; [exact Hdat|]. split; [reflexivity|].
  f_equal. unfold ggml_nelements, sizeof_float. cbn. lia.
Qed.

(** X11.  When the projection weight is named "encoder_out", the lookup
    by name finds the weight before the input of the graph, and the copy
    of a decode call is issued with the weight as its destination, the
    data of the session's encoder output as its source, and the element
    count of the weight times 4 as its byte count. *)
Theorem decode_name_collision_overwrites_weight (cfg : build_config)
    (tensors : ggml_context) (ctx : sense_voice_context)
    (state : sense_voice_state) (n_threads : Z) (tw tb te : ggml_tensor)
    (tr : list event) (r : bool * sense_voice_state) (dst : tensor_ptr)
    (dat off sz : Z) :
  tensors !! ctc_out_linear_weight (model ctx) = Some tw ->
  tensors !! ctc_out_linear_bias (model ctx) = Some tb ->
  is_param tw -> is_param tb ->
  tensors !! encoder_out state = Some te ->
  name tw = "encoder_out" ->
  runs (sense_voice_decode_internal cfg tensors ctx state n_threads) tr r ->
  In (EvTensorSet dst dat off sz) tr ->
  dst = ctc_out_linear_weight (model ctx)
  /\ dat = data te /\ off = 0
  /\ sz = wrap_size_t (ggml_nelements tw * 4).
Proof.
  intros Hw Hb Hpw Hpb He Hname Hrun Hin.
  apply decode_inv in Hrun as (gf & ctx0 & Hbuild & Hrun).
  destruct (build_inv tensors cfg ctx state tw tb gf ctx0 Hw Hb Hpw Hpb Hbuild)
    as (te' & He' & _ & _ & Hleafs & Hnamed).
  assert (te' = te) as -> by congruence.
  destruct (tensor_set_target _ _ _ _ _ _ _ _ _ _ Hrun Hin)
    as (t_in & t_enc & Hget & Hdst & Henc & -> & -> & ->).
  rewrite (get_input_tensor tensors ctx0 _ _ tw te gf Hnamed Hw Hleafs) in Hget.
  rewrite bool_decide_eq_true_2 in Hget by assumption.
  injection Hget as <-.
  destruct (named_ctx_lookup _ ctx0 _ tw Hnamed (lookup_old _ _ _ tw Hw))
    as (tw' & Lw & Nw).
  rewrite Lw in Hdst. injection Hdst as <-.
  destruct (named_ctx_lookup _ ctx0 _ te Hnamed (lookup_old _ _ _ te He))
    as (te' & Le & Ne).
  rewrite Le in Henc. injection Henc as <-.
  apply named_fields in Ne as (_ & _ & _ & _ & _ & _ & _ & _ & _ & Hdat).
  apply named_fields in Nw as (_ & Hnew & _).
  split; [reflexivity|]. split; [exact Hdat|]. split; [reflexivity|].
  unfold ggml_nelements, sizeof_float. now rewrite Hnew.
Qed.

(** X12.  A decode call that returns success has read the ids from the
    arg-max tensor once and stores them in place of the ids the session
    held: one id for each of the [ne[1]] frames of the session's encoder
    output, entry [i] of the array read for frame [i].  The encoder
    output and the scheduler of the session are as before the call. *)
Theorem decode_success_replaces_ids (cfg : build_config)
    (tensors : ggml_context) (ctx : sense_voice_context)
    (state state' : sense_voice_state) (n_threads : Z) (tw tb te : ggml_tensor)
    (tr : list event) :
  tensors !! ctc_out_linear_weight (model ctx) = Some tw ->
  tensors !! ctc_out_linear_bias (model ctx) = Some tb ->
  is_param tw -> is_param tb ->
  tensors !! encoder_out state = Some te ->
  runs (sense_voice_decode_internal cfg tensors ctx state n_threads) tr
    (true, state') ->
  exists arr,
    omap host_read tr = [((length tensors + 4)%nat, arr)]
    /\ ids state' = arr <$> seqZ 0 (d1 (ne te))
    /\ length (ids state') = Z.to_nat (d1 (ne te))
    /\ encoder_out state' = encoder_out state
    /\ sched state' = sched state.
Proof.
  intros Hw Hb Hpw Hpb He Hrun.
  apply decode_inv in Hrun as (gf & ctx0 & Hbuild & Hrun).
  destruct (build_inv tensors cfg ctx state tw tb gf ctx0 Hw Hb Hpw Hpb Hbuild)
    as (te' & He' & _ & Hnodes & _ & Hnamed).
  assert (te' = te) as -> by congruence.
  destruct (pipeline_lookup tensors ctx0 _ _ tw te 4 _ Hnamed eq_refl)
    as (t4 & L4 & N4).
  apply named_fields in N4 as (_ & E4 & _).
  inversion Hrun; subst.
  match goal with
  | Hl : last (nodes gf) = Some _ |- _ =>
      rewrite Hnodes in Hl; cbn in Hl; injection Hl as <-
  end.
  match goal with
  | Ho : _ !! (length tensors + 4)%nat = Some _ |- _ =>
      rewrite L4 in Ho; injection Ho as <-
  end.
  rewrite E4.
  exists arr. split.
  { unfold trace_until_reset. rewrite !omap_app.
    rewrite (omap_config _ pre) by (is_cfg || assumption).
    rewrite omap_tokens by reflexivity. reflexivity. }
  cbn [ids set_ids add_t_decode_us encoder_out sched].
  split; [reflexivity|]. split; [|split; reflexivity].
  rewrite length_fmap, length_seqZ. reflexivity.
Qed.

(** X13.  A decode call that returns failure has printed nothing (not
    even the newline), has not read the arg-max tensor, and has read the
    clock once. *)
Theorem failed_decode_is_silent (cfg : build_config)
    (tensors : ggml_context) (ctx : sense_voice_context)
    (state state' : sense_voice_state) (n_threads : Z) (tr : list event) :
  runs (sense_voice_decode_internal cfg tensors ctx state n_threads) tr
    (false, state') ->
  omap printed tr = [] /\ stdout tr = EmptyString
  /\ (forall p arr, ~ In (EvHostInts p arr) tr)
  /\ length (List.filter is_time tr) = 1%nat.
Proof.
  intros Hrun. apply decode_inv in Hrun as (gf & ctx0 & _ & Hrun).
  assert (Hp : omap printed tr = []
               /\ List.filter (fun ev => match ev with
                                         | EvHostInts _ _ => true
                                         | _ => false
                                         end) tr = []
               /\ length (List.filter is_time tr) = 1%nat).
  { inversion Hrun; subst; unfold trace_until_reset;
      rewrite ?omap_app, ?List.filter_app;
      rewrite ?(omap_config _ pre) by (is_cfg || assumption);
      rewrite ?(filter_config _ pre) by (is_cfg || assumption);
      repeat split; reflexivity. }
  destruct Hp as (Hp & Hh & Ht).
  split; [exact Hp|]. split; [unfold stdout; now rewrite Hp|].
  split; [|exact Ht].
  intros p arr Hin.
  assert (Hf : In (EvHostInts p arr)
                 (List.filter (fun ev => match ev with
                                         | EvHostInts _ _ => true
                                         | _ => false
                                         end) tr)).
  { apply List.filter_In. auto. }
  rewrite Hh in Hf. destruct Hf.
Qed.

(** X14.  When graph allocation fails, the decode call ends there: its
    calls are the reading of the clock and the failed allocation of the
    graph the builder returned, on the scheduler of the session.  No
    data are copied, nothing is executed, and the scheduler is not
    reset. *)
Theorem decode_stops_at_failed_allocation (cfg : build_config)
    (tensors : ggml_context) (ctx : sense_voice_context)
    (state : sense_voice_state) (n_threads : Z) (tr : list event)
    (r : bool * sense_voice_state) (s : ggml_backend_sched_t)
    (g : ggml_cgraph) :
  runs (sense_voice_decode_internal cfg tensors ctx state n_threads) tr r ->
  In (EvSchedAllocGraph s g false) tr ->
  exists t0 ctx0,
    sense_voice_build_graph_ctc_decoder cfg ctx state tensors = Some (g, ctx0)
    /\ s = sched state
    /\ tr = [EvTimeUs t0; EvSchedAllocGraph (sched state) g false]
    /\ r = (false, state).
Proof.
  intros Hrun Hin. apply decode_inv in Hrun as (gf & ctx0 & Hbuild & Hrun).
  assert (Hf : In (EvSchedAllocGraph s g false) (List.filter is_alloc tr)).
  { apply List.filter_In. auto. }
  clear Hin. inversion Hrun; subst; unfold trace_until_reset in Hf;
    rewrite ?List.filter_app in Hf;
    rewrite ?(filter_config _ pre) in Hf by (is_cfg || assumption);
    rewrite ?filter_tokens in Hf by reflexivity;
    cbn in Hf; destruct Hf as [Hf|[]]; try discriminate Hf.
  injection Hf as <- <-. exists t0, ctx0. repeat split. exact Hbuild.
Qed.

(** X15.  In a decode call that returns success the scheduler is reset
    before the ids are read: the reading of the last node of the graph is
    the call that follows the reset, which follows the execution;
    everything printed comes after that reading, and the second reading
    of the clock is the last call. *)
Theorem decode_reads_ids_after_reset (cfg : build_config)
    (tensors : ggml_context) (ctx : sense_voice_context)
    (state state' : sense_voice_state) (n_threads : Z) (tr : list event) :
  runs (sense_voice_decode_internal cfg tensors ctx state n_threads) tr
    (true, state') ->
  exists gf ctx0 pre p arr prints t1,
    sense_voice_build_graph_ctc_decoder cfg ctx state tensors = Some (gf, ctx0)
    /\ last (nodes gf) = Some p
    /\ tr = pre
            ++ [EvSchedGraphCompute (sched state) gf GGML_STATUS_SUCCESS;
                EvSchedReset (sched state); EvHostInts p arr]
            ++ prints ++ [EvTimeUs t1]
    /\ omap printed pre = []
    /\ Forall (fun ev => is_Some (printed ev)) prints.
Proof.
  intros Hrun. apply decode_inv in Hrun as (gf & ctx0 & Hbuild & Hrun).
  inversion Hrun; subst.
  exists gf, ctx0,
    ([EvTimeUs t0; EvSchedAllocGraph (sched state) gf true;
      EvTensorSet dst (data t_enc) 0
        (wrap_size_t (ggml_nelements t_in * sizeof_float))] ++ pre),
    argmax_logit, arr,
    (token_events (vocab ctx) (arr <$> seqZ 0 (d0 (ne t_out)))
     ++ [EvPrintf newline]), t1.
  split; [exact Hbuild|]. split; [assumption|].
  split; [unfold trace_until_reset; norm_app; reflexivity|].
  split.
  - rewrite omap_app. rewrite (omap_config _ pre) by (is_cfg || assumption).
    reflexivity.
  - apply Forall_app. split; [|repeat constructor; cbn; eauto].
    apply Forall_forall. intros ev Hev. unfold token_events in Hev.
    apply list_elem_of_In, in_flat_map in Hev as (id & _ & Hev).
    destruct (id =? 0); [destruct Hev|].
    destruct Hev as [<-|[]]. cbn. eauto.
Qed.

(** A decode call returns true exactly when its calls show a successful
    allocation and a successful execution. *)
Lemma decode_true_iff cfg (tensors : ggml_context) ctx state n_threads tr r state' :
  runs (sense_voice_decode_internal cfg tensors ctx state n_threads) tr (r, state') ->
  r = true <->
  true ∈ omap alloc_answer tr /\ GGML_STATUS_SUCCESS ∈ omap compute_answer tr.
Proof.
  intros Hrun. apply decode_inv in Hrun as (gf & ctx0 & _ & Hrun).
  inversion Hrun; subst; unfold trace_until_reset;
    rewrite ?omap_app;
    rewrite ?(omap_config _ pre) by (is_cfg || assumption);
    rewrite ?omap_tokens by reflexivity;
    cbn [omap list_omap alloc_answer compute_answer app];
    (split; intros H; try discriminate H; try reflexivity).
  - destruct H as [H _]. apply list_elem_of_singleton in H. discriminate.
  - destruct H as [_ H]. apply list_elem_of_singleton in H. congruence.
  - split; apply list_elem_of_singleton; reflexivity.
Qed.

(** X16.  A decode call returns false exactly when its calls show a
    failed graph allocation or an execution status other than success,
    and true exactly when they show a successful allocation and a
    successful execution: the builder, the copy, the reading of the ids
    and the printing never make it fail. *)
Theorem decode_fails_only_on_engine_failure (cfg : build_config)
    (tensors : ggml_context) (ctx : sense_voice_context)
    (state state' : sense_voice_state) (n_threads : Z) (tr : list event)
    (r : bool) :
  runs (sense_voice_decode_internal cfg tensors ctx state n_threads) tr (r, state') ->
  (r = false <-> alloc_failed tr \/ compute_failed tr)
  /\ (r = true <->
      true ∈ omap alloc_answer tr
      /\ GGML_STATUS_SUCCESS ∈ omap compute_answer tr).
Proof.
  intros Hrun. split; [|exact (decode_true_iff _ _ _ _ _ _ _ _ Hrun)].
  apply decode_inv in Hrun as (gf & ctx0 & _ & Hrun).
  unfold alloc_failed, compute_failed.
  inversion Hrun; subst; unfold trace_until_reset;
    rewrite ?omap_app;
    rewrite ?(omap_config _ pre) by (is_cfg || assumption);
    rewrite ?omap_tokens by reflexivity;
    cbn [omap list_omap alloc_answer compute_answer app];
    (split; intros H; try discriminate H; try reflexivity).
  - left. apply list_elem_of_singleton. reflexivity.
  - right. exists status. split; [|assumption].
    apply list_elem_of_singleton. reflexivity.
  - destruct H as [H|(st & H & Hne)]; apply list_elem_of_singleton in H;
      [discriminate|congruence].
Qed.

(** X17.  With a model whose shapes fit and an engine that answers every
    call and reports a backend count within [int], a decode call
    returns: the loop over the backends ends, no assertion fails, and
    the result tells whether allocation and execution both succeeded. *)
Theorem decode_returns_under_responsive_engine {S : Type} (h : engine S)
    (cfg : build_config) (tensors : ggml_context) (ctx : sense_voice_context)
    (state : sense_voice_state) (n_threads : Z) (tw tb te : ggml_tensor) (s : S) :
  tensors !! ctc_out_linear_weight (model ctx) = Some tw ->
  tensors !! ctc_out_linear_bias (model ctx) = Some tb ->
  is_param tw -> is_param tb ->
  tensors !! encoder_out state = Some te ->
  builds cfg (ctc_out_linear_weight (model ctx)) (length tensors) tw tb te = true ->
  responsive h -> int_backends h ->
  exists r state' s' tr,
    interp h (sense_voice_decode_internal cfg tensors ctx state n_threads) s
    = Some ((r, state'), s', tr)
    /\ (r = true <->
        true ∈ omap alloc_answer tr
        /\ GGML_STATUS_SUCCESS ∈ omap compute_answer tr)
    /\ (r = false -> state' = state).
Proof.
  intros Hw Hb Hpw Hpb He Hok Hh Hint.
  destruct (decode_returns h cfg tensors ctx state n_threads tw tb te s
              Hw Hb He Hpw Hpb Hok Hh Hint) as [[[[r state'] s'] tr] Hrun].
  exists r, state', s', tr. split; [exact Hrun|].
  apply interp_runs in Hrun.
  split; [apply (decode_true_iff _ _ _ _ _ _ _ _ Hrun)|].
  intros ->. apply decode_inv in Hrun as (gf & ctx0 & _ & Hrun).
  inversion Hrun; subst; reflexivity.
Qed.

(** A decode call that gets past graph allocation contains a run of
    [ggml_graph_compute_helper] on the scheduler of the session, over
    the graph that was allocated, with the thread count of the call. *)
Lemma decode_helper_run cfg (tensors : ggml_context) ctx state n_threads tr r :
  runs (sense_voice_decode_internal cfg tensors ctx state n_threads) tr r ->
  (exists t0 gf, tr = [EvTimeUs t0; EvSchedAllocGraph (sched state) gf false])
  \/ exists t0 gf dst dat sz mid post computed,
       tr = [EvTimeUs t0; EvSchedAllocGraph (sched state) gf true;
             EvTensorSet dst dat 0 sz] ++ mid ++ post
       /\ runs (ggml_graph_compute_helper cfg (sched state) gf n_threads)
            mid computed
       /\ forallb (fun ev => negb (is_config ev || is_compute ev || is_reset ev
                                   || is_alloc ev)) post = true.
Proof.
  unfold sense_voice_decode_internal. intros H.
  apply runs_bind in H as (t0 & tr1 & tr2 & -> & Ht0 & H).
  apply runs_do in Ht0 as ->.
  destruct (sense_voice_build_graph_ctc_decoder cfg ctx state tensors)
    as [[gf ctx0]|]; [|destruct (runs_stop _ _ H)].
  apply runs_bind in H as (ok & tr1 & tr3 & -> & Hok & H).
  apply runs_do in Hok as ->.
  destruct ok; cbn [negb] in H.
  2:{ destruct H as [-> _]. left. exists t0, gf. reflexivity. }
  destruct (ggml_graph_get_tensor ctx0 gf "encoder_out") as [dst|];
    [|destruct (runs_stop _ _ H)].
  destruct (ctx0 !! dst) as [t_in|]; [|destruct (runs_stop _ _ H)].
  destruct (ctx0 !! encoder_out state) as [t_enc|];
    [|destruct (runs_stop _ _ H)].
  apply runs_bind in H as ([] & tr1 & tr4 & -> & Hset & H).
  apply runs_do in Hset as ->.
  apply runs_bind in H as (computed & mid & tr5 & -> & Hc & H).
  right. exists t0, gf, dst, (data t_enc),
    (wrap_size_t (ggml_nelements t_in * sizeof_float)), mid, tr5, computed.
  split; [reflexivity|]. split; [exact Hc|].
  destruct computed; cbn [negb] in H.
  2:{ destruct H as [-> _]. reflexivity. }
  destruct (last (nodes gf)) as [am|]; [|destruct (runs_stop _ _ H)].
  destruct (ctx0 !! am) as [t_out|]; [|destruct (runs_stop _ _ H)].
  apply runs_bind in H as (arr & tr1 & tr6 & -> & Harr & H).
  apply runs_do in Harr as ->.
  apply runs_bind in H as ([] & tr1 & tr7 & -> & Hp & H).
  apply print_tokens_runs in Hp as ->.
  apply runs_bind in H as ([] & tr1 & tr8 & -> & Hnl & H).
  apply runs_do in Hnl as ->.
  apply runs_bind in H as (t1 & tr1 & tr9 & -> & Ht1 & H).
  apply runs_do in Ht1 as ->. destruct H as [-> _].
  cbn [event_of app forallb]. rewrite forallb_app.
  rewrite forallb_tokens by reflexivity. reflexivity.
Qed.

(** X18.  A decode call hands its own [n_threads] to every backend it
    configures; the graph it executes is the graph it allocated; and
    allocation, execution and reset all go to the scheduler of the
    session. *)
Theorem decode_forwards_n_threads (cfg : build_config)
    (tensors : ggml_context) (ctx : sense_voice_context)
    (state : sense_voice_state) (n_threads : Z) (tr : list event)
    (r : bool * sense_voice_state) :
  runs (sense_voice_decode_internal cfg tensors ctx state n_threads) tr r ->
  (forall b n,
      In (EvCpuSetNThreads b n) tr \/ In (EvBlasSetNThreads b n) tr
      \/ In (EvMetalSetNCb b n) tr ->
      n = n_threads)
  /\ (forall s g st,
        In (EvSchedGraphCompute s g st) tr ->
        s = sched state /\ In (EvSchedAllocGraph (sched state) g true) tr)
  /\ (forall s g ok, In (EvSchedAllocGraph s g ok) tr -> s = sched state)
  /\ (forall s, In (EvSchedReset s) tr -> s = sched state).
Proof.
  intros Hrun.
  apply decode_helper_run in Hrun
    as [(t0 & gf & ->)
       |(t0 & gf & dst & dat & sz & mid & post & computed & -> & Hmid & Hpost)].
  { split; [|split; [|split]].
    - intros b n [H|[H|H]]; cbn in H;
        repeat (destruct H as [H|H]; [discriminate H|]); destruct H.
    - intros s g st H. cbn in H.
      repeat (destruct H as [H|H]; [discriminate H|]). destruct H.
    - intros s g ok H. cbn in H. destruct H as [H|[H|[]]]; [discriminate H|].
      now injection H as <- _ _.
    - intros s H. cbn in H.
      repeat (destruct H as [H|H]; [discriminate H|]). destruct H. }
  assert (Hnot : forall ev,
             In ev post ->
             is_config ev = false /\ is_compute ev = false
             /\ is_reset ev = false /\ is_alloc ev = false).
  { intros ev Hev. rewrite List.forallb_forall in Hpost.
    specialize (Hpost ev Hev). apply negb_true_iff in Hpost.
    apply orb_false_iff in Hpost as [Hpost Ha].
    apply orb_false_iff in Hpost as [Hpost Hr].
    apply orb_false_iff in Hpost as [Hc Hx]. auto. }
  apply helper_events in Hmid as (rds & m & status & -> & _ & _ & _).
  assert (Hsplit : forall ev,
             In ev ([EvTimeUs t0; EvSchedAllocGraph (sched state) gf true;
                     EvTensorSet dst dat 0 sz]
                    ++ (loop_events cfg (sched state) n_threads 0 rds
                        ++ [EvGetNBackends (sched state) m;
                            EvSchedGraphCompute (sched state) gf status;
                            EvSchedReset (sched state)]) ++ post) ->
             ev = EvTimeUs t0 \/ ev = EvSchedAllocGraph (sched state) gf true
             \/ ev = EvTensorSet dst dat 0 sz
             \/ In ev (loop_events cfg (sched state) n_threads 0 rds)
             \/ ev = EvGetNBackends (sched state) m
             \/ ev = EvSchedGraphCompute (sched state) gf status
             \/ ev = EvSchedReset (sched state)
             \/ In ev post).
  { intros ev Hev. apply in_app_or in Hev as [Hev|Hev].
    { cbn in Hev. intuition auto. }
    apply in_app_or in Hev as [Hev|Hev]; [|intuition auto].
    apply in_app_or in Hev as [Hev|Hev]; [intuition auto|].
    cbn in Hev. intuition auto. }
  assert (Hloop : forall ev,
             In ev (loop_events cfg (sched state) n_threads 0 rds) ->
             is_config ev = true).
  { intros ev Hev. exact (loop_events_config _ _ _ _ _ _ Hev). }
  split; [|split; [|split]].
  - intros b n H.
    assert (Hset : forall ev,
               (ev = EvCpuSetNThreads b n \/ ev = EvBlasSetNThreads b n
                \/ ev = EvMetalSetNCb b n) ->
               In ev ([EvTimeUs t0; EvSchedAllocGraph (sched state) gf true;
                       EvTensorSet dst dat 0 sz]
                      ++ (loop_events cfg (sched state) n_threads 0 rds
                          ++ [EvGetNBackends (sched state) m;
                              EvSchedGraphCompute (sched state) gf status;
                              EvSchedReset (sched state)]) ++ post) ->
               In ev (loop_events cfg (sched state) n_threads 0 rds)).
    { intros ev Hev Hin. apply Hsplit in Hin.
      destruct Hin as [->|[->|[->|[Hin|[->|[->|[->|Hin]]]]]]];
        try (destruct Hev as [Hev|[Hev|Hev]]; discriminate Hev);
        [exact Hin|].
      apply Hnot in Hin as [Hc _].
      destruct Hev as [->|[->| ->]]; discriminate Hc. }
    destruct H as [H|[H|H]]; apply Hset in H; auto.
    + exact (proj1 (loop_cpu_set _ _ _ _ _ _ _ H)).
    + exact (proj1 (loop_blas_set _ _ _ _ _ _ _ H)).
    + exact (proj1 (loop_metal_set _ _ _ _ _ _ _ H)).
  - intros s g st H. apply Hsplit in H.
    destruct H as [H|[H|[H|[H|[H|[H|[H|H]]]]]]]; try discriminate H.
    + apply Hloop in H. discriminate H.
    + injection H as -> -> ->. split; [reflexivity|]. cbn. auto.
    + apply Hnot in H as (_ & H & _). discriminate H.
  - intros s g ok H. apply Hsplit in H.
    destruct H as [H|[H|[H|[H|[H|[H|[H|H]]]]]]]; try discriminate H.
    + now injection H as -> _ _.
    + apply Hloop in H. discriminate H.
    + apply Hnot in H as (_ & _ & _ & H). discriminate H.
  - intros s H. apply Hsplit in H.
    destruct H as [H|[H|[H|[H|[H|[H|[H|H]]]]]]]; try discriminate H.
    + apply Hloop in H. discriminate H.
    + now injection H as ->.
    + apply Hnot in H as (_ & _ & H & _). discriminate H.
Qed.

End CallFacts.

(** ** The claims at the reference inputs *)

Module Instances.
Import CInt CIntFacts Ggml Shapes GgmlFacts Engine EngineFacts Decoder
       MulMatPad BuilderFacts DriverFacts Runs DecodeFacts Examples Scenarios.

Lemma scripted_responsive : responsive scripted.
Proof. intros X e s He. destruct e; try discriminate He; cbn; eauto. Qed.

Lemma scripted_int_backends : int_backends scripted.
Proof. intros sched s s' n [= <- _]. unfold INT_MAX. lia. Qed.

Lemma example_run_ok :
  runs (sense_voice_decode_internal default_build example_tensors example_ctx
          example_state 4)
       trace_ok (true, state_ok).
Proof.
  apply (interp_runs scripted _ script_ok _ (elapse 5000 script_ok)).
  vm_compute. reflexivity.
Qed.

Lemma example_run_alloc_fails :
  runs (sense_voice_decode_internal default_build example_tensors example_ctx
          example_state 4)
       trace_alloc_fails (false, example_state).
Proof.
  apply (interp_runs scripted _ script_alloc_fails _ script_alloc_fails).
  vm_compute. reflexivity.
Qed.

Lemma example_run_compute_fails :
  runs (sense_voice_decode_internal default_build example_tensors example_ctx
          example_state 4)
       trace_compute_fails (false, example_state).
Proof.
  apply (interp_runs scripted _ script_compute_fails _
           (elapse 5000 script_compute_fails)).
  vm_compute. reflexivity.
Qed.


Lemma int_run_compute_fails :
  runs (sense_voice_decode_internal default_build int_tensors example_ctx
          example_state 4)
       trace_compute_fails (false, example_state).
Proof.
  apply (interp_runs scripted _ script_compute_fails _
           (elapse 5000 script_compute_fails)).
  vm_compute. reflexivity.
Qed.

Lemma example_run_full :
  runs (sense_voice_decode_internal default_build example_tensors full_ctx
          example_state 4)
       trace_ok (true, state_ok).
Proof.
  apply (interp_runs scripted _ script_ok _ (elapse 5000 script_ok)).
  vm_compute. reflexivity.
Qed.

(** C1, the claim as stated fails: the call below returns failure (graph
    allocation fails) although the clock was read, and the session it
    returns has the [t_decode_us] it started with. *)
Lemma failed_call_keeps_timer :
  runs (sense_voice_decode_internal default_build example_tensors example_ctx
          example_state 4)
       trace_alloc_fails (false, example_state)
  /\ ~ timer_strictly_increases example_state example_state.
Proof.
  split; [exact example_run_alloc_fails|].
  unfold timer_strictly_increases. lia.
Qed.

Lemma decode_timer_witness :
  runs (sense_voice_decode_internal default_build example_tensors example_ctx
          example_state 4)
       trace_ok (true, state_ok)
  /\ ((true = false -> state_ok = example_state)
      /\ (true = true ->
          exists t0 t1 mid,
            trace_ok = EvTimeUs t0 :: mid ++ [EvTimeUs t1]
            /\ forallb (fun ev => negb (is_time ev)) mid = true
            /\ t_decode_us state_ok
               = wrap_int64 (t_decode_us example_state + wrap_int64 (t1 - t0))
            /\ (0 <= t0 <= t1 -> t1 < 2 ^ 63 ->
                0 <= t_decode_us example_state ->
                t_decode_us example_state + (t1 - t0) < 2 ^ 63 ->
                t_decode_us state_ok = t_decode_us example_state + (t1 - t0)))).
Proof.
  split; [exact example_run_ok|].
  apply (decode_timer default_build example_tensors example_ctx example_state 4).
  exact example_run_ok.
Defined.

Lemma decode_failure_witness :
  runs (sense_voice_decode_internal default_build example_tensors example_ctx
          example_state 4)
       trace_compute_fails (false, example_state)
  /\ (alloc_failed trace_compute_fails \/ compute_failed trace_compute_fails)
  /\ (false = false /\ ids example_state = ids example_state
      /\ example_state = example_state).
Proof.
  assert (Hfail : alloc_failed trace_compute_fails
                  \/ compute_failed trace_compute_fails).
  { right. exists GGML_STATUS_FAILED. split; [|discriminate].
    vm_compute. apply list_elem_of_singleton. reflexivity. }
  split; [exact example_run_compute_fails|]. split; [exact Hfail|].
  apply (decode_failure default_build example_tensors example_ctx example_state 4
           trace_compute_fails).
  - exact example_run_compute_fails.
  - exact Hfail.
Defined.

Lemma ggml_mul_mat_pad_fallback_witness :
  aligned_operands !! 0%nat = Some (leaf GGML_TYPE_F32 64 2 4096 "x")
  /\ 32 <> 0
  /\ (Z.rem 64 32 = 0 \/ Z.quot 64 32 < 8)
  /\ ggml_mul_mat_pad default_build 0 1 32 aligned_operands
     = ggml_mul_mat 0 1 aligned_operands
  /\ forall z ctx',
      ggml_mul_mat_pad default_build 0 1 32 aligned_operands = Some (z, ctx') ->
      exists ty, aligned_operands !! 1%nat = Some ty
                 /\ z = length aligned_operands
                 /\ ctx' = aligned_operands
                           ++ [mul_mat_tensor 0 1 (leaf GGML_TYPE_F32 64 2 4096 "x") ty].
Proof.
  split; [reflexivity|]. split; [lia|]. split; [left; reflexivity|].
  apply (ggml_mul_mat_pad_fallback default_build aligned_operands 0 1
           (leaf GGML_TYPE_F32 64 2 4096 "x") 32).
  - reflexivity.
  - lia.
  - left. reflexivity.
Defined.

(** C3, the claim as stated fails: [x] is 300 x 2 and [y] is
    300 x 3 x 1 x 2, operands the direct product accepts.  The direct
    product has the shape 2 x 3 x 1 x 2 and 12 elements; the result of
    [ggml_mul_mat_pad], which splits at 288, has the shape 2 x 3 x 1 x 1
    and 6 elements. *)
Lemma pad_split_loses_batches :
  ggml_can_mul_mat (leaf GGML_TYPE_F32 300 2 4096 "x") batched_y = true
  /\ exists z ctx1 tz z' ctx2 tz',
      ggml_mul_mat_pad default_build 0 1 32 batched_operands = Some (z, ctx1)
      /\ ctx1 !! z = Some tz
      /\ ggml_mul_mat 0 1 batched_operands = Some (z', ctx2)
      /\ ctx2 !! z' = Some tz'
      /\ ne tz = Dim4 2 3 1 1 /\ ne tz' = Dim4 2 3 1 2
      /\ ne tz <> ne tz'
      /\ ggml_nelements tz = 6 /\ ggml_nelements tz' = 12.
Proof.
  split; [reflexivity|].
  eexists _, _, _, _, _, _.
  split; [vm_compute; reflexivity|]. split; [reflexivity|].
  split; [vm_compute; reflexivity|]. split; [reflexivity|].
  split; [reflexivity|]. split; [reflexivity|].
  split; [discriminate|]. split; reflexivity.
Qed.

Lemma ggml_mul_mat_pad_equiv_witness :
  let tx := leaf GGML_TYPE_F32 300 2 4096 "x" in
  let ty := leaf GGML_TYPE_F32 300 3 40960 "y" in
  let vx := load example_mem 4096 (nb tx) in
  let vy := load example_mem 40960 (nb ty) in
  (matmul_operand tx /\ matmul_operand ty
   /\ ggml_can_mul_mat tx ty = true /\ ggml_is_transposed tx = false
   /\ in_memory example_alloc example_mem split_operands 0 tx vx
   /\ in_memory example_alloc example_mem split_operands 1 ty vy
   /\ takes_fallback (d0 (ne tx)) 32 = false)
  /\ exists z ctx1 tz vz z' ctx2 tz' vz',
      ggml_mul_mat_pad default_build 0 1 32 split_operands = Some (z, ctx1)
      /\ ctx1 !! z = Some tz
      /\ tensor_value example_alloc example_mem (length ctx1) ctx1 z = Some vz
      /\ ggml_mul_mat 0 1 split_operands = Some (z', ctx2)
      /\ ctx2 !! z' = Some tz'
      /\ tensor_value example_alloc example_mem (length ctx2) ctx2 z' = Some vz'
      /\ ne tz = ne tz'
      /\ type tz = type tz'
      /\ (forall i, in_bounds (ne tz) i -> vz i = vz' i)
      /\ (if takes_fallback (d0 (ne tx)) 32
          then z = z' /\ ctx1 = ctx2
               /\ op tz = GGML_OP_MUL_MAT /\ src tz = [0%nat; 1%nat]
          else split_product example_alloc example_mem ctx1 0 1 tx ty vx vy 32
                 tz vz).
Proof.
  intros tx ty vx vy.
  assert (Hx : matmul_operand tx) by (unfold matmul_operand; cbn; lia).
  assert (Hy : matmul_operand ty) by (unfold matmul_operand; cbn; lia).
  assert (Hmx : in_memory example_alloc example_mem split_operands 0 tx vx).
  { exists 4096. split; [reflexivity|]. intros i _. reflexivity. }
  assert (Hmy : in_memory example_alloc example_mem split_operands 1 ty vy).
  { exists 40960. split; [reflexivity|]. intros i _. reflexivity. }
  split; [exact (conj Hx (conj Hy (conj eq_refl (conj eq_refl
                   (conj Hmx (conj Hmy eq_refl))))))|].
  apply (ggml_mul_mat_pad_equiv example_alloc example_mem default_build
           split_operands 0 1 tx ty vx vy 32); try assumption; try reflexivity.
  lia.
Defined.

(** C5, at a model the builder does not serve: the hidden size is 300,
    which is nine pads of 32 and a remainder of 12, and the shapes of
    the weight, the bias and the encoder output fit.  In a Metal build,
    in either order of evaluation of the two products, the builder
    returns no graph: the split projection needs ten nodes and the
    graph holds SENSEVOICE_DECODER_MAX_NODES = 8.  Without Metal the
    same model gives the graph of four nodes. *)
Lemma metal_build_has_no_graph_for_hidden_size_300 :
  pipeline_shapes_ok 0 3 (leaf GGML_TYPE_F32 300 8 4096 "ctc.ctc_lo.weight")
    (leaf GGML_TYPE_F32 8 1 16384 "ctc.ctc_lo.bias")
    (leaf GGML_TYPE_F32 300 5 20480 "encoder_out_session") = true
  /\ sense_voice_build_graph_ctc_decoder metal_build example_ctx example_state
       wide_tensors = None
  /\ sense_voice_build_graph_ctc_decoder
       {| GGML_USE_METAL := true; GGML_USE_BLAS := false;
          ARGS_RIGHT_TO_LEFT := true |} example_ctx example_state
       wide_tensors = None
  /\ exists gf ctx0,
      sense_voice_build_graph_ctc_decoder default_build example_ctx example_state
        wide_tensors = Some (gf, ctx0)
      /\ n_nodes gf = 4.
Proof.
  split; [reflexivity|]. split; [vm_compute; reflexivity|].
  split; [vm_compute; reflexivity|].
  eexists _, _. split; [vm_compute; reflexivity|reflexivity].
Qed.

Lemma sense_voice_build_graph_ctc_decoder_spec_witness :
  let tw := leaf GGML_TYPE_F32 4 8 4096 "ctc.ctc_lo.weight" in
  let tb := leaf GGML_TYPE_F32 8 1 8192 "ctc.ctc_lo.bias" in
  (is_param tw /\ is_param tb)
  /\ (forall gf ctx0,
        sense_voice_build_graph_ctc_decoder default_build example_ctx
          example_state example_tensors = Some (gf, ctx0) ->
        ctc_pipeline_graph 0 1 ctx0 gf
        /\ n_nodes gf = 4
        /\ n_nodes gf <= SENSEVOICE_DECODER_MAX_NODES
        /\ exists ids t_ids,
             last (nodes gf) = Some ids /\ ctx0 !! ids = Some t_ids
             /\ op t_ids = GGML_OP_ARGMAX)
  /\ (forall te,
        example_tensors !! 2%nat = Some te ->
        builds default_build 0 3 tw tb te = true ->
        is_Some (sense_voice_build_graph_ctc_decoder default_build example_ctx
                   example_state example_tensors)).
Proof.
  intros tw tb.
  assert (Hw : is_param tw) by (split; reflexivity).
  assert (Hb : is_param tb) by (split; reflexivity).
  split; [split; assumption|].
  apply (sense_voice_build_graph_ctc_decoder_spec example_tensors default_build
           example_ctx example_state tw tb); try assumption; reflexivity.
Defined.

Lemma ggml_graph_compute_helper_spec_witness :
  responsive scripted /\ int_backends scripted
  /\ exists t s' pre status,
      interp scripted (ggml_graph_compute_helper default_build 7 example_graph 4)
        script_compute_fails
      = Some (t, s', pre ++ [EvSchedGraphCompute 7 example_graph status;
                             EvSchedReset 7])
      /\ forallb is_config pre = true
      /\ (t = true <-> status = GGML_STATUS_SUCCESS).
Proof.
  split; [exact scripted_responsive|]. split; [exact scripted_int_backends|].
  apply (ggml_graph_compute_helper_spec scripted default_build 7 example_graph 4
           script_compute_fails).
  - exact scripted_responsive.
  - exact scripted_int_backends.
Defined.



Lemma decode_copies_input_witness :
  runs (sense_voice_decode_internal default_build example_tensors example_ctx
          example_state 4)
       trace_ok (true, state_ok)
  /\ exists gf ctx0 t0 dst t_in t_enc pre post,
      sense_voice_build_graph_ctc_decoder default_build example_ctx example_state
        example_tensors = Some (gf, ctx0)
      /\ ctx0 !! dst = Some t_in /\ name t_in = "encoder_out"
      /\ ctx0 !! encoder_out example_state = Some t_enc
      /\ trace_ok
         = [EvTimeUs t0; EvSchedAllocGraph (sched example_state) gf true;
            EvTensorSet dst (data t_enc) 0
              (wrap_size_t (ggml_nelements t_in * sizeof_float))]
           ++ pre
           ++ EvSchedGraphCompute (sched example_state) gf GGML_STATUS_SUCCESS
              :: post
      /\ forallb is_config pre = true
      /\ forallb (fun ev => negb (is_alloc ev || is_tensor_set ev || is_compute ev))
            post = true
      /\ (type t_in = GGML_TYPE_F32 ->
          wrap_size_t (ggml_nelements t_in * sizeof_float)
          = wrap_size_t (ggml_nelements t_in * ggml_type_size (type t_in))).
Proof.
  split; [exact example_run_ok|].
  apply (decode_copies_input default_build example_tensors example_ctx
           example_state 4 trace_ok state_ok).
  exact example_run_ok.
Defined.

Lemma decode_renders_tokens_witness :
  runs (sense_voice_decode_internal default_build example_tensors example_ctx
          example_state 4)
       trace_ok (true, state_ok)
  /\ ids state_ok = [0; 5; 0; 7; 0]
  /\ stdout trace_ok = ("AB" +:+ newline)%string
  /\ (omap printed trace_ok
      = (token_of (vocab example_ctx) <$> filter (fun id => id <> 0) (ids state_ok))
        ++ [newline]
      /\ stdout trace_ok
         = (spec_rendered_text (vocab example_ctx) (ids state_ok) +:+ newline)%string
      /\ spec_rendered_text example_vocab [0; 5; 0; 7; 0] = "AB").
Proof.
  split; [exact example_run_ok|]. split; [reflexivity|].
  split; [vm_compute; reflexivity|].
  apply (decode_renders_tokens default_build example_tensors example_ctx
           example_state 4 trace_ok state_ok).
  exact example_run_ok.
Defined.

(** C10, the claim as stated fails: the encoder output below holds
    32-bit integers, so it is not a 32-bit-float tensor, and the 80
    bytes of the copy are the 20 elements times the 4 bytes of an
    element: the size of the data of the tensor. *)
Lemma int_input_copy_is_exact :
  runs (sense_voice_decode_internal default_build int_tensors example_ctx
          example_state 4)
       trace_compute_fails (false, example_state)
  /\ In (EvTensorSet 3 12288 0 80) trace_compute_fails
  /\ exists gf ctx0 t_in,
      sense_voice_build_graph_ctc_decoder default_build example_ctx example_state
        int_tensors = Some (gf, ctx0)
      /\ ctx0 !! 3%nat = Some t_in /\ name t_in = "encoder_out"
      /\ type t_in = GGML_TYPE_I32 /\ type t_in <> GGML_TYPE_F32
      /\ 80 = ggml_nelements t_in * ggml_type_size (type t_in).
Proof.
  split; [exact int_run_compute_fails|]. split; [cbn; tauto|].
  eexists _, _, _. split; [vm_compute; reflexivity|].
  split; [reflexivity|]. split; [reflexivity|]. split; [reflexivity|].
  split; [discriminate|reflexivity].
Qed.

Lemma decode_copy_size_witness :
  runs (sense_voice_decode_internal default_build example_tensors example_ctx
          example_state 4)
       trace_ok (true, state_ok)
  /\ In (EvTensorSet 3 12288 0 80) trace_ok
  /\ exists gf ctx0 t_in,
      sense_voice_build_graph_ctc_decoder default_build example_ctx example_state
        example_tensors = Some (gf, ctx0)
      /\ ctx0 !! 3%nat = Some t_in /\ name t_in = "encoder_out"
      /\ 80 = wrap_size_t (ggml_nelements t_in * 4)
      /\ (0 <= ggml_nelements t_in -> ggml_nelements t_in * 4 < 2 ^ 64 ->
          (80 = ggml_nelements t_in * ggml_type_size (type t_in)
           <-> ggml_type_size (type t_in) = 4 \/ ggml_nelements t_in = 0))
      /\ (ggml_type_size (type t_in) = 4
          <-> type t_in = GGML_TYPE_F32 \/ type t_in = GGML_TYPE_I32).
Proof.
  assert (Hin : In (EvTensorSet 3 12288 0 80) trace_ok) by (cbn; tauto).
  split; [exact example_run_ok|]. split; [exact Hin|].
  apply (decode_copy_size default_build example_tensors example_ctx
           example_state 4 trace_ok (true, state_ok) 3 12288 0 80).
  - exact example_run_ok.
  - exact Hin.
Defined.





End Instances.

(** ** Further properties at the reference inputs *)

Module MoreInstances.
Import CInt CIntFacts Ggml Shapes GgmlFacts Engine EngineFacts Decoder
       MulMatPad BuilderFacts DriverFacts Runs DecodeFacts Examples
       Traces Scenarios SplitFacts LoopFacts GraphFacts CallFacts Instances.

Ltac arith :=
  first [ reflexivity | lia | cbn; lia
        | vm_compute; first [ reflexivity | discriminate
                            | intros ?; discriminate
                            | split; first [ reflexivity | discriminate
                                           | intros ?; discriminate ] ] ].


Lemma ggml_mul_mat_pad_drops_dim3_witness :
  (batched_operands !! 1%nat = Some batched_y /\ d3 (ne batched_y) = 2)
  /\ exists z ctx1 tz z' ctx2 tz',
      ggml_mul_mat_pad default_build 0 1 32 batched_operands = Some (z, ctx1)
      /\ ctx1 !! z = Some tz
      /\ ggml_mul_mat 0 1 batched_operands = Some (z', ctx2)
      /\ ctx2 !! z' = Some tz'
      /\ ne tz = Dim4 2 3 1 1
      /\ ne tz' = Dim4 2 3 1 (d3 (ne batched_y))
      /\ (ne tz = ne tz' <-> d3 (ne batched_y) = 1).
Proof.
  split; [split; reflexivity|].
  apply (ggml_mul_mat_pad_drops_dim3 default_build batched_operands 0 1
           (leaf GGML_TYPE_F32 300 2 4096 "x") batched_y 32);
    arith.
Defined.

Lemma helper_run_metal :
  runs (ggml_graph_compute_helper metal_build 7 example_graph 4)
       helper_trace_metal true.
Proof.
  apply (interp_runs scripted _ script_ok _ (elapse 5000 script_ok)).
  vm_compute. reflexivity.
Qed.

Lemma helper_configures_backends_witness :
  runs (ggml_graph_compute_helper metal_build 7 example_graph 4)
       helper_trace_metal true
  /\ In (EvCpuSetNThreads 0 4) helper_trace_metal
  /\ In (EvMetalSetNCb 1 4) helper_trace_metal
  /\ ((forall b n, In (EvCpuSetNThreads b n) helper_trace_metal ->
         n = 4
         /\ exists l1 l2,
              helper_trace_metal = l1 ++ EvIsCpu b true :: EvCpuSetNThreads b n :: l2)
      /\ (forall b n, In (EvBlasSetNThreads b n) helper_trace_metal ->
            n = 4
            /\ exists l1 l2,
                 helper_trace_metal
                 = l1 ++ EvIsBlas b true :: EvBlasSetNThreads b n :: l2)
      /\ (forall b n, In (EvMetalSetNCb b n) helper_trace_metal ->
            n = 4
            /\ exists l1 l2,
                 helper_trace_metal
                 = l1 ++ EvIsMetal b true :: EvMetalSetNCb b n :: l2)
      /\ (forall b a, In (EvIsBlas b a) helper_trace_metal ->
            GGML_USE_BLAS metal_build = true)
      /\ (forall b a, In (EvIsMetal b a) helper_trace_metal ->
            GGML_USE_METAL metal_build = true)).
Proof.
  split; [exact helper_run_metal|].
  split; [cbn; tauto|]. split; [cbn; tauto|].
  apply (helper_configures_backends metal_build 7 example_graph 4
           helper_trace_metal true).
  exact helper_run_metal.
Defined.

Lemma helper_visits_backends_in_order_witness :
  runs (ggml_graph_compute_helper metal_build 7 example_graph 4)
       helper_trace_metal true
  /\ omap backend_index helper_trace_metal = [0; 1]
  /\ exists k : nat,
      omap backend_index helper_trace_metal = seqZ 0 (Z.of_nat k)
      /\ length (omap backend_count helper_trace_metal) = S k
      /\ forall n, Forall (fun m => m = n) (omap backend_count helper_trace_metal) ->
                   Z.of_nat k = Z.max 0 n.
Proof.
  split; [exact helper_run_metal|]. split; [reflexivity|].
  apply (helper_visits_backends_in_order metal_build 7 example_graph 4
           helper_trace_metal true).
  exact helper_run_metal.
Defined.

Lemma example_build :
  sense_voice_build_graph_ctc_decoder default_build example_ctx example_state
    example_tensors
  = Some (example_graph, example_ctx0).
Proof. vm_compute. reflexivity. Qed.

Lemma unnamed_build :
  sense_voice_build_graph_ctc_decoder default_build example_ctx example_state
    unnamed_tensors
  = Some (example_graph, unnamed_ctx0).
Proof. vm_compute. reflexivity. Qed.

Lemma builder_appends_five_tensors_witness :
  let tw := leaf GGML_TYPE_F32 4 8 4096 EmptyString in
  let tb := leaf GGML_TYPE_F32 8 1 8192 EmptyString in
  let te := leaf GGML_TYPE_F32 4 5 12288 "encoder_out_session" in
  (is_param tw /\ is_param tb
   /\ sense_voice_build_graph_ctc_decoder default_build example_ctx example_state
        unnamed_tensors = Some (example_graph, unnamed_ctx0)
   /\ (name <$> unnamed_ctx0 !! 0%nat) = Some "leaf_0"
   /\ (name <$> unnamed_ctx0 !! 1%nat) = Some "leaf_2")
  /\ exists kept t_in t_mm t_add t_probs t_ids,
      unnamed_ctx0 = kept ++ [t_in; t_mm; t_add; t_probs; t_ids]
      /\ Forall2 named_by_graph unnamed_tensors kept
      /\ (forall i t, unnamed_tensors !! i = Some t -> name t <> EmptyString ->
                      unnamed_ctx0 !! i = Some t)
      /\ (forall i t, unnamed_tensors !! i = Some t ->
                      i <> ctc_out_linear_weight (model example_ctx) ->
                      i <> ctc_out_linear_bias (model example_ctx) ->
                      unnamed_ctx0 !! i = Some t)
      /\ (op t_in = GGML_OP_NONE /\ src t_in = [] /\ view_src t_in = None
          /\ data t_in = 0 /\ name t_in = "encoder_out"
          /\ flag_input t_in = true /\ flag_output t_in = false)
      /\ (type t_in = type te /\ ne t_in = Dim4 (d0 (ne te)) (d1 (ne te)) 1 1)
      /\ Forall (fun t => flag_input t = false) [t_mm; t_add; t_probs; t_ids]
      /\ Forall (fun t => flag_output t = false) [t_mm; t_add].
Proof.
  intros tw tb te.
  assert (Hw : is_param tw) by (split; reflexivity).
  assert (Hb : is_param tb) by (split; reflexivity).
  split.
  { split; [exact Hw|]. split; [exact Hb|]. split; [exact unnamed_build|].
    split; reflexivity. }
  apply (builder_appends_five_tensors unnamed_tensors default_build example_ctx
           example_state tw tb te example_graph);
    [reflexivity|reflexivity|exact Hw|exact Hb|reflexivity|exact unnamed_build].
Defined.

Lemma builder_output_shapes_witness :
  let tw := leaf GGML_TYPE_F32 4 8 4096 "ctc.ctc_lo.weight" in
  let tb := leaf GGML_TYPE_F32 8 1 8192 "ctc.ctc_lo.bias" in
  let te := leaf GGML_TYPE_F32 4 5 12288 "encoder_out_session" in
  (is_param tw /\ is_param tb)
  /\ exists cur1 cur2 probs ids t1 t2 tp ti,
      nodes example_graph = [cur1; cur2; probs; ids]
      /\ example_ctx0 !! cur1 = Some t1
      /\ example_ctx0 !! cur2 = Some t2
      /\ example_ctx0 !! probs = Some tp
      /\ example_ctx0 !! ids = Some ti
      /\ Forall (fun t => type t = GGML_TYPE_F32 /\ ne t = Dim4 8 5 1 1)
           [t1; t2; tp]
      /\ type ti = GGML_TYPE_I32 /\ ne ti = Dim4 5 1 1 1
      /\ ggml_nelements ti = 5.
Proof.
  intros tw tb te.
  assert (Hw : is_param tw) by (split; reflexivity).
  assert (Hb : is_param tb) by (split; reflexivity).
  split; [split; assumption|].
  apply (builder_output_shapes example_tensors default_build example_ctx
           example_state tw tb te example_graph);
    [reflexivity|reflexivity|exact Hw|exact Hb|reflexivity|exact example_build].
Defined.

Lemma builder_same_graph_when_aligned_witness :
  (Z.rem 4 32 = 0 \/ Z.quot 4 32 < 8)
  /\ sense_voice_build_graph_ctc_decoder metal_build example_ctx example_state
       example_tensors
     = sense_voice_build_graph_ctc_decoder default_build example_ctx example_state
         example_tensors.
Proof.
  assert (Hfb : Z.rem 4 32 = 0 \/ Z.quot 4 32 < 8) by (right; reflexivity).
  split; [exact Hfb|].
  apply (builder_same_graph_when_aligned example_tensors metal_build default_build
           example_ctx example_state
           (leaf GGML_TYPE_F32 4 8 4096 "ctc.ctc_lo.weight")).
  - reflexivity.
  - exact Hfb.
Defined.



Lemma decode_copies_into_fresh_input_witness :
  let tw := leaf GGML_TYPE_F32 4 8 4096 "ctc.ctc_lo.weight" in
  let te := leaf GGML_TYPE_F32 4 5 12288 "encoder_out_session" in
  (name tw <> "encoder_out"
   /\ runs (sense_voice_decode_internal default_build example_tensors example_ctx
             example_state 4)
           trace_ok (true, state_ok)
   /\ In (EvTensorSet 3 12288 0 80) trace_ok)
  /\ 3%nat = length example_tensors /\ example_tensors !! 3%nat = None
  /\ 12288 = data te /\ 0 = 0
  /\ 80 = wrap_size_t (d0 (ne te) * d1 (ne te) * 4).
Proof.
  intros tw te.
  assert (Hname : name tw <> "encoder_out") by discriminate.
  assert (Hin : In (EvTensorSet 3 12288 0 80) trace_ok) by (cbn; tauto).
  split; [exact (conj Hname (conj example_run_ok Hin))|].
  apply (decode_copies_into_fresh_input default_build example_tensors example_ctx
           example_state 4 tw (leaf GGML_TYPE_F32 8 1 8192 "ctc.ctc_lo.bias") te
           trace_ok (true, state_ok) 3 12288 0 80);
    try assumption; try reflexivity; try (split; reflexivity).
  exact example_run_ok.
Defined.

Lemma collision_run :
  runs (sense_voice_decode_internal default_build collision_tensors example_ctx
          example_state 4)
       trace_collision (true, state_ok).
Proof.
  apply (interp_runs scripted _ script_ok _ (elapse 5000 script_ok)).
  vm_compute. reflexivity.
Qed.

Lemma decode_name_collision_overwrites_weight_witness :
  let tw := leaf GGML_TYPE_F32 4 8 4096 "encoder_out" in
  let te := leaf GGML_TYPE_F32 4 5 12288 "encoder_out_session" in
  (name tw = "encoder_out"
   /\ runs (sense_voice_decode_internal default_build collision_tensors example_ctx
             example_state 4)
           trace_collision (true, state_ok)
   /\ In (EvTensorSet 0 12288 0 128) trace_collision)
  /\ 0%nat = ctc_out_linear_weight (model example_ctx)
  /\ 12288 = data te /\ 0 = 0
  /\ 128 = wrap_size_t (ggml_nelements tw * 4).
Proof.
  intros tw te.
  assert (Hin : In (EvTensorSet 0 12288 0 128) trace_collision) by (cbn; tauto).
  split; [exact (conj eq_refl (conj collision_run Hin))|].
  apply (decode_name_collision_overwrites_weight default_build collision_tensors
           example_ctx example_state 4 tw
           (leaf GGML_TYPE_F32 8 1 8192 "ctc.ctc_lo.bias") te
           trace_collision (true, state_ok) 0 12288 0 128);
    try assumption; try reflexivity; try (split; reflexivity).
  exact collision_run.
Defined.

Lemma decode_success_replaces_ids_witness :
  let tw := leaf GGML_TYPE_F32 4 8 4096 "ctc.ctc_lo.weight" in
  let te := leaf GGML_TYPE_F32 4 5 12288 "encoder_out_session" in
  (runs (sense_voice_decode_internal default_build example_tensors example_ctx
           example_state 4)
        trace_ok (true, state_ok)
   /\ ids example_state = [3; 3])
  /\ exists arr,
      omap host_read trace_ok = [((length example_tensors + 4)%nat, arr)]
      /\ ids state_ok = arr <$> seqZ 0 (d1 (ne te))
      /\ length (ids state_ok) = Z.to_nat (d1 (ne te))
      /\ encoder_out state_ok = encoder_out example_state
      /\ sched state_ok = sched example_state.
Proof.
  intros tw te.
  split; [exact (conj example_run_ok eq_refl)|].
  apply (decode_success_replaces_ids default_build example_tensors example_ctx
           example_state state_ok 4 tw
           (leaf GGML_TYPE_F32 8 1 8192 "ctc.ctc_lo.bias") te trace_ok);
    try reflexivity; try (split; reflexivity).
  exact example_run_ok.
Defined.

Lemma failed_decode_is_silent_witness :
  runs (sense_voice_decode_internal default_build example_tensors example_ctx
          example_state 4)
       trace_compute_fails (false, example_state)
  /\ omap printed trace_compute_fails = []
  /\ stdout trace_compute_fails = EmptyString
  /\ (forall p arr, ~ In (EvHostInts p arr) trace_compute_fails)
  /\ length (List.filter is_time trace_compute_fails) = 1%nat.
Proof.
  split; [exact example_run_compute_fails|].
  apply (failed_decode_is_silent default_build example_tensors example_ctx
           example_state example_state 4 trace_compute_fails).
  exact example_run_compute_fails.
Defined.

Lemma decode_stops_at_failed_allocation_witness :
  (runs (sense_voice_decode_internal default_build example_tensors example_ctx
           example_state 4)
        trace_alloc_fails (false, example_state)
   /\ In (EvSchedAllocGraph 7 example_graph false) trace_alloc_fails)
  /\ exists t0 ctx0,
      sense_voice_build_graph_ctc_decoder default_build example_ctx example_state
        example_tensors = Some (example_graph, ctx0)
      /\ 7 = sched example_state
      /\ trace_alloc_fails
         = [EvTimeUs t0; EvSchedAllocGraph (sched example_state) example_graph false]
      /\ (false, example_state) = (false, example_state).
Proof.
  assert (Hin : In (EvSchedAllocGraph 7 example_graph false) trace_alloc_fails)
    by (cbn; tauto).
  split; [exact (conj example_run_alloc_fails Hin)|].
  apply (decode_stops_at_failed_allocation default_build example_tensors
           example_ctx example_state 4 trace_alloc_fails (false, example_state)
           7 example_graph).
  - exact example_run_alloc_fails.
  - exact Hin.
Defined.

Lemma decode_reads_ids_after_reset_witness :
  runs (sense_voice_decode_internal default_build example_tensors example_ctx
          example_state 4)
       trace_ok (true, state_ok)
  /\ exists gf ctx0 pre p arr prints t1,
      sense_voice_build_graph_ctc_decoder default_build example_ctx example_state
        example_tensors = Some (gf, ctx0)
      /\ last (nodes gf) = Some p
      /\ trace_ok
         = pre
           ++ [EvSchedGraphCompute (sched example_state) gf GGML_STATUS_SUCCESS;
               EvSchedReset (sched example_state); EvHostInts p arr]
           ++ prints ++ [EvTimeUs t1]
      /\ omap printed pre = []
      /\ Forall (fun ev => is_Some (printed ev)) prints.
Proof.
  split; [exact example_run_ok|].
  apply (decode_reads_ids_after_reset default_build example_tensors example_ctx
           example_state state_ok 4 trace_ok).
  exact example_run_ok.
Defined.

Lemma decode_fails_only_on_engine_failure_witness :
  runs (sense_voice_decode_internal default_build example_tensors example_ctx
          example_state 4)
       trace_compute_fails (false, example_state)
  /\ (false = false <->
      alloc_failed trace_compute_fails \/ compute_failed trace_compute_fails)
  /\ (false = true <->
      true ∈ omap alloc_answer trace_compute_fails
      /\ GGML_STATUS_SUCCESS ∈ omap compute_answer trace_compute_fails).
Proof.
  split; [exact example_run_compute_fails|].
  apply (decode_fails_only_on_engine_failure default_build example_tensors
           example_ctx example_state example_state 4 trace_compute_fails false).
  exact example_run_compute_fails.
Defined.

Lemma decode_returns_under_responsive_engine_witness :
  let tw := leaf GGML_TYPE_F32 4 8 4096 "ctc.ctc_lo.weight" in
  let tb := leaf GGML_TYPE_F32 8 1 8192 "ctc.ctc_lo.bias" in
  let te := leaf GGML_TYPE_F32 4 5 12288 "encoder_out_session" in
  (is_param tw /\ is_param tb
   /\ builds default_build 0 3 tw tb te = true
   /\ responsive scripted /\ int_backends scripted)
  /\ exists r state' s' tr,
      interp scripted
        (sense_voice_decode_internal default_build example_tensors example_ctx
           example_state 4) script_compute_fails
      = Some ((r, state'), s', tr)
      /\ (r = true <->
          true ∈ omap alloc_answer tr
          /\ GGML_STATUS_SUCCESS ∈ omap compute_answer tr)
      /\ (r = false -> state' = example_state).
Proof.
  intros tw tb te.
  assert (Hw : is_param tw) by (split; reflexivity).
  assert (Hb : is_param tb) by (split; reflexivity).
  split.
  { exact (conj Hw (conj Hb (conj eq_refl
             (conj scripted_responsive scripted_int_backends)))). }
  apply (decode_returns_under_responsive_engine scripted default_build
           example_tensors example_ctx example_state 4 tw tb te
           script_compute_fails);
    try assumption; try reflexivity.
  - exact scripted_responsive.
  - exact scripted_int_backends.
Defined.

Lemma decode_forwards_n_threads_witness :
  (runs (sense_voice_decode_internal default_build example_tensors example_ctx
           example_state 4)
        trace_ok (true, state_ok)
   /\ In (EvCpuSetNThreads 0 4) trace_ok)
  /\ (forall b n,
        In (EvCpuSetNThreads b n) trace_ok \/ In (EvBlasSetNThreads b n) trace_ok
        \/ In (EvMetalSetNCb b n) trace_ok ->
        n = 4)
  /\ (forall s g st,
        In (EvSchedGraphCompute s g st) trace_ok ->
        s = sched example_state
        /\ In (EvSchedAllocGraph (sched example_state) g true) trace_ok)
  /\ (forall s g ok, In (EvSchedAllocGraph s g ok) trace_ok ->
                     s = sched example_state)
  /\ (forall s, In (EvSchedReset s) trace_ok -> s = sched example_state).
Proof.
  assert (Hin : In (EvCpuSetNThreads 0 4) trace_ok) by (cbn; tauto).
  split; [exact (conj example_run_ok Hin)|].
  apply (decode_forwards_n_threads default_build example_tensors example_ctx
           example_state 4 trace_ok (true, state_ok)).
  exact example_run_ok.
Defined.

End MoreInstances.
